(** * Auto Backup for Betaflight: a shallow embedding of the extension

    The development follows the two scripts that carry the logic of the
    extension, and the messages they exchange:

    - [content.js], which runs inside the configurator tab: the capture
      service, the stitcher, the panel capture unit, the profile cycling
      unit, the CLI extraction unit and the orchestration loop;
    - [background.js], the service worker that owns the archive;
    - [popup.js], the popup with the option boxes and the start button.

    Browser primitives (the DOM, the canvas, timers, message passing) are
    not part of the repository; they are modelled by an explicit page state
    and by an environment of oracles indexed by the logical clock. *)

From Stdlib Require Import ZArith QArith Qround String Ascii List Lia Bool.
From Stdlib Require Import DecimalString.
From Stdlib Require DecimalFacts DecimalNat.
From stdpp Require Import base gmap strings list.
Import ListNotations.
Open Scope string_scope.
Open Scope list_scope.
Open Scope Z_scope.

(* ===================================================================== *)
(** * Part I. The stitcher ([stitchScreenshots], content.js 235-279)  *)
(* ===================================================================== *)

(** JavaScript numbers.  The stitcher divides, multiplies and rounds
    doubles; every statement about it below holds for any implementation
    of these three operations, so they are kept behind an interface. *)
Class JsNumber (num : Type) := {
  num_of_Z   : Z -> num;
  num_div    : num -> num -> num;
  num_mul    : num -> num -> num;
  Math_round : num -> Z
}.

(** Exact rationals, with [Math.round] rounding halves upwards. *)
#[export] Instance JsNumber_Q : JsNumber Q := {
  num_of_Z   := inject_Z;
  num_div    := Qdiv;
  num_mul    := Qmult;
  Math_round := fun q => Qfloor (q + (1 # 2))%Q
}.

(** A decoded bitmap: the browser's [Image] after [onload]. *)
Definition pixel := Z.

Record Image := {
  img_width  : Z;
  img_height : Z;
  px         : Z -> Z -> pixel
}.

(** A 2d canvas.  A cell that was never drawn is transparent ([None]). *)
Record Canvas := {
  canvas_width  : Z;
  canvas_height : Z;
  cell          : Z -> Z -> option pixel
}.

Definition createCanvas (w h : Z) : Canvas :=
  {| canvas_width := w; canvas_height := h; cell := fun _ _ => None |}.

(** [within lo len v]: [v] lies in the rectangle side that starts at [lo]
    and extends by [len]; a negative extent is normalised as the canvas
    specification prescribes. *)
Definition within (lo len v : Z) : bool :=
  if 0 <=? len then (lo <=? v) && (v <? lo + len)
  else (lo + len <=? v) && (v <? lo).

Definition inImage (img : Image) (x y : Z) : bool :=
  (0 <=? x) && (x <? img_width img) && (0 <=? y) && (y <? img_height img).

Definition inCanvas (c : Canvas) (x y : Z) : bool :=
  (0 <=? x) && (x <? canvas_width c) && (0 <=? y) && (y <? canvas_height c).

(** [ctx.drawImage(img, sx, sy, sw, sh, dx, dy, dw, dh)] with [dw = sw] and
    [dh = sh], the only form the stitcher uses: an unscaled copy of an
    opaque bitmap.  The source rectangle is clipped to the image and the
    destination to the canvas; an empty rectangle draws nothing. *)
Definition drawImage9 (c : Canvas) (img : Image) (sx sy sw sh dx dy : Z) : Canvas :=
  {| canvas_width  := canvas_width c;
     canvas_height := canvas_height c;
     cell := fun x y =>
       if inCanvas c x y && within dx sw x && within dy sh y
          && inImage img (sx + (x - dx)) (sy + (y - dy))
       then Some (px img (sx + (x - dx)) (sy + (y - dy)))
       else cell c x y |}.

(** [ctx.drawImage(img, dx, dy)]: the whole image. *)
Definition drawImage3 (c : Canvas) (img : Image) (dx dy : Z) : Canvas :=
  drawImage9 c img 0 0 (img_width img) (img_height img) dx dy.

Section Stitcher.
Context {num : Type} `{JsNumber num}.

(** [window.innerWidth] *)
Variable innerWidth : num.

Definition newPixels (scale : num) (delta : num) : Z :=
  Math_round (num_mul delta scale).

(** First loop of the source: [totalHeight += Math.round(delta * scale)]. *)
Definition totalHeightOf (imgHeight : Z) (scale : num) (scrollDeltas : list num) : Z :=
  fold_left (fun acc d => acc + newPixels scale d) scrollDeltas imgHeight.

(** Second loop of the source, at index [i] with the running offset [y].
    [images[i + 1]] may be undefined, in which case [drawImage] throws
    and the enclosing [try] returns [null]. *)
Fixpoint drawParts (images : list Image) (width imgHeight : Z) (scale : num)
         (scrollDeltas : list num) (i : nat) (y : Z) (c : Canvas) : option Canvas :=
  match scrollDeltas with
  | [] => Some c
  | d :: ds =>
      let newPx := newPixels scale d in
      let srcY := imgHeight - newPx in
      match images !! S i with
      | None => None
      | Some img =>
          drawParts images width imgHeight scale ds (S i) (y + newPx)
                    (drawImage9 c img 0 srcY width newPx 0 y)
      end
  end.

(** The composite canvas, just before [canvas.toDataURL]. *)
Definition stitchCanvas (images : list Image) (scrollDeltas : list num) : option Canvas :=
  match images !! 0%nat with
  | None => None
  | Some img0 =>
      let width := img_width img0 in
      let imgHeight := img_height img0 in
      let scale := num_div (num_of_Z width) innerWidth in
      let totalHeight := totalHeightOf imgHeight scale scrollDeltas in
      let canvas := createCanvas width totalHeight in
      let canvas := drawImage3 canvas img0 0 0 in
      drawParts images width imgHeight scale scrollDeltas 0 imgHeight canvas
  end.

(** [stitchScreenshots]: decode every data URL ([Promise.all] rejects as
    soon as one fails), compose, encode. *)
Variable decodeImage : string -> option Image.
Variable toDataURL : Canvas -> string.

Definition stitchScreenshots (dataUrls : list string) (scrollDeltas : list num)
  : option string :=
  match mapM decodeImage dataUrls with
  | None => None
  | Some images => toDataURL <$> stitchCanvas images scrollDeltas
  end.
End Stitcher.

Definition sumZ (l : list Z) : Z := fold_right Z.add 0 l.

(** Offset of the [i]-th appended block: the first image's height plus
    the pixels appended before it (the value of [y] when the second loop
    reaches index [i]). *)
Definition blockOffset {num : Type} `{JsNumber num}
           (imgHeight : Z) (scale : num) (scrollDeltas : list num) (i : nat) : Z :=
  imgHeight + sumZ (map (newPixels scale) (take i scrollDeltas)).

(** Rows of a bitmap and of a canvas, as lists, top to bottom. *)
Definition zrange (lo n : Z) : list Z :=
  map (fun k => lo + Z.of_nat k) (seq 0 (Z.to_nat n)).

Definition imageRow (img : Image) (y : Z) : list pixel :=
  map (fun x => px img x y) (zrange 0 (img_width img)).

Definition imageRows (img : Image) : list (list pixel) :=
  map (imageRow img) (zrange 0 (img_height img)).

Definition canvasRow (c : Canvas) (y : Z) : list (option pixel) :=
  map (fun x => cell c x y) (zrange 0 (canvas_width c)).

Definition canvasRowsFrom (c : Canvas) (lo n : Z) : list (list (option pixel)) :=
  map (canvasRow c) (zrange lo n).

Definition canvasRows (c : Canvas) : list (list (option pixel)) :=
  canvasRowsFrom c 0 (canvas_height c).

(** The bottom [n] rows of a bitmap. *)
Definition bottomRows (n : Z) (img : Image) : list (list pixel) :=
  map (imageRow img) (zrange (img_height img - n) n).

Definition opaque (rows : list (list pixel)) : list (list (option pixel)) :=
  map (map Some) rows.

(* ===================================================================== *)
(** * Part II. Strings as the scripts use them                        *)
(* ===================================================================== *)

(** Strings are sequences of 8-bit characters; [length] counts them. *)

(** [s.includes(b)] *)
Fixpoint includes (s b : string) : bool :=
  String.prefix b s ||
  match s with
  | EmptyString => false
  | String _ s' => includes s' b
  end.

(** [s.startsWith(p)] *)
Definition startsWith (s p : string) : bool := String.prefix p s.

(** [s.split(' ')] for a one-character separator. *)
Fixpoint splitOn (sep : ascii) (s : string) : list string :=
  match s with
  | EmptyString => [EmptyString]
  | String c s' =>
      if Ascii.eqb c sep then EmptyString :: splitOn sep s'
      else match splitOn sep s' with
           | [] => [String c EmptyString]
           | w :: ws => String c w :: ws
           end
  end.

(** White space removed by [trim]: tab, line feed, vertical tab, form feed,
    carriage return and space. *)
Definition isWhite (c : ascii) : bool :=
  let n := nat_of_ascii c in
  ((9 <=? n)%nat && (n <=? 13)%nat) || (n =? 32)%nat.

Fixpoint trimStart (s : string) : string :=
  match s with
  | EmptyString => EmptyString
  | String c s' => if isWhite c then trimStart s' else s
  end.

Fixpoint trimEnd (s : string) : string :=
  match s with
  | EmptyString => EmptyString
  | String c s' =>
      match trimEnd s' with
      | EmptyString => if isWhite c then EmptyString else String c EmptyString
      | t => String c t
      end
  end.

(** [s.trim()] *)
Definition trim (s : string) : string := trimEnd (trimStart s).

(** [s.replace(pat, rep)] with a string pattern: the first occurrence only. *)
Fixpoint replaceFirst (pat rep s : string) : string :=
  if String.prefix pat s
  then rep +:+ String.substring (String.length pat) (String.length s - String.length pat) s
  else match s with
       | EmptyString => EmptyString
       | String c s' => String c (replaceFirst pat rep s')
       end.

(** [s.replace(/c/g, d)] for single characters. *)
Fixpoint replaceAllChar (c d : ascii) (s : string) : string :=
  match s with
  | EmptyString => EmptyString
  | String a s' => String (if Ascii.eqb a c then d else a) (replaceAllChar c d s')
  end.

(** The regular expression class [\w]. *)
Definition isWordChar (c : ascii) : bool :=
  let n := nat_of_ascii c in
  ((48 <=? n)%nat && (n <=? 57)%nat) || ((65 <=? n)%nat && (n <=? 90)%nat)
  || ((97 <=? n)%nat && (n <=? 122)%nat) || (n =? 95)%nat.

Definition toUpperChar (c : ascii) : ascii :=
  let n := nat_of_ascii c in
  if ((97 <=? n)%nat && (n <=? 122)%nat) then ascii_of_nat (n - 32) else c.

(** [s.replace(/\b\w/g, c => c.toUpperCase())]: a word character that
    follows a non-word character (or starts the string) is upper-cased. *)
Fixpoint capitalizeWords (prevWord : bool) (s : string) : string :=
  match s with
  | EmptyString => EmptyString
  | String c s' =>
      String (if isWordChar c && negb prevWord then toUpperChar c else c)
             (capitalizeWords (isWordChar c) s')
  end.

(** [String(n)] for a non-negative integer. *)
Definition showNat (n : nat) : string := NilZero.string_of_uint (Nat.to_uint n).

(** [String(n).padStart(2, '0')] *)
Definition pad2 (n : nat) : string :=
  let s := showNat n in
  if (String.length s <? 2)%nat then "0" +:+ s else s.

(** [(len / 1024).toFixed(1)]: the tenths of a kilobyte nearest to
    [len / 1024]; the quotient is exact in binary, and a tie goes up. *)
Definition toFixed1KB (len : nat) : string :=
  let tenths := ((len * 20 + 1024) / 2048)%nat in
  showNat (tenths / 10) +:+ "." +:+ showNat (tenths mod 10).

(** The double-quote character, for selectors and messages. *)
Definition dq : string := String (ascii_of_nat 34) EmptyString.

(** JavaScript truthiness of a string that may be [undefined] or [null]. *)
Definition truthy (s : option string) : bool :=
  match s with
  | Some (String _ _) => true
  | _ => false
  end.

(** [arr.includes(x)] on an array of strings. *)
Definition arrayIncludes (l : list string) (x : string) : bool :=
  existsb (String.eqb x) l.

(* ===================================================================== *)
(** * Part III. The page, the environment and the script monad        *)
(* ===================================================================== *)

(** ** Messages sent with [chrome.runtime.sendMessage] *)

Inductive CliOperation :=
| OpDebug
| OpSend (command : string)
| OpRead
| OpClear.

Record ProgressState := { current : nat; total : nat }.

Inductive Message :=
| Keepalive
| SetStatus (message : string) (progress : ProgressState)
| CaptureTab
| SaveFile (folderName fileName content : string) (isBase64 : bool)
| SetSelectValue (selector value : string)
| CliExecute (operation : CliOperation)
| ExtractionComplete
| ExtractionError (message : string).

(** ** What the page shows *)

(** An element as the scripts look at it. *)
Record Element := {
  className    : string;
  innerText    : string;
  offsetWidth  : Z;
  offsetHeight : Z;
  (** [closest('li')]: its class attribute, computed display and height *)
  closestLi    : option (string * string * Z)
}.

(** ASCII white space, at which a class attribute is split into tokens:
    tab, line feed, form feed, carriage return and space. *)
Definition isTokenSeparator (c : ascii) : bool :=
  let n := nat_of_ascii c in
  (n =? 9)%nat || (n =? 10)%nat || (n =? 12)%nat || (n =? 13)%nat || (n =? 32)%nat.

(** The pieces of [s] between separators, empty ones included. *)
Fixpoint splitAtSeparators (s : string) : list string :=
  match s with
  | EmptyString => [EmptyString]
  | String c s' =>
      if isTokenSeparator c then EmptyString :: splitAtSeparators s'
      else match splitAtSeparators s' with
           | [] => [String c EmptyString]
           | w :: ws => String c w :: ws
           end
  end.

(** [el.classList]: the tokens of the class attribute. *)
Definition classList (e : Element) : list string :=
  List.filter (fun token => negb (String.eqb token EmptyString))
              (splitAtSeparators (className e)).

(** [el.classList.contains(c)] *)
Definition classListContains (e : Element) (c : string) : bool :=
  arrayIncludes (classList e) c.

(** A [<select>] profile dropdown. *)
Record SelectEl := {
  sel_id       : string;
  sel_name     : string;
  (** the [parent > select:nth-of-type(k)] path, when the element has a
      parent in which it can be counted *)
  sel_nthPath  : option string;
  sel_options  : list string;
  sel_value    : string
}.

(** Assigning [select.value]: a value that names no option leaves the
    control without a selection. *)
Definition assignValue (s : SelectEl) (v : string) : SelectEl :=
  {| sel_id := sel_id s; sel_name := sel_name s; sel_nthPath := sel_nthPath s;
     sel_options := sel_options s;
     sel_value := if arrayIncludes (sel_options s) v then v else EmptyString |}.

(** The reply to a [captureTab] request as the callback sees it. *)
Record CaptureReply := {
  cap_lastError : bool;
  (** [res], with its [error] and [dataUrl] members *)
  cap_res       : option (option string * option string)
}.

(** What [expertCb.closest('label') || expertCb.parentElement] finds
    around the expert-mode checkbox (content.js 370): a label, failing that
    a parent element, or neither. *)
Inductive ExpertWrapper := ClosestLabel | ParentElement | NoWrapper.

(** Everything the scripts read but do not control, at a given instant of
    the logical clock (milliseconds). *)
Record Env := {
  (** when, if ever, the [abortBackup] message arrives *)
  abortAt         : option Z;
  (** [document.querySelectorAll(selector)] *)
  querySelectorAll : Z -> string -> list Element;
  (** [scrollHeight] and [clientHeight] of the scrollable container *)
  scrollGeometry  : Z -> Z * Z;
  (** how many bottom bars [hideStickyBottomElements] finds *)
  stickyBars      : Z -> nat;
  (** the expert-mode checkbox: present, and checked *)
  expertCheckbox  : Z -> option bool;
  (** what stands around the expert-mode checkbox *)
  expertWrapper   : Z -> ExpertWrapper;
  captureReply    : Z -> CaptureReply;
  (** whether the page and the flight controller take a dropdown change *)
  selectAccepts   : Z -> bool;
  (** reply of the [cliExecute] bridge to [send]: [None] is [lastError] *)
  cliSendReply    : Z -> option bool;
  (** reply of the bridge to [read]: [None] is [lastError] *)
  cliReadReply    : Z -> option string;
  (** [window.innerWidth] *)
  windowInnerWidth : Z;
  decodeImage     : string -> option Image;
  toDataURL       : Canvas -> string
}.

(** The part of the page that the content script writes. *)
Record Page := {
  scrollTop  : Z;
  (** results of [findSelect('profile','pid')] and
      [findSelect('rate_profile','rate')] *)
  pidSelect  : option SelectEl;
  rateSelect : option SelectEl;
  (** bottom bars currently hidden by the script *)
  hiddenBars : nat;
  (** selectors of the elements clicked so far, newest first *)
  clicked    : list string
}.

(** The content script with its globals. *)
Record World := {
  env              : Env;
  clock            : Z;
  backupRunning    : bool;
  abortRequested   : bool;
  keepaliveInterval : bool;
  progressState    : ProgressState;
  lastCaptureTime  : Z;
  page             : Page;
  (** messages sent to the service worker, newest first *)
  outbox           : list Message
}.

(** ** The monad: state, exceptions and a bound on unbounded loops

    A script is run to its end on a world.  Time is logical: the clock
    advances only in [sleep], by the requested delay, and the answer to a
    message sent to the service worker is there at the instant the message
    is sent.  The only thing that happens behind the script's back is the
    arrival of the stop request, which the listener handles during a
    [sleep].  A [while (true)] loop of the source is given a bound; a
    script that exhausts it ends in [OutOfFuel]. *)

Inductive Outcome (A : Type) : Type :=
| Returned (a : A)
| Thrown (e : string)
| OutOfFuel.
Arguments Returned {A} a.
Arguments Thrown {A} e.
Arguments OutOfFuel {A}.

Definition Js (A : Type) : Type := World -> Outcome A * World.

Definition ret {A} (a : A) : Js A := fun w => (Returned a, w).

Definition bind {A B} (m : Js A) (k : A -> Js B) : Js B :=
  fun w =>
    match m w with
    | (Returned a, w') => k a w'
    | (Thrown e, w') => (Thrown e, w')
    | (OutOfFuel, w') => (OutOfFuel, w')
    end.

Definition throw {A} (e : string) : Js A := fun w => (Thrown e, w).

(** [try { body } finally { cleanup }] *)
Definition tryFinally {A} (body : Js A) (cleanup : Js unit) : Js A :=
  fun w =>
    match body w with
    | (OutOfFuel, w') => (OutOfFuel, w')
    | (r, w') =>
        match cleanup w' with
        | (Returned _, w'') => (r, w'')
        | (Thrown e, w'') => (Thrown e, w'')
        | (OutOfFuel, w'') => (OutOfFuel, w'')
        end
    end.

(** [try { body } catch (e) { handler(e) }] *)
Definition tryCatch {A} (body : Js A) (handler : string -> Js A) : Js A :=
  fun w =>
    match body w with
    | (Thrown e, w') => handler e w'
    | r => r
    end.

Declare Scope js_scope.
Delimit Scope js_scope with js.
Notation "x <- m ;; k" := (bind m (fun x => k))
  (at level 100, m at next level, right associativity) : js_scope.
Notation "m ;; k" := (bind m (fun _ => k))
  (at level 100, right associativity) : js_scope.
Open Scope js_scope.

Definition gets {A} (f : World -> A) : Js A := fun w => (Returned (f w), w).
Definition modify (f : World -> World) : Js unit := fun w => (Returned tt, f w).

Definition setAbortRequested (b : bool) (w : World) : World :=
  {| env := env w; clock := clock w; backupRunning := backupRunning w;
     abortRequested := b; keepaliveInterval := keepaliveInterval w;
     progressState := progressState w; lastCaptureTime := lastCaptureTime w;
     page := page w; outbox := outbox w |}.

Definition setBackupRunning (b : bool) (w : World) : World :=
  {| env := env w; clock := clock w; backupRunning := b;
     abortRequested := abortRequested w; keepaliveInterval := keepaliveInterval w;
     progressState := progressState w; lastCaptureTime := lastCaptureTime w;
     page := page w; outbox := outbox w |}.

Definition setClock (t : Z) (w : World) : World :=
  {| env := env w; clock := t; backupRunning := backupRunning w;
     abortRequested := abortRequested w; keepaliveInterval := keepaliveInterval w;
     progressState := progressState w; lastCaptureTime := lastCaptureTime w;
     page := page w; outbox := outbox w |}.

Definition setKeepalive (b : bool) (w : World) : World :=
  {| env := env w; clock := clock w; backupRunning := backupRunning w;
     abortRequested := abortRequested w; keepaliveInterval := b;
     progressState := progressState w; lastCaptureTime := lastCaptureTime w;
     page := page w; outbox := outbox w |}.

Definition setProgressState (p : ProgressState) (w : World) : World :=
  {| env := env w; clock := clock w; backupRunning := backupRunning w;
     abortRequested := abortRequested w; keepaliveInterval := keepaliveInterval w;
     progressState := p; lastCaptureTime := lastCaptureTime w;
     page := page w; outbox := outbox w |}.

Definition setLastCaptureTime (t : Z) (w : World) : World :=
  {| env := env w; clock := clock w; backupRunning := backupRunning w;
     abortRequested := abortRequested w; keepaliveInterval := keepaliveInterval w;
     progressState := progressState w; lastCaptureTime := t;
     page := page w; outbox := outbox w |}.

Definition setPage (p : Page) (w : World) : World :=
  {| env := env w; clock := clock w; backupRunning := backupRunning w;
     abortRequested := abortRequested w; keepaliveInterval := keepaliveInterval w;
     progressState := progressState w; lastCaptureTime := lastCaptureTime w;
     page := p; outbox := outbox w |}.

Definition pushOutbox (m : Message) (w : World) : World :=
  {| env := env w; clock := clock w; backupRunning := backupRunning w;
     abortRequested := abortRequested w; keepaliveInterval := keepaliveInterval w;
     progressState := progressState w; lastCaptureTime := lastCaptureTime w;
     page := page w; outbox := m :: outbox w |}.

(** [chrome.runtime.sendMessage(m)] *)
Definition sendMessage (m : Message) : Js unit := modify (pushOutbox m).

(** [await sleep(ms)]: the clock advances, and a stop request that arrives
    in the meantime is handled by the listener ([abortRequested = true]). *)
Definition sleep (ms : Z) : Js unit :=
  modify (fun w =>
    let t := clock w + Z.max 0 ms in
    let w' := setClock t w in
    match abortAt (env w) with
    | Some a => if (clock w <? a) && (a <=? t) then setAbortRequested true w' else w'
    | None => w'
    end).

(** [checkAbort] (content.js 47-49) *)
Definition checkAbort : Js unit :=
  fun w => if abortRequested w then (Thrown "Backup stopped by user.", w)
           else (Returned tt, w).

(** [document.querySelector(sel)] *)
Definition querySelector (sel : string) : Js (option Element) :=
  gets (fun w => head (querySelectorAll (env w) (clock w) sel)).

Definition querySelectorAllNow (sel : string) : Js (list Element) :=
  gets (fun w => querySelectorAll (env w) (clock w) sel).

(** [el.click()] on the element that [sel] describes *)
Definition click (sel : string) : Js unit :=
  modify (fun w =>
    let p := page w in
    setPage {| scrollTop := scrollTop p; pidSelect := pidSelect p;
               rateSelect := rateSelect p; hiddenBars := hiddenBars p;
               clicked := sel :: clicked p |} w).

(** [setStatus] and [setProgress] (content.js 101-110) *)
Definition setStatus (msg : string) : Js unit :=
  fun w => sendMessage (SetStatus msg (progressState w)) w.

Definition setProgress (cur tot : nat) : Js unit :=
  modify (setProgressState {| current := cur; total := tot |}).

(** [startKeepalive] and [stopKeepalive] (content.js 62-74) *)
Definition startKeepalive : Js unit := modify (setKeepalive true).
Definition stopKeepalive : Js unit := modify (setKeepalive false).

(* ===================================================================== *)
(** * Part IV. The content script (content.js)                        *)
(* ===================================================================== *)

(** ** Connectivity probe ([isConnected], content.js 76-99)

    [Some true] and [Some false] are the two definite answers; [None] is
    the source's [null]: no indicator found. *)
Definition isConnected : Js (option bool) :=
  bemBtn <- querySelector ".connection_button__link" ;;
  match bemBtn with
  | Some b => ret (Some (classListContains b "active"))
  | None =>
      classicBtn <- querySelector ".connect_b a, .connect_b button, .connect-button" ;;
      match classicBtn with
      | Some b => ret (Some (classListContains b "active"))
      | None =>
          indicator <- querySelector
            ("[class*=" +:+ dq +:+ "connect" +:+ dq +:+ "][class*=" +:+ dq +:+ "active" +:+ dq +:+ "]") ;;
          match indicator with
          | Some _ => ret (Some true)
          | None =>
              navTabs <- querySelectorAllNow "ul.mode-connected > li" ;;
              if (0 <? length navTabs)%nat
                 && existsb (fun li => 0 <? offsetHeight li) navTabs
              then ret (Some true)
              else ret None
          end
      end
  end.

(** ** Scrolling the content container *)

Definition setPageScrollTop (v : Z) (p : Page) : Page :=
  {| scrollTop := v; pidSelect := pidSelect p; rateSelect := rateSelect p;
     hiddenBars := hiddenBars p; clicked := clicked p |}.

Definition setPageHiddenBars (n : nat) (p : Page) : Page :=
  {| scrollTop := scrollTop p; pidSelect := pidSelect p; rateSelect := rateSelect p;
     hiddenBars := n; clicked := clicked p |}.

Definition scrollHeight (w : World) : Z := fst (scrollGeometry (env w) (clock w)).
Definition clientHeight (w : World) : Z := snd (scrollGeometry (env w) (clock w)).

(** [scrollEl.scrollTop = v]: the browser clamps the requested offset. *)
Definition assignScrollTop (v : Z) : Js unit :=
  modify (fun w =>
    let maxTop := Z.max 0 (scrollHeight w - clientHeight w) in
    setPage (setPageScrollTop (Z.max 0 (Z.min v maxTop)) (page w)) w).

(** [hideStickyBottomElements] and [restoreStickyBottomElements]
    (content.js 124-163); the list of hidden elements is represented by
    its length. *)
Definition hideStickyBottomElements : Js nat :=
  fun w =>
    let k := stickyBars (env w) (clock w) in
    (Returned k, setPage (setPageHiddenBars (hiddenBars (page w) + k)%nat (page w)) w).

Definition restoreStickyBottomElements (hidden : nat) : Js unit :=
  modify (fun w => setPage (setPageHiddenBars (hiddenBars (page w) - hidden)%nat (page w)) w).

(** ** Capture service ([requestScreenshot], content.js 281-305) *)

Definition MIN_CAPTURE_INTERVAL : Z := 1100.

(** What the [captureTab] callback resolves to. *)
Definition captureResult (r : CaptureReply) : option string :=
  if cap_lastError r then None
  else match cap_res r with
       | None => None
       | Some (err, dataUrl) => if truthy err then None else dataUrl
       end.

(** The [for] loop, entered at [attempt] with [remaining] iterations left. *)
Fixpoint captureAttempts (remaining attempt : nat) : Js (option string) :=
  match remaining with
  | O => ret None
  | S remaining' =>
      modify (fun w => setLastCaptureTime (clock w) w) ;;
      sendMessage CaptureTab ;;
      result <- gets (fun w => captureResult (captureReply (env w) (clock w))) ;;
      if truthy result then ret result
      else (sleep (1500 * (Z.of_nat attempt + 1)) ;;
            captureAttempts remaining' (S attempt))
  end.

Definition requestScreenshot : Js (option string) :=
  now <- gets clock ;;
  last <- gets lastCaptureTime ;;
  let wait := MIN_CAPTURE_INTERVAL - (now - last) in
  (if 0 <? wait then sleep wait else ret tt) ;;
  captureAttempts 3 0.

(** [saveToZip] (content.js 307-313) *)
Definition saveToZip (folderName fileName content : string) (isBase64 : bool) : Js unit :=
  sendMessage (SaveFile folderName fileName content isBase64).

(** ** Panel capture ([captureAndSave], content.js 165-230) *)

Definition outOfFuel {A} : Js A := fun w => (OutOfFuel, w).

(** The [while (true)] loop.  It ends when a capture fails or the bottom is
    reached; [fuel] bounds the number of iterations in the model. *)
Fixpoint scrollLoop (fuel : nat) (baseFileName : string)
         (parts : list string) (scrollDeltas : list Z) : Js (list string * list Z) :=
  match fuel with
  | O => outOfFuel
  | S fuel' =>
      checkAbort ;;
      dataUrl <- requestScreenshot ;;
      match dataUrl with
      | Some url =>
          if truthy dataUrl then
            let parts := parts ++ [url] in
            top <- gets (fun w => scrollTop (page w)) ;;
            ch <- gets clientHeight ;;
            sh <- gets scrollHeight ;;
            if sh - 5 <=? top + ch then ret (parts, scrollDeltas)
            else
              let prevScrollTop := top in
              assignScrollTop (top + ch) ;;
              sleep 300 ;;
              top' <- gets (fun w => scrollTop (page w)) ;;
              let actualDelta := top' - prevScrollTop in
              scrollLoop fuel' baseFileName parts (scrollDeltas ++ [actualDelta])
          else
            (setStatus ("WARNING: Screenshot failed for " +:+ baseFileName) ;;
             ret (parts, scrollDeltas))
      | None =>
          setStatus ("WARNING: Screenshot failed for " +:+ baseFileName) ;;
          ret (parts, scrollDeltas)
      end
  end.

(** The stitcher as the content script calls it: exact rational numbers,
    the window's width, the browser's decoder and encoder. *)
Definition stitch (parts : list string) (scrollDeltas : list Z) : Js (option string) :=
  gets (fun w =>
    stitchScreenshots (inject_Z (windowInnerWidth (env w)))
                      (decodeImage (env w)) (toDataURL (env w))
                      parts (map inject_Z scrollDeltas)).

(** Fallback [for] loop: every part under its own name. *)
Fixpoint saveParts (folderName baseFileName : string) (i : nat) (parts : list string)
  : Js unit :=
  match parts with
  | [] => ret tt
  | part :: rest =>
      saveToZip folderName (baseFileName +:+ "_part" +:+ showNat (i + 1) +:+ ".jpg") part true ;;
      saveParts folderName baseFileName (S i) rest
  end.

(** What is done with the captured parts (content.js 212-226): nothing
    without a part, a single part saved as it is, several parts stitched,
    or saved one by one if the stitcher fails. *)
Definition saveCaptured (folderName baseFileName : string)
           (parts : list string) (scrollDeltas : list Z) : Js unit :=
  match parts with
  | [] => ret tt
  | [only] => saveToZip folderName (baseFileName +:+ ".jpg") only true
  | _ =>
      stitched <- stitch parts scrollDeltas ;;
      match stitched with
      | Some url =>
          if truthy stitched
          then saveToZip folderName (baseFileName +:+ ".jpg") url true
          else saveParts folderName baseFileName 0 parts
      | None => saveParts folderName baseFileName 0 parts
      end
  end.

Definition captureAndSave (fuel : nat) (folderName baseFileName : string) : Js unit :=
  assignScrollTop 0 ;;
  sleep 300 ;;
  sh <- gets scrollHeight ;;
  ch <- gets clientHeight ;;
  let maxScroll := sh - ch in
  if maxScroll <=? 100 then
    dataUrl <- requestScreenshot ;;
    match dataUrl with
    | Some url =>
        if truthy dataUrl
        then saveToZip folderName (baseFileName +:+ ".jpg") url true
        else setStatus ("WARNING: Screenshot failed for " +:+ baseFileName)
    | None => setStatus ("WARNING: Screenshot failed for " +:+ baseFileName)
    end
  else
    hiddenEls <- hideStickyBottomElements ;;
    tryFinally
      (assignScrollTop 0 ;;
       sleep 200 ;;
       r <- scrollLoop fuel baseFileName [] [] ;;
       saveCaptured folderName baseFileName (fst r) (snd r))
      (restoreStickyBottomElements hiddenEls).

(** ** Panels and their selection (content.js 335-412) *)

Record Tab := { cls : string; label : string }.

(** The options record sent with [runExtraction]; [selectedTabs] may be
    absent. *)
Record Options := {
  screenshots  : bool;
  cli          : bool;
  profiles     : bool;
  selectedTabs : option (list string)
}.

Definition BLACKLIST : list string :=
  ["tab_landing"; "tab_firmware_flasher"; "tab_presets"].

Definition TAB_ENGLISH_NAMES : gmap string string :=
  list_to_map
    [("tab_setup", "Setup"); ("tab_ports", "Ports");
     ("tab_configuration", "Configuration"); ("tab_power", "Power");
     ("tab_failsafe", "Failsafe"); ("tab_pid_tuning", "PID_Tuning");
     ("tab_receiver", "Receiver"); ("tab_modes", "Modes");
     ("tab_adjustments", "Adjustments"); ("tab_servos", "Servos");
     ("tab_motors", "Motors"); ("tab_osd", "OSD"); ("tab_vtx", "VTX");
     ("tab_led_strip", "LED_Strip"); ("tab_sensors", "Sensors");
     ("tab_gps", "GPS"); ("tab_logging", "Blackbox"); ("tab_cli", "CLI")].

(** [options.selectedTabs && options.selectedTabs.length > 0] *)
Definition hasSelection (options : Options) : bool :=
  match selectedTabs options with
  | Some (_ :: _) => true
  | _ => false
  end.

Definition selectionIncludes (options : Options) (c : string) : bool :=
  match selectedTabs options with
  | Some l => arrayIncludes l c
  | None => false
  end.

(** The callback of [tabs.filter] (content.js 400-409), one [if] per line
    of the source. *)
Definition keepTab (options : Options) (tab : Tab) : bool :=
  if existsb (fun b => includes (cls tab) b) BLACKLIST then false
  else if String.eqb (cls tab) "tab_cli" && negb (cli options) then false
  else if negb (screenshots options) && negb (String.eqb (cls tab) "tab_cli") then false
  else if hasSelection options && negb (String.eqb (cls tab) "tab_cli")
          && negb (selectionIncludes options (cls tab)) then false
  else true.

Definition filterTabs (options : Options) (tabs : list Tab) : list Tab :=
  List.filter (keepTab options) tabs.

(** The visible navigation entries and the descriptors made of them
    (content.js 378-397). *)
Definition tabVisible (a : Element) : bool :=
  match closestLi a with
  | Some (_, display, h) => negb (String.eqb display "none") && (0 <? h)
  | None => false
  end.

Definition tabOfElement (a : Element) : Tab :=
  {| cls := match closestLi a with
            | Some (liClass, _, _) =>
                match List.find (fun c => startsWith c "tab_") (splitOn " " liClass) with
                | Some c => c
                | None => EmptyString
                end
            | None => EmptyString
            end;
     label := trim (innerText a) |}.

(** Discovery loop: up to [attempts] polls, half a second apart. *)
Fixpoint discoverTabs (attempts : nat) : Js (list Element) :=
  match attempts with
  | O => ret []
  | S attempts' =>
      all <- querySelectorAllNow "ul.mode-connected > li > a.tabicon" ;;
      let tabEls := List.filter tabVisible all in
      if (0 <? length tabEls)%nat then ret tabEls
      else (setStatus "Waiting for Betaflight UI..." ;;
            sleep 500 ;;
            discoverTabs attempts')
  end.

(** Folder name of a panel (content.js 427-428). *)
Definition englishNameOf (c : string) : string :=
  match TAB_ENGLISH_NAMES !! c with
  | Some (String a s) => String a s
  | _ =>
      replaceAllChar " " "_"
        (capitalizeWords false
           (replaceAllChar "_" " " (replaceFirst "tab_" EmptyString c)))
  end.

(** ** Sub-tabs (content.js 467-535) *)

Definition SUB_TAB_SELECTORS : list string :=
  ["#content .tab-container .tab";
   "#content .tab_container .tab";
   "#content .tab-container > div";
   "#content .tab_container > div";
   ".tab-content-header .tab";
   "#content [role=" +:+ dq +:+ "tablist" +:+ dq +:+ "] [role=" +:+ dq +:+ "tab" +:+ dq +:+ "]";
   "#content .subtab";
   "#content .sub-tab";
   "#content .tabs .tab";
   "#content .tabs > a";
   "#content .tabs > div";
   "#content .tabs > button"].

Definition subTabVisible (el : Element) : bool :=
  (0 <? offsetWidth el) && (0 <? offsetHeight el).

(** The first selector with more than one visible match wins; the result
    carries the selector so that a click can be attributed. *)
Fixpoint firstSubTabs (dom : string -> list Element) (sels : list string)
  : string * list Element :=
  match sels with
  | [] => (EmptyString, [])
  | sel :: rest =>
      let tabs := List.filter subTabVisible (dom sel) in
      if (1 <? length tabs)%nat then (sel, tabs) else firstSubTabs dom rest
  end.

Definition findVisibleSubTabs : Js (string * list Element) :=
  gets (fun w => firstSubTabs (querySelectorAll (env w) (clock w)) SUB_TAB_SELECTORS).

Definition subTabTarget (sel : string) (index : nat) : string :=
  sel +:+ "[" +:+ showNat index +:+ "]".

Definition clickSubTab (index : nat) : Js bool :=
  found <- findVisibleSubTabs ;;
  let '(sel, subTabs) := found in
  if (index <? length subTabs)%nat
  then (click (subTabTarget sel index) ;; ret true)
  else ret false.

(** The [for (const sub of subTabs)] loop of [captureTabWithSubTabs]. *)
Fixpoint captureSubTabs (fuel : nat) (folder prefix tabLabel sel : string)
         (subIdx : nat) (subTabs : list Element) : Js unit :=
  match subTabs with
  | [] => ret tt
  | sub :: rest =>
      setStatus (tabLabel +:+ " > " +:+ trim (innerText sub) +:+ "...") ;;
      click (subTabTarget sel (subIdx - 1)) ;;
      sleep 1000 ;;
      captureAndSave fuel folder
        (prefix +:+ "_" +:+ pad2 subIdx +:+ "_SubTab" +:+ showNat subIdx) ;;
      captureSubTabs fuel folder prefix tabLabel sel (S subIdx) rest
  end.

Definition captureTabWithSubTabs (fuel : nat) (folder prefix englishName tabLabel : string)
  : Js unit :=
  found <- findVisibleSubTabs ;;
  let '(sel, subTabs) := found in
  if (1 <? length subTabs)%nat
  then captureSubTabs fuel folder prefix tabLabel sel 1 subTabs
  else (setStatus ("Screenshot: " +:+ tabLabel +:+ "...") ;;
        captureAndSave fuel folder (prefix +:+ "_01_" +:+ englishName)).

(** ** Profile dropdowns (content.js 728-795) *)

Inductive Axis := PidAxis | RateAxis.

Definition selectOf (ax : Axis) (p : Page) : option SelectEl :=
  match ax with
  | PidAxis => pidSelect p
  | RateAxis => rateSelect p
  end.

Definition setSelectOf (ax : Axis) (s : SelectEl) (p : Page) : Page :=
  match ax with
  | PidAxis =>
      {| scrollTop := scrollTop p; pidSelect := Some s; rateSelect := rateSelect p;
         hiddenBars := hiddenBars p; clicked := clicked p |}
  | RateAxis =>
      {| scrollTop := scrollTop p; pidSelect := pidSelect p; rateSelect := Some s;
         hiddenBars := hiddenBars p; clicked := clicked p |}
  end.

(** [select.value], read from the live page; an axis without a dropdown
    reads as the empty string. *)
Definition selectValue (ax : Axis) (w : World) : string :=
  match selectOf ax (page w) with
  | Some s => sel_value s
  | None => EmptyString
  end.

(** [getSelectSelector] *)
Definition getSelectSelector (s : SelectEl) : option string :=
  match sel_id s with
  | String _ _ => Some ("#" +:+ sel_id s)
  | EmptyString =>
      match sel_name s with
      | String _ _ => Some ("#content select[name=" +:+ dq +:+ sel_name s +:+ dq +:+ "]")
      | EmptyString => sel_nthPath s
      end
  end.

(** The assignment [select.value = v] followed by the change events, in
    either world: it holds only if the page and the flight controller
    take it. *)
Definition applySelectValue (ax : Axis) (v : string) : Js unit :=
  modify (fun w =>
    match selectOf ax (page w) with
    | Some s =>
        if selectAccepts (env w) (clock w)
        then setPage (setSelectOf ax (assignValue s v) (page w)) w
        else w
    | None => w
    end).

(** [setSelectViaBridge]: the request goes to the service worker, which
    runs the assignment in the page's main world. *)
Definition setSelectViaBridge (ax : Axis) (selector value : string) : Js unit :=
  sendMessage (SetSelectValue selector value) ;;
  applySelectValue ax value.

(** The [for] loop of [setSelectValueVerified], with [remaining]
    iterations left. *)
Fixpoint verifyAttempts (remaining : nat) (ax : Axis) (selector : option string)
         (strValue : string) : Js bool :=
  match remaining with
  | O => ret false
  | S remaining' =>
      match selector with
      | Some sel => setSelectViaBridge ax sel strValue
      | None => applySelectValue ax strValue
      end ;;
      sleep 500 ;;
      v <- gets (selectValue ax) ;;
      if String.eqb v strValue then ret true
      else (sleep 500 ;; verifyAttempts remaining' ax selector strValue)
  end.

Definition setSelectValueVerified (ax : Axis) (value : string) (retries : nat) : Js bool :=
  s <- gets (fun w => selectOf ax (page w)) ;;
  let selector := match s with Some s => getSelectSelector s | None => None end in
  verifyAttempts (S retries) ax selector value.

(** ** Profile cycling ([handlePidTuningTab], content.js 541-621) *)

(** [for (let p = 0; p < pidCount; p++)], entered at [p]. *)
Fixpoint cyclePidProfiles (fuel : nat) (folder prefix : string)
         (remaining p pidCount : nat) : Js unit :=
  match remaining with
  | O => ret tt
  | S remaining' =>
      checkAbort ;;
      setStatus ("PID Profile " +:+ showNat (p + 1) +:+ "/" +:+ showNat pidCount +:+ "...") ;;
      s <- gets (fun w => selectOf PidAxis (page w)) ;;
      let targetVal := match s with
                       | Some s => nth p (sel_options s) EmptyString
                       | None => EmptyString
                       end in
      setSelectValueVerified PidAxis targetVal 3 ;;
      sleep 2500 ;;
      clickSubTab 0 ;;
      sleep 800 ;;
      captureAndSave fuel folder (prefix +:+ "_PID_Profile" +:+ showNat (p + 1)) ;;
      cyclePidProfiles fuel folder prefix remaining' (S p) pidCount
  end.

(** [for (let r = 0; r < rateCount; r++)], entered at [r]. *)
Fixpoint cycleRateProfiles (fuel : nat) (folder prefix : string)
         (remaining r rateCount : nat) : Js unit :=
  match remaining with
  | O => ret tt
  | S remaining' =>
      checkAbort ;;
      setStatus ("Rate Profile " +:+ showNat (r + 1) +:+ "/" +:+ showNat rateCount +:+ "...") ;;
      s <- gets (fun w => selectOf RateAxis (page w)) ;;
      let targetVal := match s with
                       | Some s => nth r (sel_options s) EmptyString
                       | None => EmptyString
                       end in
      setSelectValueVerified RateAxis targetVal 3 ;;
      sleep 2500 ;;
      clickSubTab 1 ;;
      sleep 800 ;;
      captureAndSave fuel folder (prefix +:+ "_Rates_Profile" +:+ showNat (r + 1)) ;;
      cycleRateProfiles fuel folder prefix remaining' (S r) rateCount
  end.

(** The restore block at the end of the cycling branch
    (content.js 609-616). *)
Definition restoreProfiles (originalPid : string) (originalRate : option string)
  : Js unit :=
  setStatus "Restoring original profiles..." ;;
  setSelectValueVerified PidAxis originalPid 3 ;;
  sleep 1000 ;;
  match originalRate with
  | Some v => setSelectValueVerified RateAxis v 3 ;; ret tt
  | None => ret tt
  end ;;
  sleep 1000.

Definition handlePidTuningTab (fuel : nat) (folder prefix : string) : Js unit :=
  found <- findVisibleSubTabs ;;
  let subTabCount := length (snd found) in
  pidSel <- gets (fun w => pidSelect (page w)) ;;
  rateSel <- gets (fun w => rateSelect (page w)) ;;
  match pidSel with
  | Some pid =>
      if (1 <? length (sel_options pid))%nat then
        let originalPid := sel_value pid in
        let originalRate := sel_value <$> rateSel in
        let pidCount := length (sel_options pid) in
        let rateCount := match rateSel with
                         | Some r => length (sel_options r)
                         | None => O
                         end in
        cyclePidProfiles fuel folder prefix pidCount 0 pidCount ;;
        (if (1 <? subTabCount)%nat then
           if (1 <? rateCount)%nat then
             cycleRateProfiles fuel folder prefix rateCount 0 rateCount
           else
             (clickSubTab 1 ;;
              sleep 800 ;;
              captureAndSave fuel folder (prefix +:+ "_Rates"))
         else ret tt) ;;
        (if (2 <? subTabCount)%nat then
           setStatus "Filter settings..." ;;
           clickSubTab 2 ;;
           sleep 800 ;;
           captureAndSave fuel folder (prefix +:+ "_Filter")
         else ret tt) ;;
        restoreProfiles originalPid originalRate
      else captureTabWithSubTabs fuel folder prefix "PID_Tuning" "PID Tuning"
  | None => captureTabWithSubTabs fuel folder prefix "PID_Tuning" "PID Tuning"
  end.

(** ** CLI extraction (content.js 801-1039) *)

(** [a || b || ...] over element lookups: the first selector that finds
    an element accepted by [ok]. *)
Fixpoint firstMatch (dom : string -> list Element) (ok : Element -> bool)
         (sels : list string) : option (string * Element) :=
  match sels with
  | [] => None
  | sel :: rest =>
      match head (dom sel) with
      | Some el => if ok el then Some (sel, el) else firstMatch dom ok rest
      | None => firstMatch dom ok rest
      end
  end.

Definition cliDiagnostics : Js unit := sendMessage (CliExecute OpDebug).

(** [cliClear] (content.js 998-1011) *)
Definition cliClear : Js unit :=
  byAnchor <- querySelector "#content a.clear" ;;
  byButton <- querySelector "#content button.clear" ;;
  others <- querySelectorAllNow "#content a, #content button" ;;
  let clearBtn :=
    match byAnchor with
    | Some _ => Some "#content a.clear"
    | None =>
        match byButton with
        | Some _ => Some "#content button.clear"
        | None =>
            match List.find (fun el => classListContains el "clear") others with
            | Some _ => Some "#content a, #content button"
            | None => None
            end
        end
    end in
  match clearBtn with
  | Some sel => click sel ;; sleep 400
  | None => sendMessage (CliExecute OpClear)
  end.

(** [findCliInput] (content.js 954-969) *)
Definition findCliInput : Js (option (string * Element)) :=
  gets (fun w =>
    firstMatch (querySelectorAll (env w) (clock w)) (fun el => 0 <? offsetWidth el)
      ["#content input.cliInput";
       "#content input[placeholder*=" +:+ dq +:+ "command" +:+ dq +:+ " i]";
       "#content input[placeholder*=" +:+ dq +:+ "befehl" +:+ dq +:+ " i]";
       "#content input[placeholder*=" +:+ dq +:+ "cli" +:+ dq +:+ " i]";
       "#content input[type=" +:+ dq +:+ "text" +:+ dq +:+ "]";
       "#content textarea:not(.xterm-helper-textarea)"]).

(** [cliSend] (content.js 874-952): bridge, then keystrokes, then the
    plain input field. *)
Definition cliSend (cmd : string) : Js bool :=
  sendMessage (CliExecute (OpSend cmd)) ;;
  bridgeResult <- gets (fun w => cliSendReply (env w) (clock w)) ;;
  match bridgeResult with
  | Some true => ret true
  | _ =>
      xtermTA <- gets (fun w =>
        firstMatch (querySelectorAll (env w) (clock w)) (fun _ => true)
          [".xterm-helper-textarea"; "textarea[aria-label]";
           ".xterm textarea"; ".terminal textarea"]) ;;
      match xtermTA with
      | Some _ =>
          sleep 100 ;;
          sleep (5 * Z.of_nat (String.length cmd)) ;;
          ret true
      | None =>
          input <- findCliInput ;;
          match input with
          | Some _ => sleep 50 ;; ret true
          | None => ret false
          end
      end
  end.

(** What [cliRead] finds at instant [t]: the bridge's answer if it is a
    non-empty string, else the text of the first output element that is
    not blank, else the empty string. *)
Definition terminalText (e : Env) (t : Z) : string :=
  match cliReadReply e t with
  | Some (String c s) => String c s
  | _ =>
      match firstMatch (querySelectorAll e t)
              (fun el => (0 <? String.length (trim (innerText el)))%nat)
              ["#content .window .wrapper"; "#content .terminal-output"; "#content pre";
               ".tab_cli .window .wrapper"; ".window .wrapper"] with
      | Some (_, el) => innerText el
      | None => EmptyString
      end
  end.

(** [cliRead] (content.js 972-995) *)
Definition cliRead : Js string :=
  sendMessage (CliExecute OpRead) ;;
  gets (fun w => terminalText (env w) (clock w)).

(** How [cliWaitForStableOutput] ended: through the [return] inside the
    loop, or by leaving the loop when the time was up. *)
Inductive WaitEnd := Stable | TimedOut.

(** The [while (Date.now() - start < maxMs)] loop; every iteration sleeps
    a second, so [fuel] iterations cover [fuel] seconds. *)
Fixpoint waitLoop (fuel : nat) (start maxMs : Z) (lastLen stable : nat) : Js WaitEnd :=
  match fuel with
  | O => outOfFuel
  | S fuel' =>
      now <- gets clock ;;
      if now - start <? maxMs then
        checkAbort ;;
        sleep 1000 ;;
        checkAbort ;;
        out <- cliRead ;;
        let len := String.length out in
        if (lastLen <? len)%nat then
          waitLoop fuel' start maxMs len 0
        else if (0 <? len)%nat then
          let stable := S stable in
          if (2 <=? stable)%nat then ret Stable
          else waitLoop fuel' start maxMs lastLen stable
        else waitLoop fuel' start maxMs lastLen stable
      else ret TimedOut
  end.

Definition cliWaitForStableOutput (maxMs : Z) : Js WaitEnd :=
  start <- gets clock ;;
  waitLoop (S (Z.to_nat (maxMs / 1000 + 1))) start maxMs 0 0.

Record CliCommand := { cmd : string; file : string; timeout : Z }.

Definition cliCommands : list CliCommand :=
  [ {| cmd := "diff all"; file := "diff_all.txt"; timeout := 30000 |};
    {| cmd := "dump all"; file := "dump_all.txt"; timeout := 45000 |} ].

(** What becomes of a command's output (content.js 850-859): saved when
    it is more than noise, reported as missing otherwise; then the pause
    between commands. *)
Definition storeCliOutput (c : CliCommand) (output : string) : Js unit :=
  (if truthy (Some output) && (10 <? String.length (trim output))%nat then
     saveToZip "CLI" (file c) output false ;;
     setStatus ("'" +:+ cmd c +:+ "' saved ("
                +:+ toFixed1KB (String.length output) +:+ " KB).")
   else
     setStatus ("WARNING: No output for '" +:+ cmd c +:+ "'.")) ;;
  sleep 1000.

(** The body of [for (const { cmd, file, timeout } of commands)]. *)
Definition runCliCommand (c : CliCommand) : Js unit :=
  checkAbort ;;
  stillConnected <- isConnected ;;
  match stillConnected with
  | Some false =>
      setStatus "WARNING: Connection lost during CLI extraction." ;;
      throw "Connection lost during CLI extraction – backup aborted."
  | _ =>
      cliClear ;;
      sleep 500 ;;
      setStatus ("CLI: " +:+ cmd c +:+ "...") ;;
      sent <- cliSend (cmd c) ;;
      if negb sent then
        setStatus ("WARNING: Could not send '" +:+ cmd c +:+ "' – skipping.")
      else
        setStatus ("Waiting for '" +:+ cmd c +:+ "' response...") ;;
        cliWaitForStableOutput (timeout c) ;;
        connAfter <- isConnected ;;
        match connAfter with
        | Some false =>
            setStatus "WARNING: Connection lost while waiting for CLI output." ;;
            throw "Connection lost during CLI extraction – backup aborted."
        | _ =>
            output <- cliRead ;;
            storeCliOutput c output
        end
  end.

Fixpoint forEachCommand (commands : list CliCommand) : Js unit :=
  match commands with
  | [] => ret tt
  | c :: rest => runCliCommand c ;; forEachCommand rest
  end.

Definition handleCliTab : Js unit :=
  setStatus "Extracting CLI configuration..." ;;
  sleep 3000 ;;
  connected <- isConnected ;;
  match connected with
  | Some false => throw "Connection lost before CLI extraction – backup aborted."
  | _ =>
      cliDiagnostics ;;
      forEachCommand cliCommands
  end.

(** ** Orchestration ([startBackupProcess], content.js 361-461) *)

(** The body of [for (const tab of filteredTabs)] below the connection
    check (content.js 425-451), with the running [idx]; the result is the
    next [idx] ([continue] leaves it as it is). *)
Definition dispatchTab (fuel : nat) (options : Options) (totalTabs : nat)
           (idx : nat) (tab : Tab) : Js nat :=
  setProgress idx totalTabs ;;
  let englishName := englishNameOf (cls tab) in
  let folder := pad2 idx +:+ "_" +:+ englishName in
  let prefix := pad2 idx in
  setStatus ("Tab " +:+ showNat idx +:+ "/" +:+ showNat totalTabs +:+ ": " +:+ label tab) ;;
  let linkSel := "li." +:+ cls tab +:+ " > a.tabicon" in
  link <- querySelector linkSel ;;
  match link with
  | None => ret idx
  | Some _ =>
      click linkSel ;;
      sleep 3500 ;;
      (if String.eqb (cls tab) "tab_cli" then handleCliTab
       else if String.eqb (cls tab) "tab_pid_tuning" then
         if profiles options then handlePidTuningTab fuel folder prefix
         else captureTabWithSubTabs fuel folder prefix englishName (label tab)
       else captureTabWithSubTabs fuel folder prefix englishName (label tab)) ;;
      ret (S idx)
  end.

(** The whole loop body: cancellation point, connection check
    (content.js 417-423), then the visit. *)
Definition visitTab (fuel : nat) (options : Options) (totalTabs : nat)
           (idx : nat) (tab : Tab) : Js nat :=
  checkAbort ;;
  connected <- isConnected ;;
  match connected with
  | Some false => throw "Connection lost – backup aborted."
  | _ => dispatchTab fuel options totalTabs idx tab
  end.

Fixpoint visitTabs (fuel : nat) (options : Options) (totalTabs : nat)
         (idx : nat) (tabs : list Tab) : Js unit :=
  match tabs with
  | [] => ret tt
  | tab :: rest =>
      idx' <- visitTab fuel options totalTabs idx tab ;;
      visitTabs fuel options totalTabs idx' rest
  end.

(** The selector of the expert-mode checkbox (content.js 367). *)
Definition expertSelector : string :=
  "input[name=" +:+ dq +:+ "expertModeCheckbox" +:+ dq +:+ "]".

(** What is clicked to enable expert mode (content.js 370-371): the label
    around the checkbox, failing that its parent element, failing both the
    checkbox itself. *)
Definition expertClickTarget (wrapper : ExpertWrapper) : string :=
  match wrapper with
  | ClosestLabel => "label:has(" +:+ expertSelector +:+ ")"
  | ParentElement => ":has(> " +:+ expertSelector +:+ ")"
  | NoWrapper => expertSelector
  end.

Definition startBackupProcess (fuel : nat) (options : Options) : Js unit :=
  setStatus "Starting backup..." ;;
  startKeepalive ;;
  tryFinally
    (expertCb <- gets (fun w => expertCheckbox (env w) (clock w)) ;;
     match expertCb with
     | Some false =>
         setStatus "Enabling Expert Mode..." ;;
         wrapper <- gets (fun w => expertWrapper (env w) (clock w)) ;;
         click (expertClickTarget wrapper) ;;
         sleep 1500
     | _ => ret tt
     end ;;
     tabEls <- discoverTabs 10 ;;
     match tabEls with
     | [] => throw "Navigation not found – is the drone connected?"
     | _ =>
         let tabs := map tabOfElement tabEls in
         let filteredTabs := filterTabs options tabs in
         let totalTabs := length filteredTabs in
         setProgress 0 totalTabs ;;
         visitTabs fuel options totalTabs 1 filteredTabs ;;
         setProgress totalTabs totalTabs ;;
         setStatus "Building ZIP..." ;;
         sendMessage ExtractionComplete
     end)
    stopKeepalive.

(** ** The message listener (content.js 16-45) *)

Inductive Request :=
| RunExtraction (options : option Options)
| AbortBackup
| OtherRequest.

Definition defaultOptions : Options :=
  {| screenshots := true; cli := true; profiles := true; selectedTabs := None |}.

(** The synchronous part of the listener.  For a fresh [runExtraction] it
    also yields the options with which the asynchronous run is launched;
    in every other case no run is launched. *)
Definition onMessage (request : Request) (w : World) : World * option Options :=
  match request with
  | RunExtraction opts =>
      if backupRunning w then (w, None)
      else
        (setAbortRequested false (setBackupRunning true w),
         Some (match opts with Some o => o | None => defaultOptions end))
  | AbortBackup => (setAbortRequested true w, None)
  | OtherRequest => (w, None)
  end.

(** The asynchronous run launched by the listener: errors are reported,
    and both flags are cleared whatever happens. *)
Definition runExtractionTask (fuel : nat) (options : Options) : Js unit :=
  tryFinally
    (tryCatch (startBackupProcess fuel options)
              (fun e => sendMessage (ExtractionError ("Error: " +:+ e))))
    (modify (fun w => setAbortRequested false (setBackupRunning false w))).

(** The content script as a reactive system: messages arrive, and a
    launched run eventually finishes.  [inFlight] counts the runs that
    were launched and have not finished. *)
Record ContentState := {
  cs_world   : World;
  cs_inFlight : nat
}.

Inductive ContentEvent :=
| Receive (request : Request)
| RunFinished.

Definition contentStep (ev : ContentEvent) (st : ContentState) : ContentState :=
  match ev with
  | Receive request =>
      let '(w', launched) := onMessage request (cs_world st) in
      {| cs_world := w';
         cs_inFlight := match launched with
                        | Some _ => S (cs_inFlight st)
                        | None => cs_inFlight st
                        end |}
  | RunFinished =>
      match cs_inFlight st with
      | O => st
      | S n =>
          {| cs_world := setAbortRequested false (setBackupRunning false (cs_world st));
             cs_inFlight := n |}
      end
  end.

Definition contentRun (evs : list ContentEvent) (st : ContentState) : ContentState :=
  fold_left (fun s ev => contentStep ev s) evs st.

(** ** The scroll container ([getScrollableContainer], content.js 315-329) *)

(** An element as [getScrollableContainer] looks at it. *)
Record ScrollBox := {
  box_overflowY    : string;
  box_scrollHeight : Z;
  box_clientHeight : Z
}.

(** The callback of [filter]. *)
Definition scrolls (el : ScrollBox) : bool :=
  (String.eqb (box_overflowY el) "auto" || String.eqb (box_overflowY el) "scroll")
  && (box_clientHeight el <? box_scrollHeight el)
  && (200 <? box_clientHeight el).

(** [sort((a, b) => b.scrollHeight - a.scrollHeight)]: descending, and
    stable as [Array.prototype.sort] is. *)
Fixpoint insertByHeight (x : ScrollBox) (sorted : list ScrollBox) : list ScrollBox :=
  match sorted with
  | [] => [x]
  | y :: rest =>
      if box_scrollHeight y <=? box_scrollHeight x then x :: y :: rest
      else y :: insertByHeight x rest
  end.

Definition sortByHeight (els : list ScrollBox) : list ScrollBox :=
  fold_right insertByHeight [] els.

(** [content] is the element [#content], if there is one; [boxes] are the
    [div], [main] and [section] elements in document order. *)
Definition getScrollableContainer (content : option ScrollBox) (boxes : list ScrollBox)
           (documentElement : ScrollBox) : ScrollBox :=
  let fallback :=
    let candidates := sortByHeight (List.filter scrolls boxes) in
    match candidates with
    | first :: _ => first
    | [] => documentElement
    end in
  match content with
  | Some c => if box_clientHeight c + 10 <? box_scrollHeight c then c else fallback
  | None => fallback
  end.

(* ===================================================================== *)
(** * Part V. The service worker (background.js)                      *)
(* ===================================================================== *)

Module Background.

(** An entry of the in-memory archive, keyed by its full path as JSZip
    keeps it: a folder, or a file with its data and the [base64] flag. *)
Inductive ZipEntry :=
| Dir
| File (data : option string) (base64 : bool).

Record Status := {
  st_action  : string;
  st_message : string;
  st_progress : option ProgressState
}.

Record State := {
  isRunning      : bool;
  backupZip      : option (gmap string ZipEntry);
  rootFolderName : string;
  activeTabId    : option Z;
  badge          : string;
  (** [chrome.storage.session] entry [backupStatus] *)
  backupStatus   : option Status;
  (** status messages relayed to the popup, newest first *)
  relayed        : list Status;
  (** messages sent to the content script of a tab, newest first *)
  tabOutbox      : list (Z * Request);
  (** notifications created, newest first *)
  notifications  : list string;
  (** archives whose packaging ([generateAsync], then the download) has
      begun and whose callbacks have not run yet *)
  packagings     : nat
}.

Definition withRunning (b : bool) (s : State) : State :=
  {| isRunning := b; backupZip := backupZip s; rootFolderName := rootFolderName s;
     activeTabId := activeTabId s; badge := badge s; backupStatus := backupStatus s;
     relayed := relayed s; tabOutbox := tabOutbox s; notifications := notifications s;
     packagings := packagings s |}.

Definition withZip (z : option (gmap string ZipEntry)) (s : State) : State :=
  {| isRunning := isRunning s; backupZip := z; rootFolderName := rootFolderName s;
     activeTabId := activeTabId s; badge := badge s; backupStatus := backupStatus s;
     relayed := relayed s; tabOutbox := tabOutbox s; notifications := notifications s;
     packagings := packagings s |}.

Definition withRoot (r : string) (s : State) : State :=
  {| isRunning := isRunning s; backupZip := backupZip s; rootFolderName := r;
     activeTabId := activeTabId s; badge := badge s; backupStatus := backupStatus s;
     relayed := relayed s; tabOutbox := tabOutbox s; notifications := notifications s;
     packagings := packagings s |}.

Definition withActiveTab (t : option Z) (s : State) : State :=
  {| isRunning := isRunning s; backupZip := backupZip s; rootFolderName := rootFolderName s;
     activeTabId := t; badge := badge s; backupStatus := backupStatus s;
     relayed := relayed s; tabOutbox := tabOutbox s; notifications := notifications s;
     packagings := packagings s |}.

Definition setBadge (text : string) (s : State) : State :=
  {| isRunning := isRunning s; backupZip := backupZip s; rootFolderName := rootFolderName s;
     activeTabId := activeTabId s; badge := text; backupStatus := backupStatus s;
     relayed := relayed s; tabOutbox := tabOutbox s; notifications := notifications s;
     packagings := packagings s |}.

Definition withStatus (st : option Status) (s : State) : State :=
  {| isRunning := isRunning s; backupZip := backupZip s; rootFolderName := rootFolderName s;
     activeTabId := activeTabId s; badge := badge s; backupStatus := st;
     relayed := relayed s; tabOutbox := tabOutbox s; notifications := notifications s;
     packagings := packagings s |}.

Definition relay (st : Status) (s : State) : State :=
  {| isRunning := isRunning s; backupZip := backupZip s; rootFolderName := rootFolderName s;
     activeTabId := activeTabId s; badge := badge s; backupStatus := backupStatus s;
     relayed := st :: relayed s; tabOutbox := tabOutbox s; notifications := notifications s;
     packagings := packagings s |}.

Definition sendToTab (tabId : Z) (m : Request) (s : State) : State :=
  {| isRunning := isRunning s; backupZip := backupZip s; rootFolderName := rootFolderName s;
     activeTabId := activeTabId s; badge := badge s; backupStatus := backupStatus s;
     relayed := relayed s; tabOutbox := (tabId, m) :: tabOutbox s;
     notifications := notifications s;
     packagings := packagings s |}.

Definition notify (title : string) (s : State) : State :=
  {| isRunning := isRunning s; backupZip := backupZip s; rootFolderName := rootFolderName s;
     activeTabId := activeTabId s; badge := badge s; backupStatus := backupStatus s;
     relayed := relayed s; tabOutbox := tabOutbox s;
     notifications := title :: notifications s;
     packagings := packagings s |}.

(** [updateStatus] (background.js 34-40) *)
Definition updateStatus (action message : string) (progress : option ProgressState)
           (s : State) : State :=
  let st := {| st_action := action; st_message := message; st_progress := progress |} in
  relay st (withStatus (Some st) s).

(** How the target tab answers [sendOrInject]. *)
Inductive TabReach := Responds | NeedsInjection | Unreachable.

(** How the packaging of an archive ends: the download callback runs
    with or without an error, or [generateAsync] rejects. *)
Inductive Packaging :=
| Packaged
| DownloadFailed (message : string)
| ZipFailed (message : string).

Definition withPackagings (n : nat) (s : State) : State :=
  {| isRunning := isRunning s; backupZip := backupZip s; rootFolderName := rootFolderName s;
     activeTabId := activeTabId s; badge := badge s; backupStatus := backupStatus s;
     relayed := relayed s; tabOutbox := tabOutbox s; notifications := notifications s;
     packagings := n |}.

(** What the browser contributes to a step of the service worker. *)
Record Browser := {
  reach          : TabReach;
  (** the current date, formatted as [YYYY-MM-DD_HH-MM] *)
  timestamp      : string;
  (** the active tab of the current window: its id and URL *)
  activeTab      : option (Z * string);
  (** [chrome.storage.local]: [backupOptions] and [tabSelections] *)
  storedOptions  : option Options;
  tabSelections  : option (list (string * bool))
}.

(** [sendOrInject] (background.js 130-156) *)
Definition sendOrInject (b : Browser) (tabId : Z) (m : Request) (s : State) : State :=
  match reach b with
  | Responds => sendToTab tabId m s
  | NeedsInjection =>
      sendToTab tabId m (updateStatus "backupStatusUpdate" "Preparing backup..." None s)
  | Unreachable =>
      updateStatus "backupError"
        "Could not start backup. Please RELOAD the Betaflight tab (F5) and try again."
        None
        (setBadge "!"
           (withRunning false
              (updateStatus "backupStatusUpdate" "Preparing backup..." None s)))
  end.

(** [handleStartBackup] (background.js 97-126) *)
Definition handleStartBackup (b : Browser) (tabId : Z) (options : Options) (s : State)
  : State :=
  if isRunning s then
    updateStatus "backupError" "Backup is already running." None s
  else
    let s := withRunning true s in
    let s := withStatus None s in
    let root := "Betaflight_Backup_" +:+ timestamp b in
    let s := withZip (Some (<[root +:+ "/" := Dir]> ∅)) s in
    let s := withRoot root s in
    let s := setBadge "..." s in
    let s := updateStatus "backupStatusUpdate" "Starting backup..." None s in
    let s := withActiveTab (Some tabId) s in
    sendOrInject b tabId (RunExtraction (Some options)) s.

(** The keyboard shortcut (background.js 74-91). *)
Definition onCommand (b : Browser) (command : string) (s : State) : State :=
  if negb (String.eqb command "start-backup") then s
  else if isRunning s then s
  else
    match activeTab b with
    | Some (tabId, url) =>
        if includes url "app.betaflight.com" then
          let options := match storedOptions b with
                         | Some o => o
                         | None => defaultOptions
                         end in
          let options :=
            match tabSelections b with
            | Some selections =>
                {| screenshots := screenshots options; cli := cli options;
                   profiles := profiles options;
                   selectedTabs := Some (map fst (List.filter snd selections)) |}
            | None => options
            end in
          handleStartBackup b tabId options s
        else s
    | None => s
    end.

Inductive BgRequest :=
| BgKeepalive
| BgStopBackup
| BgStartBackup (tabId : Z) (options : option Options)
| BgSetStatus (message : string) (progress : option ProgressState)
| BgSaveFile (folderName fileName content : string) (isBase64 : bool)
| BgExtractionComplete
| BgExtractionError (message : string).

Inductive BgResponse :=
| Alive
| SaveResult (success : bool) (error : option string)
| NoResponse.

(** [request.content.split(',')[1]] *)
Definition base64Payload (content : string) : option string :=
  nth_error (splitOn "," content) 1.

Definition truthyTab (t : option Z) : bool :=
  match t with
  | Some id => negb (id =? 0)
  | None => false
  end.

(** Where a file ends up in the archive, and as what.  JSZip's
    [folder(name)] is the folder itself when [name] is empty. *)
Definition folderPath (root folderName : string) : string :=
  if String.eqb folderName EmptyString then root +:+ "/"
  else (root +:+ "/") +:+ folderName +:+ "/".

Definition filePath (root folderName fileName : string) : string :=
  folderPath root folderName +:+ fileName.

Definition entryOf (content : string) (isBase64 : bool) : ZipEntry :=
  if isBase64 then File (base64Payload content) true else File (Some content) false.

(** The [saveFile] branch of the listener (background.js 223-238). *)
Definition saveFile (folderName fileName content : string) (isBase64 : bool)
           (s : State) : State * BgResponse :=
  match backupZip s with
  | None => (s, SaveResult false (Some "No active backup"))
  | Some zip =>
      let rootPath := rootFolderName s +:+ "/" in
      let folder := folderPath (rootFolderName s) folderName in
      let zip := <[folder := Dir]> (<[rootPath := Dir]> zip) in
      let entry := if isBase64 then File (base64Payload content) true
                   else File (Some content) false in
      (withZip (Some (<[folder +:+ fileName := entry]> zip)) s,
       SaveResult true None)
  end.

(** The [stopBackup] branch (background.js 171-181). *)
Definition stopBackup (s : State) : State :=
  if isRunning s && truthyTab (activeTabId s) then
    let tab := match activeTabId s with Some t => t | None => 0 end in
    let s := sendToTab tab AbortBackup s in
    let s := withRunning false s in
    let s := withZip None s in
    let s := setBadge "!" s in
    updateStatus "backupError" "Backup stopped by user." None s
  else s.

(** The [extractionComplete] branch (background.js 379-432), as far as the
    listener itself goes: without an archive it reports an error; with one
    it starts the packaging and returns.  The worker stays as it is, still
    running and with its archive, until a callback of the packaging
    runs. *)
Definition extractionComplete (s : State) : State :=
  match backupZip s with
  | None =>
      updateStatus "backupError" "Internal error: ZIP object lost. Please try again." None
        (setBadge "!" (withRunning false s))
  | Some _ =>
      let s := setBadge "ZIP" s in
      let s := updateStatus "backupStatusUpdate" "Generating ZIP file..." None s in
      withPackagings (S (packagings s)) s
  end.

(** The callbacks of a packaging (background.js 391-431): the download
    callback, or the [catch] of [generateAsync].  They act on the worker
    as it is when they run, whatever has happened since the packaging
    began; without a packaging under way there is no callback to run. *)
Definition packagingEnds (outcome : Packaging) (s : State) : State :=
  match packagings s with
  | O => s
  | S n =>
      let s := withPackagings n s in
      match outcome with
      | Packaged =>
          let s := withRunning false s in
          let s := withZip None s in
          let s := setBadge "OK" s in
          let s := updateStatus "backupComplete" "Backup completed!" None s in
          notify "Betaflight Backup Complete" s
      | DownloadFailed message =>
          let s := withRunning false s in
          let s := withZip None s in
          let s := setBadge "!" s in
          updateStatus "backupError" ("Download failed: " +:+ message) None s
      | ZipFailed message =>
          let s := withRunning false s in
          let s := setBadge "!" s in
          updateStatus "backupError" ("Failed to build ZIP: " +:+ message) None s
      end
  end.

(** The message listener of the service worker.  The capture, dropdown
    and CLI bridges only relay to browser primitives and leave the state
    alone; their answers are part of the content script's environment. *)
Definition onMessage (b : Browser) (request : BgRequest) (s : State)
  : State * BgResponse :=
  match request with
  | BgKeepalive => (s, Alive)
  | BgStopBackup => (stopBackup s, NoResponse)
  | BgStartBackup tabId options =>
      (handleStartBackup b tabId
         (match options with Some o => o | None => defaultOptions end) s,
       NoResponse)
  | BgSetStatus message progress =>
      let s := match progress with
               | Some p => setBadge (showNat (current p)) s
               | None => s
               end in
      (updateStatus "backupStatusUpdate" message progress s, NoResponse)
  | BgSaveFile folderName fileName content isBase64 =>
      saveFile folderName fileName content isBase64 s
  | BgExtractionComplete => (extractionComplete s, NoResponse)
  | BgExtractionError message =>
      let s := withRunning false s in
      let s := setBadge "!" s in
      let s := updateStatus "backupError" message None s in
      (notify "Betaflight Backup Failed" s, NoResponse)
  end.

(** ** The worker as a reactive system *)




(** ** Messages of the content script, as the worker's listener reads them

    The capture, dropdown and CLI requests are answered by browser
    primitives and do not touch the worker's state. *)
Definition ofMessage (m : Message) : option BgRequest :=
  match m with
  | Keepalive => Some BgKeepalive
  | SetStatus message progress => Some (BgSetStatus message (Some progress))
  | SaveFile folderName fileName content isBase64 =>
      Some (BgSaveFile folderName fileName content isBase64)
  | ExtractionComplete => Some BgExtractionComplete
  | ExtractionError message => Some (BgExtractionError message)
  | CaptureTab | SetSelectValue _ _ | CliExecute _ => None
  end.

Definition deliver (b : Browser) (s : State) (m : Message) : State :=
  match ofMessage m with
  | Some request => fst (onMessage b request s)
  | None => s
  end.

(** The messages in the order in which they were sent. *)
Definition deliverAll (b : Browser) (ms : list Message) (s : State) : State :=
  fold_left (deliver b) ms s.

(** ** The capture bridge ([captureTab] branch, background.js 190-210)

    The answer to a capture request races against a ten-second timer;
    [responded] makes sure that only the first of the two is answered. *)

Inductive CaptureResponse :=
| CaptureError (message : string)
| CaptureData (dataUrl : option string).

Record CaptureCall := {
  responded    : bool;
  (** the timer was set and neither fired nor was cleared *)
  timerPending : bool;
  (** what was passed to [sendResponse], newest first *)
  responses    : list CaptureResponse
}.

(** The state right after the handler has returned [true]. *)
Definition captureTabStart : CaptureCall :=
  {| responded := false; timerPending := true; responses := [] |}.

Inductive CaptureEvent :=
| TimerFires
(** the callback of [captureVisibleTab], with [chrome.runtime.lastError]
    and the data URL *)
| CaptureReturns (lastError : option string) (dataUrl : option string).

Definition captureTabStep (ev : CaptureEvent) (c : CaptureCall) : CaptureCall :=
  match ev with
  | TimerFires =>
      if timerPending c then
        if responded c then
          {| responded := true; timerPending := false; responses := responses c |}
        else
          {| responded := true; timerPending := false;
             responses := CaptureError "captureVisibleTab timed out after 10s"
                          :: responses c |}
      else c
  | CaptureReturns lastError dataUrl =>
      if responded c then c
      else
        {| responded := true; timerPending := false;
           responses := match lastError with
                        | Some message => CaptureError message
                        | None => CaptureData dataUrl
                        end :: responses c |}
  end.

Definition captureTabRun (evs : list CaptureEvent) (c : CaptureCall) : CaptureCall :=
  fold_left (fun c ev => captureTabStep ev c) evs c.

(** What the first event makes the handler answer. *)
Definition firstAnswer (ev : CaptureEvent) : CaptureResponse :=
  match ev with
  | TimerFires => CaptureError "captureVisibleTab timed out after 10s"
  | CaptureReturns (Some message) _ => CaptureError message
  | CaptureReturns None dataUrl => CaptureData dataUrl
  end.

(** The response as the content script's callback receives it. *)
Definition replyOf (r : CaptureResponse) : CaptureReply :=
  match r with
  | CaptureError message =>
      {| cap_lastError := false; cap_res := Some (Some message, None) |}
  | CaptureData dataUrl =>
      {| cap_lastError := false; cap_res := Some (None, dataUrl) |}
  end.

(** ** Reading the terminal ([cliExecute], operation [read],
       background.js 336-356) *)

(** [line.trim() === ''] *)
Definition isBlank (line : string) : bool :=
  match trim line with
  | EmptyString => true
  | String _ _ => false
  end.

(** [while (lines.length > 0 && lines[lines.length - 1].trim() === '')
    lines.pop()], on the lines from the last one backwards. *)
Fixpoint popWhileBlank (reversed : list string) : list string :=
  match reversed with
  | [] => []
  | last :: before => if isBlank last then popWhileBlank before else reversed
  end.

Definition popBlankLines (lines : list string) : list string :=
  rev (popWhileBlank (rev lines)).

Definition lineFeed : string := String (ascii_of_nat 10) EmptyString.

(** The function injected into the page: [buffer] is the terminal's active
    buffer, if the terminal was found and has one; a line that the buffer
    does not return is skipped. *)
Definition readTerminal (buffer : option (list (option string))) : string :=
  match buffer with
  | None => EmptyString
  | Some rows => String.concat lineFeed (popBlankLines (omap id rows))
  end.

End Background.

(* ===================================================================== *)
(** * Part VI. The popup (popup.js)                                   *)
(* ===================================================================== *)

Module Popup.

(** ** The panel grid (popup.js 22-40, 70-97) *)

Record KnownTab := { kt_cls : string; kt_label : string; kt_on : bool }.

Definition KNOWN_TABS : list KnownTab :=
  [ {| kt_cls := "tab_setup";         kt_label := "Setup";    kt_on := true |};
    {| kt_cls := "tab_ports";         kt_label := "Ports";    kt_on := true |};
    {| kt_cls := "tab_configuration"; kt_label := "Config";   kt_on := true |};
    {| kt_cls := "tab_power";         kt_label := "Power";    kt_on := true |};
    {| kt_cls := "tab_failsafe";      kt_label := "Failsafe"; kt_on := true |};
    {| kt_cls := "tab_pid_tuning";    kt_label := "PID";      kt_on := true |};
    {| kt_cls := "tab_receiver";      kt_label := "Receiver"; kt_on := true |};
    {| kt_cls := "tab_modes";         kt_label := "Modes";    kt_on := true |};
    {| kt_cls := "tab_adjustments";   kt_label := "Adjust";   kt_on := false |};
    {| kt_cls := "tab_servos";        kt_label := "Servos";   kt_on := false |};
    {| kt_cls := "tab_motors";        kt_label := "Motors";   kt_on := true |};
    {| kt_cls := "tab_osd";           kt_label := "OSD";      kt_on := true |};
    {| kt_cls := "tab_vtx";           kt_label := "VTX";      kt_on := false |};
    {| kt_cls := "tab_led_strip";     kt_label := "LEDs";     kt_on := false |};
    {| kt_cls := "tab_sensors";       kt_label := "Sensors";  kt_on := false |};
    {| kt_cls := "tab_gps";           kt_label := "GPS";      kt_on := false |};
    {| kt_cls := "tab_logging";       kt_label := "Blackbox"; kt_on := true |} ].

(** A JavaScript object with boolean members, its keys in insertion
    order. *)
Definition Selections := list (string * bool).

(** [obj[k]] *)
Definition member (k : string) (obj : Selections) : option bool :=
  snd <$> List.find (fun kv => String.eqb (fst kv) k) obj.

(** [obj[k] = v] *)
Fixpoint assign (k : string) (v : bool) (obj : Selections) : Selections :=
  match obj with
  | [] => [(k, v)]
  | (k', v') :: rest =>
      if String.eqb k' k then (k', v) :: rest else (k', v') :: assign k v rest
  end.

(** The checkboxes of the grid, in document order: the [data-tab]
    attribute and whether the box is checked. *)
Definition Grid := list (string * bool).

(** [buildTabGrid(savedSelections)] *)
Definition buildTabGrid (savedSelections : option Selections) : Grid :=
  map (fun tab =>
         let isChecked :=
           match savedSelections with
           | Some saved =>
               match member (kt_cls tab) saved with
               | Some v => v
               | None => kt_on tab
               end
           | None => kt_on tab
           end in
         (kt_cls tab, isChecked))
      KNOWN_TABS.

(** [getSelectedTabClasses] *)
Definition getSelectedTabClasses (grid : Grid) : list string :=
  map fst (List.filter snd grid).

(** The text that [updateTabCount] shows. *)
Definition tabCount (grid : Grid) : string :=
  showNat (length (List.filter snd grid)) +:+ "/" +:+ showNat (length grid).

(** ** The option boxes and their persistence (popup.js 100-134) *)

Record State := {
  optScreenshots : bool;
  optCli         : bool;
  optProfiles    : bool;
  tabGrid        : Grid
}.

(** What [saveOptions] stores under [backupOptions]. *)
Definition saveOptions (p : State) : Options :=
  {| screenshots := optScreenshots p; cli := optCli p; profiles := optProfiles p;
     selectedTabs := None |}.

(** What [saveTabSelections] stores under [tabSelections]. *)
Definition saveTabSelections (grid : Grid) : Selections :=
  fold_left (fun selections c => assign (fst c) (snd c) selections) grid [].

(** [getOptions] *)
Definition getOptions (p : State) : Options :=
  {| screenshots := optScreenshots p; cli := optCli p; profiles := optProfiles p;
     selectedTabs := Some (getSelectedTabClasses (tabGrid p)) |}.

(** The popup when it opens: the option boxes as the page declares them,
    overwritten by what was stored, and the grid built from the stored
    selections (popup.js 100-109). *)
Definition openPopup (declared : State) (backupOptions : option Options)
           (tabSelections : option Selections) : State :=
  let p := match backupOptions with
           | Some o =>
               {| optScreenshots := screenshots o; optCli := cli o;
                  optProfiles := profiles o; tabGrid := tabGrid declared |}
           | None => declared
           end in
  {| optScreenshots := optScreenshots p; optCli := optCli p; optProfiles := optProfiles p;
     tabGrid := buildTabGrid tabSelections |}.

(** ** The start button (popup.js 188-209) *)

Inductive Outcome :=
| ShowError (message : string)
| StartBackup (tabId : Z) (options : Options).

Definition startClick (activeTab : option (Z * string)) (p : State) : Outcome :=
  match activeTab with
  | Some (tabId, url) =>
      if negb (includes url "app.betaflight.com")
      then ShowError "Open the Betaflight Configurator first!"
      else
        let options := getOptions p in
        if negb (screenshots options) && negb (cli options)
        then ShowError "Select at least one backup option!"
        else if screenshots options
                && (length (getSelectedTabClasses (tabGrid p)) =? 0)%nat
        then ShowError "Select at least one tab to screenshot!"
        else StartBackup tabId options
  | None => ShowError "Open the Betaflight Configurator first!"
  end.

End Popup.

(* ===================================================================== *)
(** * Part VII. The vocabulary of the properties                      *)
(* ===================================================================== *)

(** ** Panel selection *)



(** ** Progress reports *)





(** ** Runs of a script *)

(** No stop request is pending and none will arrive. *)
Definition quiet (w : World) : Prop :=
  abortRequested w = false /\ abortAt (env w) = None.

(** [extends ok w w']: [w'] is reachable from [w] by steps that keep the
    environment and the run flag, never move the clock backwards, raise the
    stop flag only when a stop request arrives, and send only messages
    that satisfy [ok]. *)
Definition extends (ok : Message -> Prop) (w w' : World) : Prop :=
  env w' = env w
  /\ clock w <= clock w'
  /\ (abortAt (env w) = None -> abortRequested w' = abortRequested w)
  /\ backupRunning w' = backupRunning w
  /\ exists new, outbox w' = new ++ outbox w /\ Forall ok new.

Definition emits {A} (ok : Message -> Prop) (m : Js A) : Prop :=
  forall w, extends ok w (snd (m w)).

(** The run flag and the number of runs in flight agree. *)
Definition consistent (st : ContentState) : Prop :=
  cs_inFlight st = if backupRunning (cs_world st) then 1%nat else 0%nat.

(** ** The capture service *)

(** The capture primitive fails (or times out) at instant [t]. *)
Definition captureFails (e : Env) (t : Z) : Prop :=
  truthy (captureResult (captureReply e t)) = false.

(** ** The quiescence wait *)

(** Length of the terminal output at the [k]-th poll of a wait that
    started at [start]: polls are one second apart. *)
Definition pollLength (e : Env) (start : Z) (k : nat) : nat :=
  String.length (terminalText e (start + 1000 * Z.of_nat k)).

(** Poll [g] shows growth: its output is non-empty and longer than the
    output of every poll before it. *)
Definition growthPoll (L : nat -> nat) (g : nat) : Prop :=
  (1 <= g)%nat /\ (0 < L g)%nat /\ (forall i, (1 <= i < g)%nat -> (L i < L g)%nat).

(** Poll [k] is the second quiet poll since the growth at [g], the first
    being [j]: no poll after [g] up to [k] is longer than poll [g], polls
    [j] and [k] read something, and every other poll in between reads
    nothing. *)
Definition secondQuietPoll (L : nat -> nat) (g j k : nat) : Prop :=
  growthPoll L g
  /\ (g < j < k)%nat
  /\ (0 < L j)%nat /\ (0 < L k)%nat
  /\ (forall i, (g < i <= k)%nat -> (L i <= L g)%nat)
  /\ (forall i, (g < i < k)%nat -> i <> j -> L i = O).

(** What the counters of the loop hold after [k] polls: [lastLen] is the
    length seen at the last poll [g] that showed growth (0 if there was
    none) and no poll was longer; [stable] is the number of polls since
    then that read something, one at most. *)
Definition countersMean (L : nat -> nat) (k lastLen stable : nat) : Prop :=
  (forall i, (1 <= i <= k)%nat -> (L i <= lastLen)%nat)
  /\ exists g, (g <= k)%nat
               /\ (g = O -> lastLen = O)
               /\ (g <> O -> growthPoll L g /\ lastLen = L g)
               /\ ((stable = O /\ forall i, (g < i <= k)%nat -> L i = O)
                   \/ (stable = 1%nat
                       /\ exists j, (g < j <= k)%nat /\ (0 < L j)%nat
                                    /\ forall i, (g < i <= k)%nat -> i <> j -> L i = O)).

(** Where the counters of the loop stand after [i] polls on the way to
    the second quiet poll [k]: before the growth at [g] the output seen so
    far is shorter than at [g]; from [g] on [lastLen] is the length at [g],
    and [stable] turns to one at [j]. *)
Definition onTheWay (L : nat -> nat) (g j i lastLen stable : nat) : Prop :=
  ((i < g)%nat /\ (lastLen < L g)%nat)
  \/ ((g <= i < j)%nat /\ lastLen = L g /\ stable = O)
  \/ ((j <= i)%nat /\ lastLen = L g /\ stable = 1%nat).

(** ** The CLI dump and the restore *)

(** What the CLI unit may send: anything but a file that is not a CLI dump
    of more than ten characters. *)
Definition cliMessageOk (m : Message) : Prop :=
  match m with
  | SaveFile folderName _ content isBase64 =>
      folderName = "CLI" /\ isBase64 = false /\ (10 < String.length content)%nat
  | _ => True
  end.

(** The message is not the status that announces the restore. *)
Definition restoreNotAnnounced (m : Message) : bool :=
  match m with
  | SetStatus msg _ => negb (String.eqb msg "Restoring original profiles...")
  | _ => true
  end.

(** ** The conduct of a run *)

(** What a run may send before its verdict: no verdict, and to the flight
    controller only the commands of the fixed list. *)
Definition inRunMessage (m : Message) : Prop :=
  match m with
  | ExtractionComplete | ExtractionError _ => False
  | CliExecute (OpSend command) => In command (map cmd cliCommands)
  | _ => True
  end.

(** What a run may send at all: to the flight controller only the commands
    of the fixed list. *)
Definition runMessage (m : Message) : Prop :=
  match m with
  | CliExecute (OpSend command) => In command (map cmd cliCommands)
  | _ => True
  end.

(** The selectors under which [cliClear] looks for a clear button. *)
Definition clearSelectors : list string :=
  ["#content a.clear"; "#content button.clear"; "#content a, #content button"].

(** What a run may click: the label around the expert-mode checkbox (or
    its parent element, or the checkbox itself), the navigation link of
    a panel whose class contains no blacklisted name, a sub-tab found by
    one of the known selectors, a clear button of the CLI panel. *)
Definition allowedClick (target : string) : Prop :=
  (exists wrapper, target = expertClickTarget wrapper)
  \/ (exists c, target = "li." +:+ c +:+ " > a.tabicon"
                /\ existsb (fun b => includes c b) BLACKLIST = false)
  \/ (exists sel i, In sel SUB_TAB_SELECTORS /\ target = subTabTarget sel i)
  \/ In target clearSelectors.

(** [steady fuel e]: the geometry of the scroll container does not change,
    and [fuel] windows cover the page. *)
Definition steady (fuel : nat) (e : Env) : Prop :=
  exists sh ch,
    (forall t, scrollGeometry e t = (sh, ch))
    /\ 0 < ch /\ sh <= ch * Z.of_nat fuel /\ (1 <= fuel)%nat.

(** The script came to an end: it returned or threw. *)
Definition ended {A} (r : Outcome A) : Prop :=
  match r with
  | OutOfFuel => False
  | _ => True
  end.

(** [trail okM okC w w']: from [w] to [w'] the environment is the same,
    and the messages sent and the clicks made in between satisfy [okM] and
    [okC]. *)
Definition trail (okM : Message -> Prop) (okC : string -> Prop) (w w' : World) : Prop :=
  env w' = env w
  /\ (exists new, outbox w' = new ++ outbox w /\ Forall okM new)
  /\ (exists new, clicked (page w') = new ++ clicked (page w) /\ Forall okC new).

(** [conduct okM okC fuel m]: whatever the outcome of [m], it sends only
    messages in [okM] and clicks only targets in [okC]; and on a steady
    page it comes to an end. *)
Definition conduct (okM : Message -> Prop) (okC : string -> Prop) (fuel : nat)
           {A} (m : Js A) : Prop :=
  forall w,
    trail okM okC w (snd (m w))
    /\ (steady fuel (env w) -> ended (fst (m w))).

(** [reports m]: a run of [m] that returns has sent the completion signal
    last, after messages of the run itself; a run that throws has sent only
    messages of the run. *)
Definition reports (m : Js unit) : Prop :=
  forall w,
    match m w with
    | (Returned _, w') =>
        exists earlier,
          outbox w' = ExtractionComplete :: earlier ++ outbox w
          /\ Forall inRunMessage earlier
    | (Thrown _, w') =>
        exists new, outbox w' = new ++ outbox w /\ Forall inRunMessage new
    | (OutOfFuel, _) => True
    end.

(** ** Captures *)

(** The capture primitive delivers an image at instant [t]. *)
Definition captureWorks (e : Env) (t : Z) : Prop :=
  truthy (captureResult (captureReply e t)) = true.

(** The instant of the first attempt of a capture requested in [w]: now,
    or when the minimum interval since the last request has passed. *)
Definition firstAttemptAt (w : World) : Z :=
  clock w + Z.max 0 (MIN_CAPTURE_INTERVAL - (clock w - lastCaptureTime w)).

(** The messages with which [saveParts] hands over the parts, in the order
    in which they are sent. *)
Fixpoint partFiles (folderName baseFileName : string) (i : nat) (parts : list string)
  : list Message :=
  match parts with
  | [] => []
  | part :: rest =>
      SaveFile folderName (baseFileName +:+ "_part" +:+ showNat (i + 1) +:+ ".jpg") part true
      :: partFiles folderName baseFileName (S i) rest
  end.

(** The warning that a failed capture leaves behind. *)
Definition captureWarning (baseFileName : string) (w : World) : Message :=
  SetStatus ("WARNING: Screenshot failed for " +:+ baseFileName) (progressState w).

(** The navigation entries that are visible at instant [t]. *)
Definition visibleTabsAt (e : Env) (t : Z) : list Element :=
  List.filter tabVisible (querySelectorAll e t "ul.mode-connected > li > a.tabicon").

(** ** Dropdowns and what a script leaves of the page *)

(** The selector through which the dropdown of an axis is addressed, if
    there is one. *)
Definition selectorOf (ax : Axis) (w : World) : option string :=
  match selectOf ax (page w) with
  | Some s => getSelectSelector s
  | None => None
  end.

(** The bridge requests that [n] attempts send. *)
Definition bridgeRequests (selector : option string) (value : string) (n : nat)
  : list Message :=
  match selector with
  | Some sel => repeat (SetSelectValue sel value) n
  | None => []
  end.

(** [keeps R m]: whatever [m] does to the page, the page it leaves is
    related by [R] to the page it found. *)
Definition keeps (R : Page -> Page -> Prop) {A} (m : Js A) : Prop :=
  forall w, R (page w) (page (snd (m w))).

(** The same page, up to the scroll offset. *)
Definition samePage (p p' : Page) : Prop :=
  setPageScrollTop 0 p' = setPageScrollTop 0 p.



(** [calm m]: without a stop request, [m] does not throw, and no stop
    request appears. *)
Definition calm {A} (m : Js A) : Prop :=
  forall w, quiet w ->
            quiet (snd (m w)) /\ forall e, fst (m w) <> Thrown e.

(** ** The service worker and the popup *)




(** The character does not occur in the string. *)
Definition lacks (c : ascii) (s : string) : Prop := ~ In c (list_ascii_of_string s).


(** A browser in which the configurator tab [tabId] is in front and the
    extension's storage holds what the popup [p] stored. *)
Definition browserWithStorage (reach : Background.TabReach) (stamp : string)
           (tabId : Z) (url : string) (p : Popup.State) : Background.Browser :=
  {| Background.reach := reach;
     Background.timestamp := stamp;
     Background.activeTab := Some (tabId, url);
     Background.storedOptions := Some (Popup.saveOptions p);
     Background.tabSelections := Some (Popup.saveTabSelections (Popup.tabGrid p)) |}.

(** ** What makes a script give up *)

(** [raises S m]: when [m] ends with an exception, its message is in [S]. *)
Definition raises (S : string -> Prop) {A} (m : Js A) : Prop :=
  forall w e w', m w = (Thrown e, w') -> S e.


(** The messages with which the CLI extraction gives up. *)
Definition cliGivesUp (e : string) : Prop :=
  e = "Backup stopped by user."
  \/ e = "Connection lost before CLI extraction – backup aborted."
  \/ e = "Connection lost during CLI extraction – backup aborted.".

(** The connection probe never answers "disconnected" in this
    environment. *)
Definition neverDisconnected (e : Env) : Prop :=
  forall w, env w = e -> fst (isConnected w) <> Returned (Some false).

(** [steadfast e m]: in the environment [e] and without a stop request, [m]
    returns, and no stop request has appeared. *)
Definition steadfast (e0 : Env) {A} (m : Js A) : Prop :=
  forall w, env w = e0 -> quiet w ->
            exists a w', m w = (Returned a, w') /\ env w' = e0 /\ quiet w'.



(* ===================================================================== *)
(** * Part VIII. Sample inputs                                        *)
(* ===================================================================== *)

(** ** Frames *)

(** Two-pixel-wide frames whose pixel values spell out their origin:
    hundreds for the frame, tens for the row, units for the column. *)
Definition frameA : Image :=
  {| img_width := 2; img_height := 2; px := fun x y => 100 + 10 * y + x |}.

Definition frameB : Image :=
  {| img_width := 2; img_height := 2; px := fun x y => 200 + 10 * y + x |}.

Definition frameC : Image :=
  {| img_width := 2; img_height := 2; px := fun x y => 300 + 10 * y + x |}.

(** A frame of the same width but twice the height, as a window resized
    between two captures produces. *)
Definition tallFrame : Image :=
  {| img_width := 2; img_height := 4; px := fun x y => 400 + 10 * y + x |}.

(** A decoder that knows three data URLs, and an encoder that answers
    with the third whatever the canvas holds: what comes back from a
    lossy encoder decodes to other pixels than went in. *)
Definition frameDecoder (url : string) : option Image :=
  if String.eqb url "data:image/jpeg;base64,AAAA" then Some frameA
  else if String.eqb url "data:image/jpeg;base64,BBBB" then Some frameB
  else if String.eqb url "data:image/jpeg;base64,CCCC" then Some frameC
  else None.

Definition frameEncoder (c : Canvas) : string := "data:image/jpeg;base64,CCCC".

(** ** Pages and browsers *)

Definition okReply : CaptureReply :=
  {| cap_lastError := false;
     cap_res := Some (None, Some "data:image/jpeg;base64,AAAA") |}.

Definition failedReply : CaptureReply :=
  {| cap_lastError := false;
     cap_res := Some (Some "captureVisibleTab timed out after 10s", None) |}.

(** A page without any of the elements the scripts look for, that does
    not scroll, in a browser in which every primitive succeeds. *)
Definition plainEnv : Env :=
  {| abortAt := None;
     querySelectorAll := fun _ _ => [];
     scrollGeometry := fun _ => (600, 600);
     stickyBars := fun _ => O;
     expertCheckbox := fun _ => None;
     expertWrapper := fun _ => ClosestLabel;
     captureReply := fun _ => okReply;
     selectAccepts := fun _ => true;
     cliSendReply := fun _ => Some true;
     cliReadReply := fun _ => None;
     windowInnerWidth := 2;
     decodeImage := fun _ => Some frameA;
     toDataURL := fun _ => "data:image/jpeg;base64,COMPOSITE" |}.

(** The same, with these elements on the page. *)
Definition withElements (q : string -> list Element) (e : Env) : Env :=
  {| abortAt := abortAt e;
     querySelectorAll := fun _ => q;
     scrollGeometry := scrollGeometry e;
     stickyBars := stickyBars e;
     expertCheckbox := expertCheckbox e;
     expertWrapper := expertWrapper e;
     captureReply := captureReply e;
     selectAccepts := selectAccepts e;
     cliSendReply := cliSendReply e;
     cliReadReply := cliReadReply e;
     windowInnerWidth := windowInnerWidth e;
     decodeImage := decodeImage e;
     toDataURL := toDataURL e |}.

(** The same, with the user pressing Stop at [stop], if ever. *)
Definition withStopAt (stop : option Z) (e : Env) : Env :=
  {| abortAt := stop;
     querySelectorAll := querySelectorAll e;
     scrollGeometry := scrollGeometry e;
     stickyBars := stickyBars e;
     expertCheckbox := expertCheckbox e;
     expertWrapper := expertWrapper e;
     captureReply := captureReply e;
     selectAccepts := selectAccepts e;
     cliSendReply := cliSendReply e;
     cliReadReply := cliReadReply e;
     windowInnerWidth := windowInnerWidth e;
     decodeImage := decodeImage e;
     toDataURL := toDataURL e |}.

(** The same, with this answer to every capture request. *)
Definition withCaptureReply (r : CaptureReply) (e : Env) : Env :=
  {| abortAt := abortAt e;
     querySelectorAll := querySelectorAll e;
     scrollGeometry := scrollGeometry e;
     stickyBars := stickyBars e;
     expertCheckbox := expertCheckbox e;
     expertWrapper := expertWrapper e;
     captureReply := fun _ => r;
     selectAccepts := selectAccepts e;
     cliSendReply := cliSendReply e;
     cliReadReply := cliReadReply e;
     windowInnerWidth := windowInnerWidth e;
     decodeImage := decodeImage e;
     toDataURL := toDataURL e |}.

(** The same, with this terminal buffer. *)
Definition withTerminal (read : Z -> option string) (e : Env) : Env :=
  {| abortAt := abortAt e;
     querySelectorAll := querySelectorAll e;
     scrollGeometry := scrollGeometry e;
     stickyBars := stickyBars e;
     expertCheckbox := expertCheckbox e;
     expertWrapper := expertWrapper e;
     captureReply := captureReply e;
     selectAccepts := selectAccepts e;
     cliSendReply := cliSendReply e;
     cliReadReply := read;
     windowInnerWidth := windowInnerWidth e;
     decodeImage := decodeImage e;
     toDataURL := toDataURL e |}.

Definition emptyPage : Page :=
  {| scrollTop := 0; pidSelect := None; rateSelect := None;
     hiddenBars := O; clicked := [] |}.

(** The content script right after injection. *)
Definition freshWorld (e : Env) (p : Page) : World :=
  {| env := e; clock := 0; backupRunning := false; abortRequested := false;
     keepaliveInterval := false; progressState := {| current := O; total := O |};
     lastCaptureTime := 0; page := p; outbox := [] |}.

(** The content script in the middle of a run. *)
Definition runningWorld : World :=
  fst (onMessage (RunExtraction None) (freshWorld plainEnv emptyPage)).

Definition idleContent : ContentState :=
  {| cs_world := freshWorld plainEnv emptyPage; cs_inFlight := O |}.

(** The service worker before any backup, and in the middle of one. *)
Definition idleWorker : Background.State :=
  {| Background.isRunning := false; Background.backupZip := None;
     Background.rootFolderName := EmptyString; Background.activeTabId := None;
     Background.badge := EmptyString; Background.backupStatus := None;
     Background.relayed := []; Background.tabOutbox := [];
     Background.notifications := []; Background.packagings := O |}.

(** A browser in which the configurator tab (id 7) is in front and answers. *)
Definition browserAt (stamp : string) : Background.Browser :=
  {| Background.reach := Background.Responds;
     Background.timestamp := stamp;
     Background.activeTab := Some (7, "https://app.betaflight.com/");
     Background.storedOptions := None;
     Background.tabSelections := None |}.

Definition busyWorker : Background.State :=
  Background.handleStartBackup (browserAt "2026-02-23_14-30") 7 defaultOptions idleWorker.

(** ** Panels *)



(** A connection button that exists but is not active: the configurator
    shows the device as disconnected. *)
Definition inactiveButton : Element :=
  {| className := "connection_button__link"; innerText := "Connect";
     offsetWidth := 80; offsetHeight := 30; closestLi := None |}.

Definition disconnectedEnv : Env :=
  withElements
    (fun sel => if String.eqb sel ".connection_button__link" then [inactiveButton] else [])
    plainEnv.

(** A configurator that shows two panels, Setup and Presets. *)
Definition navLink (liClass text : string) : Element :=
  {| className := "tabicon"; innerText := text; offsetWidth := 120; offsetHeight := 32;
     closestLi := Some (liClass, "list-item", 32) |}.

Definition twoPanelEnv : Env :=
  withElements
    (fun sel =>
       if String.eqb sel "ul.mode-connected > li > a.tabicon"
       then [navLink "tab_setup active" " Setup "; navLink "tab_presets" "Presets"]
       else if String.eqb sel "li.tab_setup > a.tabicon"
       then [navLink "tab_setup active" " Setup "]
       else [])
    plainEnv.

(** The same, with an expert-mode checkbox in this state and with this
    around it. *)
Definition withExpertCheckbox (checked : bool) (wrapper : ExpertWrapper) (e : Env) : Env :=
  {| abortAt := abortAt e;
     querySelectorAll := querySelectorAll e;
     scrollGeometry := scrollGeometry e;
     stickyBars := stickyBars e;
     expertCheckbox := fun _ => Some checked;
     expertWrapper := fun _ => wrapper;
     captureReply := captureReply e;
     selectAccepts := selectAccepts e;
     cliSendReply := cliSendReply e;
     cliReadReply := cliReadReply e;
     windowInnerWidth := windowInnerWidth e;
     decodeImage := decodeImage e;
     toDataURL := toDataURL e |}.

(** The two-panel configurator with expert mode off and the checkbox
    inside a label. *)
Definition noviceEnv : Env := withExpertCheckbox false ClosestLabel twoPanelEnv.

(** A browser on which every capture times out. *)
Definition brokenCaptureEnv : Env := withCaptureReply failedReply plainEnv.

(** ** Terminals *)

(** [n] characters of output. *)
Fixpoint filler (n : nat) : string :=
  match n with
  | O => EmptyString
  | S n' => String "x" (filler n')
  end.

(** A terminal whose buffer holds [len t] characters at instant [t]. *)
Definition terminalEnv (len : Z -> nat) : Env :=
  withTerminal (fun t => Some (filler (len t))) plainEnv.

(** A buffer that shrinks from poll to poll (lines scrolling out of the
    terminal's history): 12, 8 and then 5 characters. *)
Definition shrinkingOutput (t : Z) : nat :=
  if t <=? 1000 then 12%nat else if t <=? 2000 then 8%nat else 5%nat.

(** A buffer that holds the same 12 characters all the time. *)
Definition steadyOutput (t : Z) : nat := 12%nat.

(** A buffer that grows by a character every second. *)
Definition growingOutput (t : Z) : nat := Z.to_nat (t / 1000).

Definition diffAll : CliCommand :=
  {| cmd := "diff all"; file := "diff_all.txt"; timeout := 30000 |}.

(** ** The PID tuning panel *)

(** Two profile dropdowns on their first option and three sub-tabs (PID,
    Rates, Filter). *)
Definition profileDropdown (name : string) : SelectEl :=
  {| sel_id := EmptyString; sel_name := name; sel_nthPath := None;
     sel_options := ["0"; "1"; "2"]; sel_value := "0" |}.

Definition tuningPage : Page :=
  {| scrollTop := 0;
     pidSelect := Some (profileDropdown "profile");
     rateSelect := Some (profileDropdown "rate_profile");
     hiddenBars := O; clicked := [] |}.

Definition subTabEl (text : string) : Element :=
  {| className := "tab"; innerText := text; offsetWidth := 90; offsetHeight := 28;
     closestLi := None |}.

(** [stop] is the instant at which the user presses Stop, if ever. *)
Definition tuningEnv (stop : option Z) : Env :=
  withStopAt stop
    (withElements
       (fun sel =>
          if String.eqb sel "#content .tab-container .tab"
          then [subTabEl "PID"; subTabEl "Rates"; subTabEl "Filter"]
          else [])
       plainEnv).

(** ** Long pages and unreliable captures *)

(** The same, with a content container of this height in a window of that
    height. *)
Definition withGeometry (sh ch : Z) (e : Env) : Env :=
  {| abortAt := abortAt e;
     querySelectorAll := querySelectorAll e;
     scrollGeometry := fun _ => (sh, ch);
     stickyBars := stickyBars e;
     expertCheckbox := expertCheckbox e;
     expertWrapper := expertWrapper e;
     captureReply := captureReply e;
     selectAccepts := selectAccepts e;
     cliSendReply := cliSendReply e;
     cliReadReply := cliReadReply e;
     windowInnerWidth := windowInnerWidth e;
     decodeImage := decodeImage e;
     toDataURL := toDataURL e |}.

(** The same, with this many toolbars sticking to the bottom of the
    window. *)
Definition withStickyBars (n : nat) (e : Env) : Env :=
  {| abortAt := abortAt e;
     querySelectorAll := querySelectorAll e;
     scrollGeometry := scrollGeometry e;
     stickyBars := fun _ => n;
     expertCheckbox := expertCheckbox e;
     expertWrapper := expertWrapper e;
     captureReply := captureReply e;
     selectAccepts := selectAccepts e;
     cliSendReply := cliSendReply e;
     cliReadReply := cliReadReply e;
     windowInnerWidth := windowInnerWidth e;
     decodeImage := decodeImage e;
     toDataURL := toDataURL e |}.

(** The same, with captures that succeed before [limit] and time out from
    then on. *)
Definition withCapturesUntil (limit : Z) (e : Env) : Env :=
  {| abortAt := abortAt e;
     querySelectorAll := querySelectorAll e;
     scrollGeometry := scrollGeometry e;
     stickyBars := stickyBars e;
     expertCheckbox := expertCheckbox e;
     expertWrapper := expertWrapper e;
     captureReply := fun t => if t <? limit then okReply else failedReply;
     selectAccepts := selectAccepts e;
     cliSendReply := cliSendReply e;
     cliReadReply := cliReadReply e;
     windowInnerWidth := windowInnerWidth e;
     decodeImage := decodeImage e;
     toDataURL := toDataURL e |}.

(** A panel two and a half windows long, with a save bar at the bottom. *)
Definition longPanelEnv : Env := withStickyBars 1 (withGeometry 1500 600 plainEnv).

(** A panel five windows long in a browser whose capture service breaks
    down three seconds into the run. *)
Definition flakyEnv : Env := withCapturesUntil 3000 (withGeometry 3000 600 plainEnv).

(** ** The popup *)

(** The popup opened for the first time: nothing stored yet. *)
Definition firstPopup : Popup.State :=
  Popup.openPopup
    {| Popup.optScreenshots := true; Popup.optCli := true; Popup.optProfiles := true;
       Popup.tabGrid := [] |}
    None None.



(** ** The CLI panel *)

(** A configurator that shows the CLI panel only, with a terminal that
    holds 24 characters. *)
Definition cliPanelEnv : Env :=
  withTerminal (fun _ => Some (filler 24))
    (withElements
       (fun sel =>
          if String.eqb sel "ul.mode-connected > li > a.tabicon"
          then [navLink "tab_cli" "CLI"]
          else if String.eqb sel "li.tab_cli > a.tabicon"
          then [navLink "tab_cli" "CLI"]
          else [])
       plainEnv).

(** The commands that these messages send to the terminal, newest first. *)
Definition commandsSent (ms : list Message) : list string :=
  omap (fun m => match m with
                 | CliExecute (OpSend command) => Some command
                 | _ => None
                 end) ms.

(* ===================================================================== *)
(** * Part IX. Properties of the stitcher                             *)
(* ===================================================================== *)

Lemma zrange_length lo n : length (zrange lo n) = Z.to_nat n.
Proof. unfold zrange. now rewrite length_map, length_seq. Qed.

Lemma zrange_In lo n v : In v (zrange lo n) <-> lo <= v < lo + n.
Proof.
  unfold zrange. rewrite in_map_iff. split.
  - intros (k & <- & Hk). apply in_seq in Hk. lia.
  - intros Hv. exists (Z.to_nat (v - lo)). split; [lia|].
    apply in_seq. lia.
Qed.

Lemma seq_from s n : seq s n = map (fun k => (k + s)%nat) (seq 0 n).
Proof.
  revert s. induction n as [|n IH]; intros s; simpl; [reflexivity|].
  f_equal. rewrite (IH (S s)), (IH 1%nat), map_map.
  apply map_ext. intros k. lia.
Qed.

Lemma zrange_app lo a b :
  0 <= a -> 0 <= b -> zrange lo (a + b) = zrange lo a ++ zrange (lo + a) b.
Proof.
  intros Ha Hb. unfold zrange.
  rewrite Z2Nat.inj_add by assumption.
  rewrite seq_app, map_app. f_equal.
  rewrite (seq_from (0 + Z.to_nat a)), map_map.
  apply map_ext. intros k. lia.
Qed.

Lemma within_nonneg lo len v :
  0 <= len -> within lo len v = true <-> lo <= v < lo + len.
Proof.
  intros Hlen. unfold within.
  destruct (0 <=? len) eqn:E; [|lia].
  rewrite andb_true_iff, Z.leb_le, Z.ltb_lt. tauto.
Qed.

Lemma inImage_iff img x y :
  inImage img x y = true <-> 0 <= x < img_width img /\ 0 <= y < img_height img.
Proof.
  unfold inImage. rewrite !andb_true_iff, !Z.leb_le, !Z.ltb_lt. tauto.
Qed.

Lemma inCanvas_iff c x y :
  inCanvas c x y = true <-> 0 <= x < canvas_width c /\ 0 <= y < canvas_height c.
Proof.
  unfold inCanvas. rewrite !andb_true_iff, !Z.leb_le, !Z.ltb_lt. tauto.
Qed.

(** A draw leaves the rows outside its destination untouched. *)
Lemma drawImage9_outside c img sx sy sw sh dx dy x y :
  0 <= sh -> (y < dy \/ dy + sh <= y) ->
  cell (drawImage9 c img sx sy sw sh dx dy) x y = cell c x y.
Proof.
  intros Hsh Hy. simpl.
  destruct (within dy sh y) eqn:E.
  - apply within_nonneg in E; [lia|assumption].
  - now rewrite !andb_false_r.
Qed.

(** Inside the destination, a cell that has a source pixel takes it. *)
Lemma drawImage9_inside c img sx sy sw sh dx dy x y :
  0 <= sw -> 0 <= sh ->
  0 <= x < canvas_width c -> 0 <= y < canvas_height c ->
  dx <= x < dx + sw -> dy <= y < dy + sh ->
  inImage img (sx + (x - dx)) (sy + (y - dy)) = true ->
  cell (drawImage9 c img sx sy sw sh dx dy) x y
  = Some (px img (sx + (x - dx)) (sy + (y - dy))).
Proof.
  intros Hsw Hsh Hx Hy Hdx Hdy Hin. simpl.
  assert (inCanvas c x y = true) as -> by (apply inCanvas_iff; lia).
  assert (within dx sw x = true) as -> by (apply within_nonneg; lia).
  assert (within dy sh y = true) as -> by (apply within_nonneg; lia).
  now rewrite Hin.
Qed.

Lemma canvasRowsFrom_ext c c' lo n :
  canvas_width c = canvas_width c' ->
  (forall x y, 0 <= x < canvas_width c -> lo <= y < lo + n -> cell c x y = cell c' x y) ->
  canvasRowsFrom c lo n = canvasRowsFrom c' lo n.
Proof.
  intros Hw Hcell. unfold canvasRowsFrom, canvasRow.
  apply map_ext_in. intros y Hy. apply zrange_In in Hy.
  rewrite <- Hw. apply map_ext_in. intros x Hx. apply zrange_In in Hx.
  apply Hcell; lia.
Qed.

Lemma canvasRowsFrom_app c lo a b :
  0 <= a -> 0 <= b ->
  canvasRowsFrom c lo (a + b) = canvasRowsFrom c lo a ++ canvasRowsFrom c (lo + a) b.
Proof.
  intros Ha Hb. unfold canvasRowsFrom. now rewrite zrange_app, map_app.
Qed.

Lemma opaque_app a b : opaque (a ++ b) = opaque a ++ opaque b.
Proof. apply map_app. Qed.

Section StitcherFacts.
Context {num : Type} `{JsNumber num}.
Variable innerWidth : num.

Lemma totalHeightOf_sum imgHeight scale deltas :
  totalHeightOf imgHeight scale deltas
  = imgHeight + sumZ (map (newPixels scale) deltas).
Proof.
  unfold totalHeightOf. revert imgHeight.
  induction deltas as [|d ds IH]; intros h; simpl; [lia|].
  rewrite IH. lia.
Qed.

Lemma drawParts_dims images width imgHeight scale deltas i y c c' :
  drawParts images width imgHeight scale deltas i y c = Some c' ->
  canvas_width c' = canvas_width c /\ canvas_height c' = canvas_height c.
Proof.
  revert i y c. induction deltas as [|d ds IH]; intros i y c; simpl.
  - intros [= <-]. split; reflexivity.
  - destruct (images !! S i) as [img|]; [|discriminate].
    intros Hrun. apply IH in Hrun. simpl in Hrun. exact Hrun.
Qed.

(** The loop only writes at and below its running offset. *)
Lemma drawParts_above images width imgHeight scale deltas i y c c' :
  Forall (fun d => 0 <= newPixels scale d) deltas ->
  drawParts images width imgHeight scale deltas i y c = Some c' ->
  forall x y', y' < y -> cell c' x y' = cell c x y'.
Proof.
  revert i y c. induction deltas as [|d ds IH]; intros i y c Hpos; simpl.
  - intros [= <-]. reflexivity.
  - apply Forall_cons_iff in Hpos as [Hd Hds].
    destruct (images !! S i) as [img|]; [|discriminate].
    intros Hrun x y' Hy'.
    rewrite (IH _ _ _ Hds Hrun) by lia.
    apply drawImage9_outside; lia.
Qed.

(** Every cell of the [j]-th block whose source pixel exists holds that
    pixel. *)
Lemma drawParts_block images width imgHeight scale deltas i y c c' :
  Forall (fun d => 0 <= newPixels scale d) deltas ->
  0 <= width ->
  drawParts images width imgHeight scale deltas i y c = Some c' ->
  forall j d img k x,
    deltas !! j = Some d ->
    images !! S (i + j) = Some img ->
    0 <= k < newPixels scale d ->
    0 <= x < width -> x < canvas_width c ->
    0 <= y + sumZ (map (newPixels scale) (take j deltas)) + k < canvas_height c ->
    inImage img x (imgHeight - newPixels scale d + k) = true ->
    cell c' x (y + sumZ (map (newPixels scale) (take j deltas)) + k)
    = Some (px img x (imgHeight - newPixels scale d + k)).
Proof.
  revert i y c. induction deltas as [|d0 ds IH]; intros i y c Hpos Hw; simpl.
  - intros _ j d img k x Hj. destruct j; discriminate.
  - apply Forall_cons_iff in Hpos as [Hd0 Hds].
    destruct (images !! S i) as [img0|] eqn:Himg0; [|discriminate].
    intros Hrun j d img k x Hj Himg Hk Hx Hxc Hy' Hin.
    destruct j as [|j].
    + simpl in Hj. injection Hj as ->.
      rewrite Nat.add_0_r in Himg. rewrite Himg0 in Himg. injection Himg as ->.
      simpl in *.
      rewrite (drawParts_above _ _ _ _ _ _ _ _ _ Hds Hrun) by lia.
      replace (px img x (imgHeight - newPixels scale d + k))
        with (px img (0 + (x - 0)) (imgHeight - newPixels scale d + (y + 0 + k - y))).
      * apply drawImage9_inside; try lia.
        replace (0 + (x - 0)) with x by lia.
        replace (imgHeight - newPixels scale d + (y + 0 + k - y))
          with (imgHeight - newPixels scale d + k) by lia.
        exact Hin.
      * f_equal; lia.
    + simpl in Hj.
      replace (S (i + S j)) with (S (S i + j)) in Himg by lia.
      pose proof (IH (S i) (y + newPixels scale d0)
                     (drawImage9 c img0 0 (imgHeight - newPixels scale d0) width
                                 (newPixels scale d0) 0 y)
                     Hds Hw Hrun j d img k x Hj Himg Hk Hx) as Hind.
      simpl in Hind. simpl in Hy'. simpl.
      replace (y + (newPixels scale d0 + sumZ (map (newPixels scale) (take j ds))) + k)
        with (y + newPixels scale d0 + sumZ (map (newPixels scale) (take j ds)) + k) by lia.
      apply Hind; [assumption| lia | assumption].
Qed.

Lemma sumZ_nonneg scale deltas :
  Forall (fun d => 0 <= newPixels scale d) deltas ->
  0 <= sumZ (map (newPixels scale) deltas).
Proof.
  induction 1 as [|d ds Hd _ IH]; simpl; lia.
Qed.

Lemma drawParts_some images width imgHeight scale deltas i y c :
  (i + length deltas < length images)%nat ->
  exists c', drawParts images width imgHeight scale deltas i y c = Some c'.
Proof.
  revert i y c. induction deltas as [|d ds IH]; intros i y c Hlen; simpl in *.
  - eauto.
  - destruct (lookup_lt_is_Some_2 images (S i)) as [img ->]; [lia|].
    apply IH. lia.
Qed.

(** The rows written by one step of the loop are the bottom rows of the
    image, when the image has the canvas's width and the first image's
    height. *)
Lemma drawImage9_block_rows c img imgHeight n y :
  img_width img = canvas_width c -> img_height img = imgHeight ->
  0 <= n <= imgHeight -> 0 <= y -> y + n <= canvas_height c ->
  canvasRowsFrom (drawImage9 c img 0 (imgHeight - n) (canvas_width c) n 0 y) y n
  = opaque (bottomRows n img).
Proof.
  intros Hw Hh Hn Hy Hfit.
  unfold canvasRowsFrom, opaque, bottomRows, zrange.
  rewrite !map_map. apply map_ext_in. intros k Hk. apply in_seq in Hk.
  unfold canvasRow, imageRow, zrange. cbn [canvas_width drawImage9].
  rewrite Hw, !map_map. apply map_ext_in. intros j Hj. apply in_seq in Hj.
  assert (0 <= canvas_width c) by lia.
  rewrite drawImage9_inside; try lia.
  - f_equal. f_equal; lia.
  - apply inImage_iff. lia.
Qed.

Lemma drawParts_rows images width imgHeight scale deltas i y c c' :
  Forall (fun d => 0 <= newPixels scale d <= imgHeight) deltas ->
  Forall (fun img => img_width img = width /\ img_height img = imgHeight)
         (drop (S i) images) ->
  canvas_width c = width -> 0 <= y ->
  y + sumZ (map (newPixels scale) deltas) <= canvas_height c ->
  drawParts images width imgHeight scale deltas i y c = Some c' ->
  canvasRowsFrom c' y (sumZ (map (newPixels scale) deltas))
  = opaque (concat (zip_with (fun d img => bottomRows (newPixels scale d) img)
                             deltas (drop (S i) images))).
Proof.
  revert i y c. induction deltas as [|d ds IH]; intros i y c Hn Himgs Hcw Hy Hfit; simpl.
  - intros _. reflexivity.
  - apply Forall_cons_iff in Hn as [Hd Hds].
    assert (Forall (fun d => 0 <= newPixels scale d) ds) as Hpos
      by (eapply Forall_impl; [exact Hds|]; simpl; intros; lia).
    pose proof (sumZ_nonneg _ _ Hpos) as Hsum.
    destruct (images !! S i) as [img|] eqn:Himg; [|discriminate].
    intros Hrun.
    rewrite (drop_S _ _ _ Himg) in Himgs |- *.
    apply Forall_cons_iff in Himgs as [[Hiw Hih] Himgs].
    simpl in Hfit. cbn [zip_with concat].
    unfold opaque. rewrite map_app. fold (opaque (bottomRows (newPixels scale d) img)).
    rewrite canvasRowsFrom_app by lia. f_equal.
    + pose proof (drawParts_dims _ _ _ _ _ _ _ _ _ Hrun) as [Hdw _].
      cbn [canvas_width drawImage9] in Hdw.
      rewrite <- (drawImage9_block_rows c img imgHeight (newPixels scale d) y);
        try lia.
      rewrite Hcw.
      apply canvasRowsFrom_ext; [exact Hdw|].
      intros x y' _ Hy'.
      apply (drawParts_above _ _ _ _ _ _ _ _ _ Hpos Hrun). lia.
    + eapply IH; [exact Hds|exact Himgs| | | |exact Hrun]; simpl; lia.
Qed.

Lemma sumZ_take_le scale deltas j d :
  Forall (fun d => 0 <= newPixels scale d) deltas ->
  deltas !! j = Some d ->
  0 <= sumZ (map (newPixels scale) (take j deltas)) /\
  sumZ (map (newPixels scale) (take j deltas)) + newPixels scale d
  <= sumZ (map (newPixels scale) deltas).
Proof.
  intros Hpos. revert j. induction Hpos as [|d0 ds Hd0 Hds IH]; intros j Hj.
  - destruct j; discriminate.
  - destruct j as [|j]; simpl in *.
    + injection Hj as ->. pose proof (sumZ_nonneg _ _ Hds). lia.
    + specialize (IH _ Hj). lia.
Qed.

(** The first image occupies the top of the canvas. *)
Lemma drawImage3_rows w h img :
  img_width img = w -> img_height img <= h ->
  canvasRowsFrom (drawImage3 (createCanvas w h) img 0 0) 0 (img_height img)
  = opaque (imageRows img).
Proof.
  intros Hw Hh.
  destruct (Z_lt_le_dec (img_height img) 0) as [Hneg|Hpos].
  - unfold canvasRowsFrom, opaque, imageRows, zrange.
    rewrite (Z2Nat.nonpos (img_height img)) by lia. reflexivity.
  - unfold drawImage3. rewrite Hw.
    change w with (canvas_width (createCanvas w h)) at 2.
    replace 0 with (img_height img - img_height img) at 2 by lia.
    rewrite drawImage9_block_rows; simpl; try lia.
    unfold bottomRows. now rewrite Z.sub_diag.
Qed.
End StitcherFacts.

(** C3 (as amended).  For images that all have the width and the height of
    the first one, one scroll delta per image after the first, and every
    scaled delta [round(delta * scale)] between 0 and the image height
    ([scale] = pixel width of the first image / logical viewport width):
    the stitcher produces a composite whose height is the first image's
    height plus the sum of the scaled deltas, whose top rows are the first
    image in full, and in which every later image contributes exactly its
    bottom [round(delta * scale)] rows, appended directly below what was
    placed before. *)
Theorem stitch_composite_rows :
  forall {num : Type} `{JsNumber num} (innerWidth : num)
         (img0 : Image) (rest : list Image) (scrollDeltas : list num),
    let scale := num_div (num_of_Z (img_width img0)) innerWidth in
    length scrollDeltas = length rest ->
    Forall (fun img => img_width img = img_width img0
                       /\ img_height img = img_height img0) rest ->
    Forall (fun d => 0 <= newPixels scale d <= img_height img0) scrollDeltas ->
    exists c,
      stitchCanvas innerWidth (img0 :: rest) scrollDeltas = Some c
      /\ canvas_width c = img_width img0
      /\ canvas_height c
         = img_height img0 + sumZ (map (fun d => Math_round (num_mul d scale)) scrollDeltas)
      /\ canvasRows c
         = opaque (imageRows img0
                   ++ concat (zip_with (fun d img => bottomRows (Math_round (num_mul d scale)) img)
                                       scrollDeltas rest)).
Proof.
  intros num HN innerWidth img0 rest deltas scale Hlen Hdims Hbounds.
  unfold stitchCanvas. cbn [lookup list_lookup]. fold scale.
  set (h := img_height img0) in *. set (w := img_width img0) in *.
  set (c0 := drawImage3 (createCanvas w (totalHeightOf h scale deltas)) img0 0 0).
  destruct (drawParts_some (img0 :: rest) w h scale deltas 0 h c0) as [c Hrun].
  { simpl. lia. }
  assert (Forall (fun d => 0 <= newPixels scale d) deltas) as Hpos
    by (eapply Forall_impl; [exact Hbounds|]; simpl; intros; lia).
  pose proof (sumZ_nonneg _ _ Hpos) as Hsum.
  pose proof (drawParts_dims _ _ _ _ _ _ _ _ _ Hrun) as [Hcw Hch].
  subst c0. cbn [canvas_width canvas_height drawImage3 drawImage9 createCanvas] in Hcw, Hch.
  rewrite totalHeightOf_sum in Hch.
  exists c. repeat split; try assumption.
  unfold canvasRows. rewrite Hch.
  destruct (Z_lt_le_dec h 0) as [Hneg|Hh].
  - (* a bitmap without rows: there can be no delta *)
    destruct deltas as [|d ds].
    + destruct rest; [|discriminate]. simpl in *.
      unfold canvasRowsFrom, opaque, imageRows, zrange. fold h.
      rewrite !(Z2Nat.nonpos) by lia. reflexivity.
    + apply Forall_cons_iff in Hbounds as [Hd _]. lia.
  - rewrite canvasRowsFrom_app by lia.
    rewrite opaque_app. f_equal.
    + rewrite <- (drawImage3_rows w (totalHeightOf h scale deltas) img0);
        [|reflexivity|rewrite totalHeightOf_sum; fold h; lia].
      fold h. apply canvasRowsFrom_ext; [exact Hcw|].
      intros x y _ Hy.
      apply (drawParts_above _ _ _ _ _ _ _ _ _ Hpos Hrun). lia.
    + eapply (drawParts_rows (img0 :: rest) w h scale deltas 0 h);
        [exact Hbounds|exact Hdims| | | |exact Hrun]; simpl; try lia.
      rewrite totalHeightOf_sum. lia.
Qed.

(** Witness for [stitch_composite_rows]: two equal frames, one delta of
    one logical pixel at scale 1. *)
Lemma stitch_composite_rows_witness :
  length [1%Q] = length [frameB]
  /\ Forall (fun img => img_width img = img_width frameA
                        /\ img_height img = img_height frameA) [frameB]
  /\ Forall (fun d => 0 <= newPixels (num_div (num_of_Z (img_width frameA)) (inject_Z 2)) d
                      <= img_height frameA) [1%Q]
  /\ exists c,
      stitchCanvas (inject_Z 2) [frameA; frameB] [1%Q] = Some c
      /\ canvas_width c = 2
      /\ canvas_height c = 3
      /\ canvasRows c = opaque (imageRows frameA ++ bottomRows 1 frameB).
Proof.
  assert (length [1%Q] = length [frameB]) as H1 by reflexivity.
  assert (Forall (fun img => img_width img = img_width frameA
                             /\ img_height img = img_height frameA) [frameB]) as H2
    by (repeat constructor).
  assert (Forall (fun d => 0 <= newPixels (num_div (num_of_Z (img_width frameA)) (inject_Z 2)) d
                           <= img_height frameA) [1%Q]) as H3
    by (repeat constructor; vm_compute; discriminate).
  split; [exact H1|]. split; [exact H2|]. split; [exact H3|].
  destruct (stitch_composite_rows (inject_Z 2) frameA [frameB] [1%Q] H1 H2 H3)
    as (c & Hc & Hw & Hh & Hrows).
  exists c. split; [exact Hc|]. split; [exact Hw|]. split; [exact Hh|].
  rewrite Hrows. reflexivity.
Defined.

(** C3, counterexample to the claim as stated: the second capture has the
    same width as the first but is taller.  The stitcher measures from the
    first image's height, so the row it appends is not the bottom row of
    the second image. *)
Lemma stitch_equal_width_not_bottom_rows :
  length [1%Q] = (length [frameA; tallFrame] - 1)%nat
  /\ img_width tallFrame = img_width frameA
  /\ exists c,
      stitchCanvas (inject_Z 2) [frameA; tallFrame] [1%Q] = Some c
      /\ canvasRows c = opaque (imageRows frameA ++ [imageRow tallFrame 1])
      /\ canvasRows c <> opaque (imageRows frameA ++ bottomRows 1 tallFrame).
Proof.
  split; [reflexivity|]. split; [reflexivity|].
  eexists. split; [reflexivity|]. split.
  - vm_compute. reflexivity.
  - vm_compute. discriminate.
Qed.

(** C4 (as amended).  A capture that consists of a single part is saved as
    that part, unchanged and without stitching.  What the stitcher returns
    is [canvas.toDataURL] of its composite canvas, not any of its inputs:
    for a single image and no scroll delta that canvas has the image's
    dimensions and exactly its pixel rows; and in any stitch of equal-width
    images with non-negative scaled deltas, every row of the encoded canvas
    that comes from a source image equals the corresponding source row
    exactly: the rows of the first image, and for the join below block [i]
    the rows [imgHeight - newPx + k] of image [i + 1], placed at offset
    [blockOffset + k]; in particular the rows on either side of each
    join. *)
Theorem stitch_single_identity_and_exact_joins :
  forall {num : Type} `{JsNumber num} (innerWidth : num)
         (decodeImage : string -> option Image) (toDataURL : Canvas -> string)
         (dataUrls : list string) (img0 : Image) (rest : list Image)
         (scrollDeltas : list num) (result : string),
    let scale := num_div (num_of_Z (img_width img0)) innerWidth in
    mapM decodeImage dataUrls = Some (img0 :: rest) ->
    Forall (fun img => img_width img = img_width img0) rest ->
    Forall (fun d => 0 <= newPixels scale d) scrollDeltas ->
    stitchScreenshots innerWidth decodeImage toDataURL dataUrls scrollDeltas = Some result ->
    (forall folderName baseFileName part deltas w,
        saveCaptured folderName baseFileName [part] deltas w
        = (Returned tt,
           pushOutbox (SaveFile folderName (baseFileName +:+ ".jpg") part true) w))
    /\ (forall url,
           decodeImage url = Some img0 ->
           exists c1,
             stitchScreenshots innerWidth decodeImage toDataURL [url] [] = Some (toDataURL c1)
             /\ canvas_width c1 = img_width img0
             /\ canvas_height c1 = img_height img0
             /\ canvasRows c1 = opaque (imageRows img0))
    /\ exists c,
        result = toDataURL c
        /\ stitchCanvas innerWidth (img0 :: rest) scrollDeltas = Some c
        /\ canvas_width c = img_width img0
        /\ canvas_height c = img_height img0 + sumZ (map (newPixels scale) scrollDeltas)
        /\ (forall y, 0 <= y < img_height img0 ->
                      canvasRow c y = map Some (imageRow img0 y))
        /\ (forall i d img k,
               scrollDeltas !! i = Some d -> rest !! i = Some img ->
               0 <= k < newPixels scale d ->
               0 <= img_height img0 - newPixels scale d + k < img_height img ->
               canvasRow c (blockOffset (img_height img0) scale scrollDeltas i + k)
               = map Some (imageRow img (img_height img0 - newPixels scale d + k))).
Proof.
  intros num HN innerWidth decode toURL dataUrls img0 rest deltas result scale
         Hdec Hwidths Hpos Hresult.
  split; [|split].
  - (* a single captured part *)
    reflexivity.
  - (* one image, no delta: the canvas is the image drawn on a blank
       canvas of its own size *)
    intros url Hurl.
    exists (drawImage3 (createCanvas (img_width img0) (img_height img0)) img0 0 0).
    split.
    { unfold stitchScreenshots. cbn [mapM]. rewrite Hurl. reflexivity. }
    split; [reflexivity|]. split; [reflexivity|].
    unfold canvasRows. cbn [canvas_height drawImage3 drawImage9 createCanvas].
    apply drawImage3_rows; [reflexivity|lia].
  - unfold stitchScreenshots in Hresult. rewrite Hdec in Hresult.
    destruct (stitchCanvas innerWidth (img0 :: rest) deltas) as [c|] eqn:Hstitch;
      [|discriminate].
    injection Hresult as <-.
    exists c. split; [reflexivity|]. split; [reflexivity|].
    unfold stitchCanvas in Hstitch. cbn [lookup list_lookup] in Hstitch. fold scale in Hstitch.
    pose proof (drawParts_dims _ _ _ _ _ _ _ _ _ Hstitch) as [Hcw Hch].
    cbn [canvas_width canvas_height drawImage3 drawImage9 createCanvas] in Hcw, Hch.
    pose proof (sumZ_nonneg _ _ Hpos) as Hsum.
    split; [exact Hcw|]. split; [rewrite Hch; apply totalHeightOf_sum|]. split.
    + (* rows of the first image *)
      intros y Hy. rewrite totalHeightOf_sum in Hch.
      unfold canvasRow, imageRow. rewrite Hcw, map_map.
      apply map_ext_in. intros x Hx. apply zrange_In in Hx.
      rewrite (drawParts_above _ _ _ _ _ _ _ _ _ Hpos Hstitch) by lia.
      unfold drawImage3.
      replace (px img0 x y) with (px img0 (0 + (x - 0)) (0 + (y - 0))) by (f_equal; lia).
      apply drawImage9_inside; cbn [canvas_width canvas_height createCanvas]; try lia.
      * rewrite totalHeightOf_sum. lia.
      * apply inImage_iff. lia.
    + (* rows of the appended blocks *)
      intros i d img k Hd Himg Hk Hsrc.
      pose proof (sumZ_take_le _ _ _ _ Hpos Hd) as [Hlo Hhi].
      assert (img_width img = img_width img0) as Hw.
      { rewrite Forall_forall in Hwidths. apply Hwidths.
        eapply list_elem_of_lookup_2; eassumption. }
      unfold canvasRow, imageRow, blockOffset. rewrite Hcw, Hw, map_map.
      apply map_ext_in. intros x Hx. apply zrange_In in Hx.
      assert (0 <= img_width img0) as Hw0 by lia.
      apply (drawParts_block _ _ _ _ _ _ _ _ _ Hpos Hw0 Hstitch i d img k x);
        try assumption; cbn [canvas_width canvas_height drawImage3 drawImage9 createCanvas];
        try lia.
      * rewrite totalHeightOf_sum. lia.
      * apply inImage_iff. lia.
Qed.

(** Witness for [stitch_single_identity_and_exact_joins]: three equal
    frames and the deltas 1 and 2 at scale 1. *)
Lemma stitch_single_identity_and_exact_joins_witness :
  mapM frameDecoder
    ["data:image/jpeg;base64,AAAA"; "data:image/jpeg;base64,BBBB";
     "data:image/jpeg;base64,CCCC"]
  = Some [frameA; frameB; frameC]
  /\ Forall (fun img => img_width img = img_width frameA) [frameB; frameC]
  /\ Forall (fun d => 0 <= newPixels (num_div (num_of_Z (img_width frameA)) (inject_Z 2)) d)
            [1%Q; 2%Q]
  /\ exists c,
      stitchScreenshots (inject_Z 2) frameDecoder frameEncoder
        ["data:image/jpeg;base64,AAAA"; "data:image/jpeg;base64,BBBB";
         "data:image/jpeg;base64,CCCC"] [1%Q; 2%Q]
      = Some (frameEncoder c)
      /\ canvas_height c = 5
      /\ canvasRow c 1 = map Some (imageRow frameA 1)
      /\ canvasRow c 2 = map Some (imageRow frameB 1)
      /\ canvasRow c 3 = map Some (imageRow frameC 0).
Proof.
  assert (mapM frameDecoder
            ["data:image/jpeg;base64,AAAA"; "data:image/jpeg;base64,BBBB";
             "data:image/jpeg;base64,CCCC"]
          = Some [frameA; frameB; frameC]) as H0 by reflexivity.
  assert (Forall (fun img => img_width img = img_width frameA) [frameB; frameC]) as H1
    by (repeat constructor).
  assert (Forall (fun d => 0 <= newPixels (num_div (num_of_Z (img_width frameA)) (inject_Z 2)) d)
                 [1%Q; 2%Q]) as H2
    by (repeat constructor; vm_compute; discriminate).
  split; [exact H0|]. split; [exact H1|]. split; [exact H2|].
  assert (stitchScreenshots (inject_Z 2) frameDecoder frameEncoder
            ["data:image/jpeg;base64,AAAA"; "data:image/jpeg;base64,BBBB";
             "data:image/jpeg;base64,CCCC"] [1%Q; 2%Q]
          = Some "data:image/jpeg;base64,CCCC") as H3 by reflexivity.
  destruct (stitch_single_identity_and_exact_joins
              (inject_Z 2) frameDecoder frameEncoder _ frameA [frameB; frameC] [1%Q; 2%Q] _
              H0 H1 H2 H3)
    as (_ & _ & c & _ & _ & _ & Hheight & Hfirst & Hblocks).
  exists c. split; [exact H3|]. split; [exact Hheight|]. split; [|split].
  - apply (Hfirst 1). vm_compute. split; [discriminate|reflexivity].
  - apply (Hblocks 0%nat 1%Q frameB 0); try reflexivity; vm_compute;
      (split; [discriminate|reflexivity]).
  - apply (Hblocks 1%nat 2%Q frameC 0); try reflexivity; vm_compute;
      (split; [discriminate|reflexivity]).
Defined.

(** C4, counterexample to the claim as stated: the stitcher is given a
    single image and no scroll delta.  The canvas it composes holds
    exactly the pixels of that image, but what it returns is the encoder's
    data URL for that canvas: it is not the data URL that went in, and it
    does not decode to the pixels that went in. *)
Lemma stitched_single_image_is_not_returned_unchanged :
  frameDecoder "data:image/jpeg;base64,AAAA" = Some frameA
  /\ (exists c,
         stitchCanvas (inject_Z 2) [frameA] [] = Some c
         /\ canvasRows c = opaque (imageRows frameA)
         /\ stitchScreenshots (inject_Z 2) frameDecoder frameEncoder
              ["data:image/jpeg;base64,AAAA"] []
            = Some (frameEncoder c))
  /\ stitchScreenshots (inject_Z 2) frameDecoder frameEncoder
       ["data:image/jpeg;base64,AAAA"] []
     = Some "data:image/jpeg;base64,CCCC"
  /\ stitchScreenshots (inject_Z 2) frameDecoder frameEncoder
       ["data:image/jpeg;base64,AAAA"] []
     <> Some "data:image/jpeg;base64,AAAA"
  /\ frameDecoder "data:image/jpeg;base64,CCCC" = Some frameC
  /\ px frameC 0 0 <> px frameA 0 0.
Proof.
  split; [reflexivity|]. split.
  { eexists. split; [reflexivity|]. split; [vm_compute; reflexivity|reflexivity]. }
  split; [reflexivity|]. split; [discriminate|]. split; [reflexivity|].
  vm_compute. discriminate.
Qed.

(* ===================================================================== *)
(** * Part X. Panel selection                                         *)
(* ===================================================================== *)




(* ===================================================================== *)
(** * Part XI. Reasoning about scripts                                *)
(* ===================================================================== *)

(** ** Running a script step by step *)

Lemma bind_Returned {A B} (m : Js A) (k : A -> Js B) w b w' :
  bind m k w = (Returned b, w') ->
  exists a w1, m w = (Returned a, w1) /\ k a w1 = (Returned b, w').
Proof.
  unfold bind. destruct (m w) as [[a|e|] w1]; try discriminate.
  intros Hk. eauto.
Qed.

Lemma bind_run {A B} (m : Js A) (k : A -> Js B) w a w1 :
  m w = (Returned a, w1) -> bind m k w = k a w1.
Proof. unfold bind. now intros ->. Qed.

Lemma bind_thrown {A B} (m : Js A) (k : A -> Js B) w e w1 :
  m w = (Thrown e, w1) -> bind m k w = (Thrown e, w1).
Proof. unfold bind. now intros ->. Qed.

Lemma tryFinally_Returned {A} (body : Js A) cleanup w a w' :
  tryFinally body cleanup w = (Returned a, w') ->
  exists w1, body w = (Returned a, w1) /\ cleanup w1 = (Returned tt, w').
Proof.
  unfold tryFinally. destruct (body w) as [[a1|e|] w1]; try discriminate.
  - destruct (cleanup w1) as [[[]|e|] w2] eqn:Hc; try discriminate.
    intros [= <- <-]. exists w1. split; [reflexivity|exact Hc].
  - destruct (cleanup w1) as [[[]|e'|] w2]; discriminate.
Qed.

(** ** What a script leaves alone *)

Lemma extends_refl ok w : extends ok w w.
Proof.
  unfold extends. repeat split; try reflexivity. exists []. split; [reflexivity|constructor].
Qed.

Lemma extends_trans ok w1 w2 w3 :
  extends ok w1 w2 -> extends ok w2 w3 -> extends ok w1 w3.
Proof.
  intros (He1 & Hc1 & Ha1 & Hr1 & n1 & Ho1 & Hf1) (He2 & Hc2 & Ha2 & Hr2 & n2 & Ho2 & Hf2).
  unfold extends. repeat split.
  - congruence.
  - lia.
  - intros Hnone. rewrite Ha2, Ha1; congruence.
  - congruence.
  - exists (n2 ++ n1). split.
    + rewrite Ho2, Ho1. apply app_assoc.
    + apply Forall_app. split; assumption.
Qed.

Section Emits.
Variable ok : Message -> Prop.

Lemma emits_ret {A} (a : A) : emits ok (ret a).
Proof. intros w. apply extends_refl. Qed.

Lemma emits_throw {A} e : emits ok (@throw A e).
Proof. intros w. apply extends_refl. Qed.

Lemma emits_outOfFuel {A} : emits ok (@outOfFuel A).
Proof. intros w. apply extends_refl. Qed.

Lemma emits_gets {A} (f : World -> A) : emits ok (gets f).
Proof. intros w. apply extends_refl. Qed.

Lemma emits_checkAbort : emits ok checkAbort.
Proof.
  intros w. unfold checkAbort. destruct (abortRequested w); apply extends_refl.
Qed.

Lemma emits_bind {A B} (m : Js A) (k : A -> Js B) :
  emits ok m -> (forall a, emits ok (k a)) -> emits ok (bind m k).
Proof.
  intros Hm Hk w. unfold bind.
  specialize (Hm w). destruct (m w) as [[a|e|] w1]; simpl in *; try assumption.
  eapply extends_trans; [exact Hm|]. apply Hk.
Qed.

Lemma emits_tryFinally {A} (body : Js A) cleanup :
  emits ok body -> emits ok cleanup -> emits ok (tryFinally body cleanup).
Proof.
  intros Hb Hc w. unfold tryFinally.
  specialize (Hb w). destruct (body w) as [[a|e|] w1]; simpl in *; try assumption;
    specialize (Hc w1); destruct (cleanup w1) as [[[]|e'|] w2]; simpl in *;
    eapply extends_trans; eassumption.
Qed.

Lemma emits_sendMessage m : ok m -> emits ok (sendMessage m).
Proof.
  intros Hm w. unfold extends. simpl. repeat split; try reflexivity.
  exists [m]. split; [reflexivity|]. repeat constructor. exact Hm.
Qed.

Lemma emits_sleep ms : emits ok (sleep ms).
Proof.
  intros w. unfold sleep, modify. simpl.
  destruct (abortAt (env w)) as [a|] eqn:Ha.
  - destruct ((clock w <? a) && (a <=? clock w + Z.max 0 ms));
      unfold extends; simpl; repeat split; try reflexivity; try lia; try congruence;
      (exists []; split; [reflexivity|constructor]).
  - unfold extends; simpl; repeat split; try reflexivity; try lia.
    exists []. split; [reflexivity|constructor].
Qed.

Lemma emits_setPage (f : World -> Page) : emits ok (modify (fun w => setPage (f w) w)).
Proof.
  intros w. unfold extends. simpl. repeat split; try reflexivity.
  exists []. split; [reflexivity|constructor].
Qed.

Lemma emits_click sel : emits ok (click sel).
Proof. apply (emits_setPage (fun w => _)). Qed.

End Emits.

(** Syntax-directed proof that a script only sends acceptable messages:
    one step on the head of the script, without unfolding named scripts. *)
Ltac emits_step :=
  lazymatch goal with
  | |- emits _ (ret _) => apply emits_ret
  | |- emits _ (throw _) => apply emits_throw
  | |- emits _ outOfFuel => apply emits_outOfFuel
  | |- emits _ (gets _) => apply emits_gets
  | |- emits _ checkAbort => apply emits_checkAbort
  | |- emits _ (sleep _) => apply emits_sleep
  | |- emits _ (click _) => apply emits_click
  | |- emits _ (bind _ _) => apply emits_bind; [|intros]
  | |- emits _ (match ?x with _ => _ end) => destruct x
  end.

Lemma emits_setStatus ok msg :
  (forall p, ok (SetStatus msg p)) -> emits ok (setStatus msg).
Proof. intros Hok w. unfold setStatus. apply emits_sendMessage, Hok. Qed.

(* ===================================================================== *)
(** * Part XII. The connection check                                  *)
(* ===================================================================== *)

(** The probe only reads the page. *)
Lemma isConnected_pure w :
  snd (isConnected w) = w /\ exists r, fst (isConnected w) = Returned r.
Proof.
  unfold isConnected, bind, querySelector, querySelectorAllNow, gets, ret. simpl.
  repeat match goal with
         | |- context [match ?x with _ => _ end] => destruct x; simpl
         end; eauto.
Qed.

Lemma isConnected_run w r :
  fst (isConnected w) = Returned r -> isConnected w = (Returned r, w).
Proof.
  intros Hr. destruct (isConnected_pure w) as [Hw _].
  destruct (isConnected w) as [o w']. simpl in *. congruence.
Qed.





(* ===================================================================== *)
(** * Part XIII. One run at a time                                    *)
(* ===================================================================== *)

Lemma contentStep_consistent ev st : consistent st -> consistent (contentStep ev st).
Proof.
  unfold consistent. intros Hst. destruct ev as [request|]; simpl.
  - destruct request as [opts| |]; simpl.
    + destruct (backupRunning (cs_world st)) eqn:Hr; simpl.
      * rewrite Hr. exact Hst.
      * rewrite Hst. reflexivity.
    + exact Hst.
    + exact Hst.
  - destruct (cs_inFlight st) as [|n] eqn:Hn; simpl.
    + rewrite Hn. exact Hst.
    + destruct (backupRunning (cs_world st)); [|discriminate]. now injection Hst.
Qed.

Lemma contentRun_consistent evs st : consistent st -> consistent (contentRun evs st).
Proof.
  unfold contentRun. revert st. induction evs as [|ev evs IH]; intros st Hst; simpl.
  - exact Hst.
  - apply IH, contentStep_consistent, Hst.
Qed.

(** C8.  While the service worker has a run in progress, a start request
    only produces the "already running" error status: the run flag, the
    archive, the active tab and the messages sent to the tab are what they
    were, so no run is started; the keyboard shortcut does nothing at all.
    While the content script has a run in progress, a [runExtraction]
    signal leaves its state unchanged and launches nothing; the events
    that follow are handled exactly as if the signal had never arrived, so
    nothing was queued.  Whatever messages arrive, at most one run is in
    flight in the content script. *)
Theorem at_most_one_run :
  forall (s : Background.State) (b : Background.Browser) tabId options
         (w : World) opts (st : ContentState) (evs : list ContentEvent),
    Background.isRunning s = true ->
    backupRunning w = true ->
    consistent st ->
    (let s' := Background.handleStartBackup b tabId options s in
     s' = Background.updateStatus "backupError" "Backup is already running." None s
     /\ Background.isRunning s' = true
     /\ Background.backupZip s' = Background.backupZip s
     /\ Background.activeTabId s' = Background.activeTabId s
     /\ Background.tabOutbox s' = Background.tabOutbox s)
    /\ (forall command, Background.onCommand b command s = s)
    /\ onMessage (RunExtraction opts) w = (w, None)
    /\ (backupRunning (cs_world st) = true ->
        contentRun (Receive (RunExtraction opts) :: evs) st = contentRun evs st)
    /\ (cs_inFlight (contentRun evs st) <= 1)%nat.
Proof.
  intros s b tabId options w opts st evs Hbusy Hrun Hst.
  split; [|split; [|split; [|split]]].
  - unfold Background.handleStartBackup. rewrite Hbusy. simpl.
    repeat split; try reflexivity. exact Hbusy.
  - intros command. unfold Background.onCommand. rewrite Hbusy.
    destruct (negb _); reflexivity.
  - unfold onMessage. now rewrite Hrun.
  - intros Hr. unfold contentRun. simpl. unfold contentStep at 2. simpl.
    rewrite Hr. destruct st; reflexivity.
  - pose proof (contentRun_consistent evs st Hst) as Hc. unfold consistent in Hc.
    rewrite Hc. destruct (backupRunning (cs_world (contentRun evs st))); lia.
Qed.

(** Witness for [at_most_one_run]: a second start while a backup runs, and
    a duplicate signal followed by a stop request. *)
Lemma at_most_one_run_witness :
  Background.isRunning busyWorker = true
  /\ backupRunning runningWorld = true
  /\ consistent idleContent
  /\ Background.tabOutbox
       (Background.handleStartBackup (browserAt "2026-02-23_14-31") 7
          defaultOptions busyWorker)
     = [(7, RunExtraction (Some defaultOptions))]
  /\ onMessage (RunExtraction None) runningWorld = (runningWorld, None)
  /\ (cs_inFlight
        (contentRun [Receive (RunExtraction None); Receive (RunExtraction None);
                     Receive AbortBackup] idleContent) <= 1)%nat.
Proof.
  assert (Background.isRunning busyWorker = true) as H1 by reflexivity.
  assert (backupRunning runningWorld = true) as H2 by reflexivity.
  assert (consistent idleContent) as H3 by reflexivity.
  destruct (at_most_one_run busyWorker (browserAt "2026-02-23_14-31") 7
              defaultOptions runningWorld None idleContent
              [Receive (RunExtraction None); Receive (RunExtraction None);
               Receive AbortBackup] H1 H2 H3)
    as ((_ & _ & _ & _ & Hout) & _ & Hdup & _ & Hone).
  split; [exact H1|]. split; [exact H2|]. split; [exact H3|].
  split; [rewrite Hout; reflexivity|]. split; [exact Hdup|exact Hone].
Defined.

(* ===================================================================== *)
(** * Part XIV. Saving into the archive                               *)
(* ===================================================================== *)

(** C10.  A [saveFile] request that reaches the service worker while no
    archive is active is answered with a failure and leaves the worker's
    state unchanged.  In particular, once a running backup has been
    stopped the archive is gone, and whatever the content script still
    sends while it unwinds is dropped. *)
Theorem save_without_archive_is_dropped :
  forall (s : Background.State) (b : Background.Browser)
         folderName fileName content isBase64,
    Background.backupZip s = None ->
    Background.onMessage b (Background.BgSaveFile folderName fileName content isBase64) s
    = (s, Background.SaveResult false (Some "No active backup"))
    /\ (forall running,
           Background.isRunning running = true ->
           Background.truthyTab (Background.activeTabId running) = true ->
           Background.backupZip (Background.stopBackup running) = None
           /\ Background.onMessage b
                (Background.BgSaveFile folderName fileName content isBase64)
                (Background.stopBackup running)
              = (Background.stopBackup running,
                 Background.SaveResult false (Some "No active backup"))).
Proof.
  intros s b folderName fileName content isBase64 Hnull.
  split.
  - simpl. unfold Background.saveFile. now rewrite Hnull.
  - intros running Hrun Htab.
    assert (Background.backupZip (Background.stopBackup running) = None) as Hgone.
    { unfold Background.stopBackup. rewrite Hrun, Htab. reflexivity. }
    split; [exact Hgone|].
    simpl. unfold Background.saveFile. now rewrite Hgone.
Qed.

(** Witness for [save_without_archive_is_dropped]: a screenshot arrives
    before any backup was started, and the archive is gone after a stop. *)
Lemma save_without_archive_is_dropped_witness :
  Background.backupZip idleWorker = None
  /\ Background.onMessage (browserAt "2026-02-23_14-30")
       (Background.BgSaveFile "01_Setup" "01_01_Setup.jpg" "data:image/jpeg;base64,AAAA" true)
       idleWorker
     = (idleWorker, Background.SaveResult false (Some "No active backup"))
  /\ Background.backupZip (Background.stopBackup busyWorker) = None.
Proof.
  assert (Background.backupZip idleWorker = None) as H1 by reflexivity.
  destruct (save_without_archive_is_dropped idleWorker (browserAt "2026-02-23_14-30")
              "01_Setup" "01_01_Setup.jpg" "data:image/jpeg;base64,AAAA" true H1)
    as [Hdrop Hstop].
  split; [exact H1|]. split; [exact Hdrop|].
  apply (Hstop busyWorker); reflexivity.
Defined.

(* ===================================================================== *)
(** * Part XV. The capture service                                    *)
(* ===================================================================== *)

Lemma sleep_run ms w : sleep ms w = (Returned tt, snd (sleep ms w)).
Proof. reflexivity. Qed.

Lemma sleep_env ms w : env (snd (sleep ms w)) = env w.
Proof.
  unfold sleep, modify. simpl.
  destruct (abortAt (env w)) as [a|]; [destruct (_ && _)|]; reflexivity.
Qed.

Lemma sleep_clock ms w : clock (snd (sleep ms w)) = clock w + Z.max 0 ms.
Proof.
  unfold sleep, modify. simpl.
  destruct (abortAt (env w)) as [a|]; [destruct (_ && _)|]; reflexivity.
Qed.

Lemma sleep_outbox ms w : outbox (snd (sleep ms w)) = outbox w.
Proof.
  unfold sleep, modify. simpl.
  destruct (abortAt (env w)) as [a|]; [destruct (_ && _)|]; reflexivity.
Qed.

Lemma sleep_lastCaptureTime ms w :
  lastCaptureTime (snd (sleep ms w)) = lastCaptureTime w.
Proof.
  unfold sleep, modify. simpl.
  destruct (abortAt (env w)) as [a|]; [destruct (_ && _)|]; reflexivity.
Qed.

Lemma sleep_progressState ms w : progressState (snd (sleep ms w)) = progressState w.
Proof.
  unfold sleep, modify. simpl.
  destruct (abortAt (env w)) as [a|]; [destruct (_ && _)|]; reflexivity.
Qed.

Lemma sleep_page ms w : page (snd (sleep ms w)) = page w.
Proof.
  unfold sleep, modify. simpl.
  destruct (abortAt (env w)) as [a|]; [destruct (_ && _)|]; reflexivity.
Qed.

Lemma sleep_quiet ms w : quiet w -> quiet (snd (sleep ms w)).
Proof.
  intros [Hflag Hnone]. unfold quiet, sleep, modify. simpl. rewrite Hnone. simpl.
  split; assumption.
Qed.

(** From here on [sleep] is used through the lemmas above. *)
Arguments sleep : simpl never.

(** One failed attempt: the request is stamped and sent, the back-off is
    slept, and the loop goes on with one attempt less. *)
Lemma captureAttempts_failed remaining attempt w :
  captureFails (env w) (clock w) ->
  captureAttempts (S remaining) attempt w
  = captureAttempts remaining (S attempt)
      (snd (sleep (1500 * (Z.of_nat attempt + 1))
                  (pushOutbox CaptureTab (setLastCaptureTime (clock w) w)))).
Proof.
  unfold captureFails. intros Hfail. cbn [captureAttempts].
  unfold bind, modify, sendMessage, gets. simpl. rewrite Hfail. reflexivity.
Qed.

Lemma repeat_shift {A} (x : A) n l : repeat x n ++ x :: l = x :: repeat x n ++ l.
Proof. induction n as [|n IH]; simpl; [reflexivity|]. now rewrite IH. Qed.

(** The attempts never throw, and send between none and [remaining]
    requests. *)
Lemma captureAttempts_bounded remaining attempt w :
  exists r w' n,
    captureAttempts remaining attempt w = (Returned r, w')
    /\ outbox w' = repeat CaptureTab n ++ outbox w
    /\ (n <= remaining)%nat
    /\ (remaining <> O -> n <> O).
Proof.
  revert attempt w. induction remaining as [|remaining IH]; intros attempt w.
  - exists None, w, O. repeat split; try reflexivity. congruence.
  - destruct (truthy (captureResult (captureReply (env w) (clock w)))) eqn:Hres.
    + exists (captureResult (captureReply (env w) (clock w))),
             (pushOutbox CaptureTab (setLastCaptureTime (clock w) w)), 1%nat.
      cbn [captureAttempts]. unfold bind, modify, sendMessage, gets. simpl.
      rewrite Hres. repeat split; try reflexivity; lia.
    + rewrite (captureAttempts_failed _ _ _ Hres).
      destruct (IH (S attempt)
                  (snd (sleep (1500 * (Z.of_nat attempt + 1))
                              (pushOutbox CaptureTab (setLastCaptureTime (clock w) w)))))
        as (r & w' & n & Hrun & Hout & Hle & _).
      exists r, w', (S n). rewrite Hrun, Hout, sleep_outbox. simpl.
      repeat split; try lia.
      apply repeat_shift.
Qed.

Lemma bind_ret {A B} (a : A) (k : A -> Js B) w : bind (ret a) k w = k a w.
Proof. reflexivity. Qed.

Lemma bind_gets {A B} (f : World -> A) (k : A -> Js B) w : bind (gets f) k w = k (f w) w.
Proof. reflexivity. Qed.

Lemma bind_modify {B} (f : World -> World) (k : unit -> Js B) w :
  bind (modify f) k w = k tt (f w).
Proof. reflexivity. Qed.

Lemma bind_sleep {B} ms (k : unit -> Js B) w :
  bind (sleep ms) k w = k tt (snd (sleep ms w)).
Proof. reflexivity. Qed.

Lemma bind_sendMessage {B} m (k : unit -> Js B) w :
  bind (sendMessage m) k w = k tt (pushOutbox m w).
Proof. reflexivity. Qed.

Lemma bind_setStatus {B} msg (k : unit -> Js B) w :
  bind (setStatus msg) k w = k tt (pushOutbox (SetStatus msg (progressState w)) w).
Proof. reflexivity. Qed.

Lemma bind_checkAbort_quiet {B} (k : unit -> Js B) w :
  abortRequested w = false -> bind checkAbort k w = k tt w.
Proof. intros Hq. unfold bind, checkAbort. now rewrite Hq. Qed.

Lemma captureAttempts_always_fail remaining attempt w :
  (forall t, captureFails (env w) t) ->
  exists w',
    captureAttempts remaining attempt w = (Returned None, w')
    /\ outbox w' = repeat CaptureTab remaining ++ outbox w
    /\ env w' = env w
    /\ progressState w' = progressState w
    /\ page w' = page w
    /\ (quiet w -> quiet w').
Proof.
  revert attempt w. induction remaining as [|remaining IH]; intros attempt w Hfail.
  - exists w. do 5 (split; [reflexivity|]). intros Hq; exact Hq.
  - rewrite (captureAttempts_failed _ _ _ (Hfail (clock w))).
    set (w1 := snd (sleep _ _)).
    assert (env w1 = env w) as Henv by (subst w1; now rewrite sleep_env).
    destruct (IH (S attempt) w1) as (w' & Hrun & Hout & He & Hp & Hpg & Hq).
    { rewrite Henv. exact Hfail. }
    exists w'. split; [exact Hrun|].
    subst w1. rewrite sleep_outbox in Hout. rewrite sleep_progressState in Hp.
    rewrite sleep_page in Hpg.
    split; [|split; [|split; [|split]]].
    + rewrite Hout. simpl. apply repeat_shift.
    + congruence.
    + exact Hp.
    + exact Hpg.
    + intros Hquiet. apply Hq, sleep_quiet. exact Hquiet.
Qed.

Lemma requestScreenshot_always_fail w :
  (forall t, captureFails (env w) t) ->
  exists w',
    requestScreenshot w = (Returned None, w')
    /\ outbox w' = [CaptureTab; CaptureTab; CaptureTab] ++ outbox w
    /\ env w' = env w
    /\ progressState w' = progressState w
    /\ page w' = page w
    /\ (quiet w -> quiet w').
Proof.
  intros Hfail. unfold requestScreenshot. rewrite !bind_gets.
  destruct (0 <? MIN_CAPTURE_INTERVAL - (clock w - lastCaptureTime w)).
  - rewrite bind_sleep. set (w1 := snd (sleep _ w)).
    destruct (captureAttempts_always_fail 3 0 w1) as (w' & Hrun & Hout & He & Hp & Hpg & Hq).
    { subst w1. rewrite sleep_env. exact Hfail. }
    exists w'. subst w1.
    rewrite sleep_outbox in Hout. rewrite sleep_env in He.
    rewrite sleep_progressState in Hp. rewrite sleep_page in Hpg.
    do 5 (split; [assumption|]).
    intros Hquiet. apply Hq, sleep_quiet, Hquiet.
  - rewrite bind_ret. apply captureAttempts_always_fail. exact Hfail.
Qed.

Lemma scrollLoop_first_capture_fails fuel baseFileName w :
  (forall t, captureFails (env w) t) ->
  quiet w ->
  exists w',
    scrollLoop (S fuel) baseFileName [] [] w = (Returned ([], []), w')
    /\ outbox w'
       = SetStatus ("WARNING: Screenshot failed for " +:+ baseFileName) (progressState w)
         :: [CaptureTab; CaptureTab; CaptureTab] ++ outbox w.
Proof.
  intros Hfail Hquiet. cbn [scrollLoop].
  rewrite (bind_checkAbort_quiet _ _ (proj1 Hquiet)).
  destruct (requestScreenshot_always_fail w Hfail) as (w1 & Hrun & Hout & _ & Hp & _).
  rewrite (bind_run _ _ _ _ _ Hrun), bind_setStatus.
  eexists. split; [reflexivity|]. simpl. now rewrite Hout, Hp.
Qed.

(** With the capture primitive down, a panel capture sends its three
    requests, reports the warning and returns: nothing is saved and
    nothing is thrown, whether or not the panel scrolls. *)
Lemma captureAndSave_skips_failed_capture fuel folderName baseFileName w :
  (forall t, captureFails (env w) t) ->
  quiet w ->
  (1 <= fuel)%nat ->
  exists w',
    captureAndSave fuel folderName baseFileName w = (Returned tt, w')
    /\ outbox w'
       = SetStatus ("WARNING: Screenshot failed for " +:+ baseFileName) (progressState w)
         :: [CaptureTab; CaptureTab; CaptureTab] ++ outbox w.
Proof.
  intros Hfail Hquiet Hfuel.
  unfold captureAndSave, assignScrollTop.
  rewrite bind_modify, bind_sleep, !bind_gets.
  set (w1 := snd (sleep 300 _)).
  assert (env w1 = env w) as He1 by (subst w1; rewrite sleep_env; reflexivity).
  assert (outbox w1 = outbox w) as Ho1 by (subst w1; rewrite sleep_outbox; reflexivity).
  assert (progressState w1 = progressState w) as Hp1
    by (subst w1; rewrite sleep_progressState; reflexivity).
  assert (quiet w1) as Hq1 by (subst w1; apply sleep_quiet; exact Hquiet).
  destruct (scrollHeight w1 - clientHeight w1 <=? 100).
  - (* the panel does not scroll *)
    destruct (requestScreenshot_always_fail w1) as (w2 & Hrun & Hout & _ & Hp & _).
    { rewrite He1. exact Hfail. }
    rewrite (bind_run _ _ _ _ _ Hrun).
    eexists. split; [reflexivity|]. simpl. now rewrite Hout, Hp, Ho1, Hp1.
  - (* the panel scrolls: the loop stops at the first capture *)
    destruct fuel as [|fuel]; [lia|].
    unfold hideStickyBottomElements at 1. unfold bind at 1.
    set (w2 := setPage _ w1).
    unfold tryFinally. rewrite bind_modify, bind_sleep.
    set (w3 := snd (sleep 200 _)).
    assert (env w3 = env w) as He3 by (subst w3; rewrite sleep_env; exact He1).
    assert (outbox w3 = outbox w) as Ho3 by (subst w3; rewrite sleep_outbox; exact Ho1).
    assert (progressState w3 = progressState w) as Hp3
      by (subst w3; rewrite sleep_progressState; exact Hp1).
    assert (quiet w3) as Hq3.
    { subst w3. apply sleep_quiet. destruct Hq1 as [Ha Hb]. split; assumption. }
    destruct (scrollLoop_first_capture_fails fuel baseFileName w3) as (w4 & Hrun & Hout);
      [rewrite He3; exact Hfail|exact Hq3|].
    rewrite (bind_run _ _ _ _ _ Hrun). cbn [saveCaptured fst snd ret].
    unfold restoreStickyBottomElements, modify.
    eexists. split; [reflexivity|]. simpl. now rewrite Hout, Hp3, Ho3.
Qed.

Lemma captureAttempts_three_failures w :
  captureFails (env w) (clock w) ->
  captureFails (env w) (clock w + 1500 * 1) ->
  captureFails (env w) (clock w + 1500 * 1 + 1500 * 2) ->
  exists w',
    captureAttempts 3 0 w = (Returned None, w')
    /\ outbox w' = [CaptureTab; CaptureTab; CaptureTab] ++ outbox w
    /\ lastCaptureTime w' = clock w + 1500 * 1 + 1500 * 2
    /\ clock w' = clock w + 1500 * 1 + 1500 * 2 + 1500 * 3.
Proof.
  intros H1 H2 H3.
  rewrite (captureAttempts_failed _ _ _ H1).
  set (w1 := snd (sleep _ _)).
  assert (env w1 = env w) as He1 by (subst w1; now rewrite sleep_env).
  assert (clock w1 = clock w + 1500 * 1) as Hc1
    by (subst w1; rewrite sleep_clock; simpl; lia).
  assert (outbox w1 = CaptureTab :: outbox w) as Ho1
    by (subst w1; now rewrite sleep_outbox).
  rewrite captureAttempts_failed by (rewrite He1, Hc1; exact H2).
  set (w2 := snd (sleep _ _)).
  assert (env w2 = env w) as He2 by (subst w2; now rewrite sleep_env).
  assert (clock w2 = clock w + 1500 * 1 + 1500 * 2) as Hc2
    by (subst w2; rewrite sleep_clock; simpl; lia).
  assert (outbox w2 = CaptureTab :: outbox w1) as Ho2
    by (subst w2; now rewrite sleep_outbox).
  rewrite captureAttempts_failed by (rewrite He2, Hc2; exact H3).
  set (w3 := snd (sleep _ _)).
  exists w3. split; [reflexivity|].
  subst w3. rewrite sleep_outbox, sleep_lastCaptureTime, sleep_clock. simpl.
  rewrite Ho2, Ho1, Hc2. repeat split; lia.
Qed.

(** C5.  If the capture primitive fails (or times out) at the instant of
    the first attempt and again 1500 ms and a further 3000 ms later — the
    base delay times the attempt number — then the capture service has
    made exactly three attempts, waits a last back-off, and returns the
    failure value [null] without throwing.  Whatever the primitive does,
    the service returns a value and makes between one and three attempts.
    A panel capture that gets [null] reports a warning, saves nothing and
    returns normally, so the run continues. *)
Theorem capture_retries_then_gives_up :
  forall w : World,
    let t0 := clock w + Z.max 0 (MIN_CAPTURE_INTERVAL - (clock w - lastCaptureTime w)) in
    captureFails (env w) t0 ->
    captureFails (env w) (t0 + 1500 * 1) ->
    captureFails (env w) (t0 + 1500 * 1 + 1500 * 2) ->
    (exists w',
        requestScreenshot w = (Returned None, w')
        /\ outbox w' = [CaptureTab; CaptureTab; CaptureTab] ++ outbox w
        /\ lastCaptureTime w' = t0 + 1500 * 1 + 1500 * 2
        /\ clock w' = t0 + 1500 * 1 + 1500 * 2 + 1500 * 3)
    /\ (forall w2, exists r w2' n,
           requestScreenshot w2 = (Returned r, w2')
           /\ outbox w2' = repeat CaptureTab n ++ outbox w2
           /\ (1 <= n <= 3)%nat)
    /\ (forall fuel folderName baseFileName,
           (forall t, captureFails (env w) t) -> quiet w -> (1 <= fuel)%nat ->
           exists w',
             captureAndSave fuel folderName baseFileName w = (Returned tt, w')
             /\ outbox w'
                = SetStatus ("WARNING: Screenshot failed for " +:+ baseFileName)
                            (progressState w)
                  :: [CaptureTab; CaptureTab; CaptureTab] ++ outbox w).
Proof.
  intros w t0 H1 H2 H3. split; [|split].
  - unfold requestScreenshot. rewrite !bind_gets.
    destruct (0 <? MIN_CAPTURE_INTERVAL - (clock w - lastCaptureTime w)) eqn:Hwait.
    + apply Z.ltb_lt in Hwait. rewrite bind_sleep.
      set (w0 := snd (sleep _ w)).
      assert (env w0 = env w) as He by (subst w0; now rewrite sleep_env).
      assert (clock w0 = t0) as Hc by (subst w0 t0; now rewrite sleep_clock).
      destruct (captureAttempts_three_failures w0) as (w' & Hrun & Hout & Hlast & Hclock);
        try (rewrite He, Hc; assumption).
      exists w'. rewrite Hc in Hlast, Hclock.
      subst w0. rewrite sleep_outbox in Hout. repeat split; assumption.
    + apply Z.ltb_ge in Hwait. rewrite bind_ret.
      assert (clock w = t0) as Hc by (subst t0; lia).
      destruct (captureAttempts_three_failures w) as (w' & Hrun & Hout & Hlast & Hclock);
        try (rewrite Hc; assumption).
      exists w'. rewrite Hc in Hlast, Hclock. repeat split; assumption.
  - intros w2. unfold requestScreenshot. rewrite !bind_gets.
    destruct (0 <? MIN_CAPTURE_INTERVAL - (clock w2 - lastCaptureTime w2)).
    + rewrite bind_sleep.
      destruct (captureAttempts_bounded 3 0 (snd (sleep (MIN_CAPTURE_INTERVAL
                                                         - (clock w2 - lastCaptureTime w2)) w2)))
        as (r & w' & n & Hrun & Hout & Hle & Hpos).
      exists r, w', n. rewrite sleep_outbox in Hout.
      repeat split; try assumption. specialize (Hpos ltac:(discriminate)). lia.
    + rewrite bind_ret.
      destruct (captureAttempts_bounded 3 0 w2) as (r & w' & n & Hrun & Hout & Hle & Hpos).
      exists r, w', n. repeat split; try assumption.
      specialize (Hpos ltac:(discriminate)). lia.
  - intros fuel folderName baseFileName Hfail Hquiet Hfuel.
    apply captureAndSave_skips_failed_capture; assumption.
Qed.

(** Witness for [capture_retries_then_gives_up]: a browser on which every
    capture times out. *)
Lemma capture_retries_then_gives_up_witness :
  captureFails brokenCaptureEnv 1100
  /\ captureFails brokenCaptureEnv 2600
  /\ captureFails brokenCaptureEnv 5600
  /\ exists w',
      requestScreenshot (freshWorld brokenCaptureEnv emptyPage) = (Returned None, w')
      /\ outbox w' = [CaptureTab; CaptureTab; CaptureTab]
      /\ lastCaptureTime w' = 5600
      /\ clock w' = 10100.
Proof.
  assert (forall t, captureFails brokenCaptureEnv t) as Hfail by (intros t; reflexivity).
  split; [apply Hfail|]. split; [apply Hfail|]. split; [apply Hfail|].
  destruct (capture_retries_then_gives_up (freshWorld brokenCaptureEnv emptyPage)
              (Hfail _) (Hfail _) (Hfail _))
    as [(w' & Hrun & Hout & Hlast & Hclock) _].
  exists w'. repeat split; assumption.
Defined.

(* ===================================================================== *)
(** * Part XVI. Waiting for the terminal to fall silent              *)
(* ===================================================================== *)

(** One turn of the polling loop, spelled out. *)
Lemma waitLoop_unfold fuel start maxMs lastLen stable w :
  waitLoop (S fuel) start maxMs lastLen stable w =
  if clock w - start <? maxMs then
    if abortRequested w then (Thrown "Backup stopped by user.", w)
    else
      let w1 := snd (sleep 1000 w) in
      if abortRequested w1 then (Thrown "Backup stopped by user.", w1)
      else
        let w2 := pushOutbox (CliExecute OpRead) w1 in
        let len := String.length (terminalText (env w1) (clock w1)) in
        if (lastLen <? len)%nat then waitLoop fuel start maxMs len 0 w2
        else if (0 <? len)%nat then
          if (2 <=? S stable)%nat then (Returned Stable, w2)
          else waitLoop fuel start maxMs lastLen (S stable) w2
        else waitLoop fuel start maxMs lastLen stable w2
  else (Returned TimedOut, w).
Proof.
  cbn [waitLoop]. rewrite bind_gets.
  destruct (clock w - start <? maxMs); [|reflexivity].
  unfold bind at 1. unfold checkAbort at 1.
  destruct (abortRequested w); [reflexivity|].
  rewrite bind_sleep. unfold bind at 1. unfold checkAbort at 1.
  destruct (abortRequested (snd (sleep 1000 w))); [reflexivity|].
  cbv zeta. generalize (snd (sleep 1000 w)). intros w1.
  unfold cliRead, bind, sendMessage, modify, gets, ret.
  cbn [env clock pushOutbox].
  destruct (lastLen <? _)%nat; [reflexivity|].
  destruct (0 <? _)%nat; [|reflexivity].
  destruct (2 <=? S stable)%nat; reflexivity.
Qed.

Lemma countersMean_start L : countersMean L 0 0 0.
Proof.
  split; [intros i Hi; lia|]. exists O. split; [lia|]. split; [reflexivity|].
  split; [congruence|]. left. split; [reflexivity|]. intros i Hi. lia.
Qed.

Section WaitLoop.
Variable e : Env.
Variables start maxMs : Z.

Let L := pollLength e start.

(** Stability is only ever declared at the second quiet poll since the
    last growth, and while the time is not up. *)
Lemma waitLoop_stable_inv fuel :
  forall k lastLen stable w w',
    env w = e ->
    clock w = start + 1000 * Z.of_nat k ->
    countersMean L k lastLen stable ->
    waitLoop fuel start maxMs lastLen stable w = (Returned Stable, w') ->
    exists g j k',
      secondQuietPoll L g j k'
      /\ clock w' = start + 1000 * Z.of_nat k'
      /\ 1000 * (Z.of_nat k' - 1) < maxMs.
Proof.
  induction fuel as [|fuel IH]; intros k lastLen stable w w' He Hc Hinv Hrun.
  - discriminate.
  - rewrite waitLoop_unfold in Hrun.
    destruct (clock w - start <? maxMs) eqn:Htime; [|discriminate].
    apply Z.ltb_lt in Htime.
    destruct (abortRequested w); [discriminate|].
    cbv zeta in Hrun.
    destruct (abortRequested (snd (sleep 1000 w))); [discriminate|].
    set (w1 := snd (sleep 1000 w)) in *.
    assert (env w1 = e) as He1 by (subst w1; rewrite sleep_env; exact He).
    assert (clock w1 = start + 1000 * Z.of_nat (S k)) as Hc1
      by (subst w1; rewrite sleep_clock, Hc; lia).
    rewrite He1, Hc1 in Hrun. fold (pollLength e start (S k)) in Hrun. fold L in Hrun.
    destruct Hinv as (Hmax & g & Hg & Hzero & Hlast & Hcount).
    destruct (lastLen <? L (S k))%nat eqn:Hgrow.
    + (* growth: the count starts again *)
      apply Nat.ltb_lt in Hgrow.
      eapply IH in Hrun; [exact Hrun|exact He1|exact Hc1|].
      split.
      { intros i Hi. destruct (Nat.eq_dec i (S k)) as [->|Hne]; [lia|].
        specialize (Hmax i ltac:(lia)). lia. }
      exists (S k). split; [lia|]. split; [discriminate|]. split.
      { intros _. split; [|reflexivity]. split; [lia|]. split; [lia|].
        intros i Hi. specialize (Hmax i ltac:(lia)). lia. }
      left. split; [reflexivity|]. intros i Hi. lia.
    + apply Nat.ltb_ge in Hgrow.
      destruct (0 <? L (S k))%nat eqn:Hnonempty.
      * apply Nat.ltb_lt in Hnonempty.
        assert (g <> O) as Hg0 by (intros Heq; specialize (Hzero Heq); lia).
        destruct (Hlast Hg0) as [Hrecord HlastLen].
        destruct Hcount as [[-> Hnone]|(-> & j & Hj & Hjpos & Hothers)].
        -- (* first quiet poll *)
           cbn [Nat.leb] in Hrun.
           eapply IH in Hrun; [exact Hrun|exact He1|exact Hc1|].
           split.
           { intros i Hi. destruct (Nat.eq_dec i (S k)) as [->|Hne]; [lia|].
             apply Hmax. lia. }
           exists g. split; [lia|]. split; [exact Hzero|]. split; [exact Hlast|].
           right. split; [reflexivity|]. exists (S k).
           split; [lia|]. split; [exact Hnonempty|].
           intros i Hi Hne. apply Hnone. lia.
        -- (* second quiet poll: stable *)
           cbn [Nat.leb] in Hrun. injection Hrun as <-.
           exists g, j, (S k). split; [|split; [exact Hc1|lia]].
           split; [exact Hrecord|]. split; [lia|]. split; [exact Hjpos|].
           split; [exact Hnonempty|]. split.
           ++ intros i Hi. rewrite <- HlastLen.
              destruct (Nat.eq_dec i (S k)) as [->|Hne]; [exact Hgrow|].
              apply Hmax. lia.
           ++ intros i Hi Hne. apply Hothers; [lia|exact Hne].
      * (* empty output: nothing changes *)
        apply Nat.ltb_ge in Hnonempty.
        eapply IH in Hrun; [exact Hrun|exact He1|exact Hc1|].
        split.
        { intros i Hi. destruct (Nat.eq_dec i (S k)) as [->|Hne]; [lia|].
          apply Hmax. lia. }
        exists g. split; [lia|]. split; [exact Hzero|]. split; [exact Hlast|].
        destruct Hcount as [[-> Hnone]|(-> & j & Hj & Hjpos & Hothers)].
        -- left. split; [reflexivity|]. intros i Hi.
           destruct (Nat.eq_dec i (S k)) as [->|Hne]; [lia|]. apply Hnone. lia.
        -- right. split; [reflexivity|]. exists j. split; [lia|]. split; [exact Hjpos|].
           intros i Hi Hne.
           destruct (Nat.eq_dec i (S k)) as [->|Hne']; [lia|]. apply Hothers; [lia|exact Hne].
Qed.

(** Conversely, on the way to a second quiet poll [k] the loop declares
    the output stable at [k], unless it has done so before. *)
Lemma waitLoop_reaches g j k fuel :
  secondQuietPoll L g j k ->
  1000 * (Z.of_nat k - 1) < maxMs ->
  forall i lastLen stable w,
    env w = e ->
    clock w = start + 1000 * Z.of_nat i ->
    quiet w ->
    (i < k)%nat ->
    (k - i <= fuel)%nat ->
    onTheWay L g j i lastLen stable ->
    exists k' w',
      (k' <= k)%nat
      /\ waitLoop fuel start maxMs lastLen stable w = (Returned Stable, w')
      /\ clock w' = start + 1000 * Z.of_nat k'.
Proof.
  intros ((Hg1 & Hgpos & Hrecord) & Hgjk & Hjpos & Hkpos & Hnogrow & Hothers) Htime.
  induction fuel as [|fuel IH]; intros i lastLen stable w He Hc Hq Hik Hfuel Hway; [lia|].
  rewrite waitLoop_unfold.
  assert ((clock w - start <? maxMs) = true) as -> by (apply Z.ltb_lt; lia).
  assert (abortRequested w = false) as -> by exact (proj1 Hq).
  cbv zeta.
  pose proof (sleep_quiet 1000 w Hq) as Hq1.
  set (w1 := snd (sleep 1000 w)) in *.
  assert (abortRequested w1 = false) as -> by exact (proj1 Hq1).
  assert (env w1 = e) as He1 by (subst w1; rewrite sleep_env; exact He).
  assert (clock w1 = start + 1000 * Z.of_nat (S i)) as Hc1
    by (subst w1; rewrite sleep_clock, Hc; lia).
  rewrite He1, Hc1. fold (pollLength e start (S i)). fold L.
  assert (forall lastLen' stable',
             (S i < k)%nat ->
             onTheWay L g j (S i) lastLen' stable' ->
             exists k' w',
               (k' <= k)%nat
               /\ waitLoop fuel start maxMs lastLen' stable'
                    (pushOutbox (CliExecute OpRead) w1) = (Returned Stable, w')
               /\ clock w' = start + 1000 * Z.of_nat k') as Hnext.
  { intros lastLen' stable' Hlt Hway'.
    apply (IH (S i)); [exact He1|exact Hc1|exact Hq1|exact Hlt|lia|exact Hway']. }
  assert (exists k' w',
             (k' <= k)%nat
             /\ (Returned Stable, pushOutbox (CliExecute OpRead) w1) = (Returned Stable, w')
             /\ clock w' = start + 1000 * Z.of_nat k') as Hnow.
  { exists (S i), (pushOutbox (CliExecute OpRead) w1).
    split; [lia|]. split; [reflexivity|exact Hc1]. }
  destruct Hway as [[Hbefore Hshort]|[(Hafter & -> & ->)|(Hafter & -> & ->)]].
  - (* before the growth at [g] *)
    destruct (Nat.eq_dec (S i) g) as [Heq|Hne].
    + rewrite Heq. apply Nat.ltb_lt in Hshort. rewrite Hshort.
      apply Hnext; [lia|]. right. left. repeat split; lia.
    + assert (L (S i) < L g)%nat as Hless by (apply Hrecord; lia).
      destruct (lastLen <? L (S i))%nat.
      * apply Hnext; [lia|]. left. split; [lia|exact Hless].
      * destruct (0 <? L (S i))%nat.
        -- destruct (2 <=? S stable)%nat; [exact Hnow|].
           apply Hnext; [lia|]. left. split; [lia|exact Hshort].
        -- apply Hnext; [lia|]. left. split; [lia|exact Hshort].
  - (* between the growth and the first quiet poll *)
    assert (L (S i) <= L g)%nat as Hle by (apply Hnogrow; lia).
    apply Nat.ltb_ge in Hle. rewrite Hle.
    destruct (Nat.eq_dec (S i) j) as [Heq|Hne].
    + rewrite Heq. apply Nat.ltb_lt in Hjpos. rewrite Hjpos. cbn [Nat.leb].
      apply Hnext; [lia|]. right. right. repeat split; lia.
    + rewrite (Hothers (S i) ltac:(lia) Hne). cbn [Nat.ltb Nat.leb].
      apply Hnext; [lia|]. right. left. repeat split; lia.
  - (* between the two quiet polls *)
    assert (L (S i) <= L g)%nat as Hle by (apply Hnogrow; lia).
    apply Nat.ltb_ge in Hle. rewrite Hle.
    destruct (Nat.eq_dec (S i) k) as [Heq|Hne].
    + subst k. apply Nat.ltb_lt in Hkpos. rewrite Hkpos. cbn [Nat.leb]. exact Hnow.
    + rewrite (Hothers (S i) ltac:(lia) ltac:(lia)). cbn [Nat.ltb Nat.leb].
      apply Hnext; [lia|]. right. right. repeat split; lia.
Qed.

(** The loop ends in one of three ways, and never for want of fuel, as
    long as the fuel covers the seconds that remain. *)
Lemma waitLoop_outcome fuel :
  forall k lastLen stable w,
    clock w = start + 1000 * Z.of_nat k ->
    (1 <= fuel)%nat ->
    maxMs <= 1000 * (Z.of_nat k + Z.of_nat fuel - 1) ->
    let r := fst (waitLoop fuel start maxMs lastLen stable w) in
    (r = Returned Stable \/ r = Returned TimedOut \/ r = Thrown "Backup stopped by user.")
    /\ (quiet w -> r = Returned Stable \/ r = Returned TimedOut).
Proof.
  induction fuel as [|fuel IH]; intros k lastLen stable w Hc Hfuel Hmax; [lia|].
  cbv zeta. rewrite waitLoop_unfold.
  destruct (clock w - start <? maxMs) eqn:Htime.
  2:{ simpl. split; [right; left; reflexivity|intros _; right; reflexivity]. }
  apply Z.ltb_lt in Htime.
  destruct (abortRequested w) eqn:Ha.
  { simpl. split; [right; right; reflexivity|]. intros [Hq _]. congruence. }
  cbv zeta.
  set (w1 := snd (sleep 1000 w)).
  assert (clock w1 = start + 1000 * Z.of_nat (S k)) as Hc1
    by (subst w1; rewrite sleep_clock, Hc; lia).
  assert (quiet w -> quiet (pushOutbox (CliExecute OpRead) w1)) as Hq1.
  { intros Hq. apply (sleep_quiet 1000) in Hq. exact Hq. }
  destruct (abortRequested w1) eqn:Ha1.
  { simpl. split; [right; right; reflexivity|].
    intros Hq. apply Hq1 in Hq. destruct Hq as [Hq _]. simpl in Hq. congruence. }
  assert (forall lastLen' stable',
             let r := fst (waitLoop fuel start maxMs lastLen' stable'
                                    (pushOutbox (CliExecute OpRead) w1)) in
             (r = Returned Stable \/ r = Returned TimedOut
              \/ r = Thrown "Backup stopped by user.")
             /\ (quiet w -> r = Returned Stable \/ r = Returned TimedOut)) as Hrec.
  { intros lastLen' stable'.
    destruct (IH (S k) lastLen' stable' (pushOutbox (CliExecute OpRead) w1))
      as [Hany Hquiet]; [exact Hc1|lia|lia|].
    split; [exact Hany|]. intros Hq. apply Hquiet, Hq1, Hq. }
  destruct (_ <? _)%nat; [apply Hrec|].
  destruct (0 <? _)%nat; [|apply Hrec].
  destruct (2 <=? S stable)%nat; [|apply Hrec].
  simpl. split; [left; reflexivity|intros _; left; reflexivity].
Qed.

(** Every turn of the loop takes one second and reads the terminal once;
    the loop is left without a verdict only when the time is up. *)
Lemma waitLoop_polls fuel :
  forall lastLen stable w x w',
    waitLoop fuel start maxMs lastLen stable w = (Returned x, w') ->
    exists n,
      clock w' = clock w + 1000 * Z.of_nat n
      /\ outbox w' = repeat (CliExecute OpRead) n ++ outbox w
      /\ (x = TimedOut -> maxMs <= clock w' - start).
Proof.
  induction fuel as [|fuel IH]; intros lastLen stable w x w' Hrun; [discriminate|].
  rewrite waitLoop_unfold in Hrun.
  destruct (clock w - start <? maxMs) eqn:Htime.
  2:{ injection Hrun as <- <-. apply Z.ltb_ge in Htime.
      exists O. repeat split; simpl; lia. }
  destruct (abortRequested w); [discriminate|].
  cbv zeta in Hrun.
  assert (clock (snd (sleep 1000 w)) = clock w + 1000) as Hc1
    by (rewrite sleep_clock; lia).
  pose proof (sleep_outbox 1000 w) as Ho1.
  remember (snd (sleep 1000 w)) as w1 eqn:Hw1. clear Hw1.
  destruct (abortRequested w1); [discriminate|].
  assert (forall lastLen' stable',
             waitLoop fuel start maxMs lastLen' stable'
                      (pushOutbox (CliExecute OpRead) w1) = (Returned x, w') ->
             exists n,
               clock w' = clock w + 1000 * Z.of_nat n
               /\ outbox w' = repeat (CliExecute OpRead) n ++ outbox w
               /\ (x = TimedOut -> maxMs <= clock w' - start)) as Hrec.
  { intros lastLen' stable' Hrun'.
    apply IH in Hrun' as (n & Hclock & Hout & Htimed).
    cbn [clock outbox pushOutbox] in Hclock, Hout.
    exists (S n). split; [lia|]. split; [|exact Htimed].
    rewrite Hout, Ho1. simpl. apply repeat_shift. }
  destruct (_ <? _)%nat; [eapply Hrec; exact Hrun|].
  destruct (0 <? _)%nat; [|eapply Hrec; exact Hrun].
  destruct (2 <=? S stable)%nat; [|eapply Hrec; exact Hrun].
  injection Hrun as <- <-.
  exists 1%nat. cbn [clock outbox pushOutbox]. rewrite Ho1.
  repeat split; try lia. discriminate.
Qed.
End WaitLoop.

Lemma cliWaitForStableOutput_unfold maxMs w :
  cliWaitForStableOutput maxMs w
  = waitLoop (S (Z.to_nat (maxMs / 1000 + 1))) (clock w) maxMs 0 0 w.
Proof. reflexivity. Qed.

Lemma strictly_growing_lt (L : nat -> nat) :
  (forall k, (1 <= k)%nat -> (L k < L (S k))%nat) ->
  forall g j, (1 <= g < j)%nat -> (L g < L j)%nat.
Proof.
  intros Hgrow g j [Hg Hgj]. induction Hgj as [|j Hle IH].
  - apply Hgrow, Hg.
  - etransitivity; [exact IH|]. apply Hgrow. lia.
Qed.

(** C6 (as amended).  The wait polls the terminal once per second.  It
    declares the output stable only at a poll that is the second, since
    the output was last seen to grow, with non-empty output no longer than
    the longest output seen so far; polls that read nothing are skipped and
    a shorter output counts as quiet.  Conversely, when such a poll comes
    before the time is up and no stop request arrives, the wait declares
    the output stable at that poll, if it has not done so before.  For an
    output whose length strictly increases at every poll, stability is
    never declared.  The wait always ends: with a verdict, with the
    time-out once [maxMs] has elapsed, or by the user's stop request;
    without a stop request it returns normally. *)
Theorem quiescence_wait :
  forall (maxMs : Z) (w : World),
    let L := pollLength (env w) (clock w) in
    let run := cliWaitForStableOutput maxMs w in
    (forall w', run = (Returned Stable, w') ->
                exists g j k,
                  secondQuietPoll L g j k
                  /\ clock w' = clock w + 1000 * Z.of_nat k
                  /\ 1000 * (Z.of_nat k - 1) < maxMs)
    /\ (forall g j k,
           quiet w ->
           secondQuietPoll L g j k ->
           1000 * (Z.of_nat k - 1) < maxMs ->
           exists k' w',
             (k' <= k)%nat
             /\ run = (Returned Stable, w')
             /\ clock w' = clock w + 1000 * Z.of_nat k')
    /\ ((forall k, (1 <= k)%nat -> (L k < L (S k))%nat) -> fst run <> Returned Stable)
    /\ (forall verdict w',
           run = (Returned verdict, w') ->
           exists n,
             clock w' = clock w + 1000 * Z.of_nat n
             /\ outbox w' = repeat (CliExecute OpRead) n ++ outbox w
             /\ (verdict = TimedOut -> maxMs <= 1000 * Z.of_nat n))
    /\ (fst run = Returned Stable \/ fst run = Returned TimedOut
        \/ fst run = Thrown "Backup stopped by user.")
    /\ (quiet w -> fst run = Returned Stable \/ fst run = Returned TimedOut).
Proof.
  intros maxMs w L run. subst run. rewrite cliWaitForStableOutput_unfold.
  assert (forall w', waitLoop (S (Z.to_nat (maxMs / 1000 + 1))) (clock w) maxMs 0 0 w
                     = (Returned Stable, w') ->
                     exists g j k,
                       secondQuietPoll L g j k
                       /\ clock w' = clock w + 1000 * Z.of_nat k
                       /\ 1000 * (Z.of_nat k - 1) < maxMs) as Honly.
  { intros w' Hrun.
    eapply waitLoop_stable_inv with (k := O);
      [reflexivity|simpl; lia|apply countersMean_start|exact Hrun]. }
  split; [exact Honly|]. split; [|split; [|split]].
  - intros g j k Hq Hpoll Htime.
    apply (waitLoop_reaches (env w) (clock w) maxMs g j k _ Hpoll Htime O O O w);
      [reflexivity|simpl; lia|exact Hq| | |].
    + destruct Hpoll as (_ & Hgjk & _). lia.
    + assert (Z.of_nat k - 1 <= maxMs / 1000) as Hdiv
        by (apply Z.div_le_lower_bound; lia).
      lia.
    + left. destruct Hpoll as ((Hg1 & Hgpos & _) & _). split; [lia|exact Hgpos].
  - intros Hgrow Hstable.
    destruct (waitLoop _ _ _ _ _ w) as [r w'] eqn:Hrun. simpl in Hstable. subst r.
    destruct (Honly w' eq_refl)
      as (g & j & k & ((Hg1 & _) & Hgjk & _ & _ & Hno & _) & _).
    pose proof (strictly_growing_lt L Hgrow g j ltac:(lia)) as Hlt.
    specialize (Hno j ltac:(lia)). lia.
  - intros verdict w' Hrun.
    apply waitLoop_polls in Hrun as (n & Hclock & Hout & Htimed).
    exists n. repeat split; try assumption.
    intros Hv. specialize (Htimed Hv). lia.
  - assert (maxMs <= 1000 * (Z.of_nat 0 + Z.of_nat (S (Z.to_nat (maxMs / 1000 + 1))) - 1))
      as Hfuel.
    { pose proof (Z.div_mod maxMs 1000 ltac:(lia)) as Hdm.
      pose proof (Z.mod_pos_bound maxMs 1000 ltac:(lia)) as Hmod.
      destruct (Z_lt_le_dec (maxMs / 1000 + 1) 0) as [Hneg|Hpos].
      - rewrite Z2Nat.nonpos by lia. lia.
      - rewrite Nat2Z.inj_succ, Z2Nat.id by lia. lia. }
    apply (waitLoop_outcome (clock w) maxMs _ O O O w); [simpl; lia|lia|exact Hfuel].
Qed.

Lemma filler_length n : String.length (filler n) = n.
Proof. induction n as [|n IH]; simpl; [reflexivity|]. now rewrite IH. Qed.

Lemma pollLength_terminalEnv len start k :
  pollLength (terminalEnv len) start k = len (start + 1000 * Z.of_nat k).
Proof.
  unfold pollLength, terminalText, terminalEnv, withTerminal. cbn [cliReadReply].
  destruct (filler _) as [|c s] eqn:Hfill.
  - rewrite <- (filler_length (len _)), Hfill. reflexivity.
  - rewrite <- Hfill. apply filler_length.
Qed.

(** Witness for [quiescence_wait]: a terminal that shows the same twelve
    characters all the time is declared stable at the third poll, the
    second quiet one after the growth seen at the first; a terminal that
    prints one more character every second is never declared stable, and
    the wait of three seconds polls three times and times out. *)
Lemma quiescence_wait_witness :
  secondQuietPoll (pollLength (terminalEnv steadyOutput) 0) 1 2 3
  /\ (exists w',
         cliWaitForStableOutput 30000 (freshWorld (terminalEnv steadyOutput) emptyPage)
         = (Returned Stable, w')
         /\ clock w' = 3000)
  /\ (forall k, (1 <= k)%nat ->
                (pollLength (terminalEnv growingOutput) 0 k
                 < pollLength (terminalEnv growingOutput) 0 (S k))%nat)
  /\ fst (cliWaitForStableOutput 3000 (freshWorld (terminalEnv growingOutput) emptyPage))
     <> Returned Stable
  /\ exists w',
      cliWaitForStableOutput 3000 (freshWorld (terminalEnv growingOutput) emptyPage)
      = (Returned TimedOut, w')
      /\ clock w' = 3000.
Proof.
  assert (secondQuietPoll (pollLength (terminalEnv steadyOutput) 0) 1 2 3) as Hpoll.
  { unfold secondQuietPoll, growthPoll.
    split; [split; [lia|split; [rewrite pollLength_terminalEnv; unfold steadyOutput; lia|]]|].
    { intros i Hi. lia. }
    split; [lia|].
    split; [rewrite pollLength_terminalEnv; unfold steadyOutput; lia|].
    split; [rewrite pollLength_terminalEnv; unfold steadyOutput; lia|].
    split.
    - intros i Hi. rewrite !pollLength_terminalEnv. unfold steadyOutput. lia.
    - intros i Hi Hne. lia. }
  assert (quiet (freshWorld (terminalEnv steadyOutput) emptyPage)) as Hquiet
    by (split; reflexivity).
  assert (forall k, (1 <= k)%nat ->
                    (pollLength (terminalEnv growingOutput) 0 k
                     < pollLength (terminalEnv growingOutput) 0 (S k))%nat) as Hgrow.
  { intros k Hk. rewrite !pollLength_terminalEnv. unfold growingOutput.
    rewrite !Z.add_0_l, !(Z.mul_comm 1000), !Z.div_mul, !Nat2Z.id by lia. lia. }
  split; [exact Hpoll|]. split; [|split; [exact Hgrow|]].
  - destruct (quiescence_wait 30000 (freshWorld (terminalEnv steadyOutput) emptyPage))
      as (Honly & Hreach & _).
    destruct (Hreach 1%nat 2%nat 3%nat Hquiet Hpoll ltac:(lia))
      as (k' & w' & Hk' & Hrun & Hclock).
    destruct (Honly w' Hrun) as (g & j & k & ((Hg1 & _) & Hgjk & _) & Hclock' & _).
    exists w'. split; [exact Hrun|]. rewrite Hclock' in Hclock. rewrite Hclock'.
    change (clock (freshWorld (terminalEnv steadyOutput) emptyPage)) with 0 in *. lia.
  - destruct (quiescence_wait 3000 (freshWorld (terminalEnv growingOutput) emptyPage))
      as (_ & _ & Hnever & _).
    split; [apply Hnever; exact Hgrow|].
    eexists. split; [vm_compute; reflexivity|reflexivity].
Defined.

(** C6, counterexample to the claim as stated: the terminal shows 12, then
    8, then 5 characters.  No two consecutive polls read the same length,
    and yet the third poll declares the output stable. *)
Lemma shrinking_output_is_declared_stable :
  pollLength (terminalEnv shrinkingOutput) 0 1 = 12%nat
  /\ pollLength (terminalEnv shrinkingOutput) 0 2 = 8%nat
  /\ pollLength (terminalEnv shrinkingOutput) 0 3 = 5%nat
  /\ exists w',
      cliWaitForStableOutput 30000 (freshWorld (terminalEnv shrinkingOutput) emptyPage)
      = (Returned Stable, w')
      /\ clock w' = 3000.
Proof.
  repeat split; try reflexivity.
  eexists. split; [vm_compute; reflexivity|reflexivity].
Qed.

(* ===================================================================== *)
(** * Part XVII. The noise threshold of the CLI dump                 *)
(* ===================================================================== *)

Lemma trimStart_length s : (String.length (trimStart s) <= String.length s)%nat.
Proof.
  induction s as [|c s IH]; simpl; [lia|].
  destruct (isWhite c); simpl; lia.
Qed.

Lemma trimEnd_length s : (String.length (trimEnd s) <= String.length s)%nat.
Proof.
  induction s as [|c s IH]; simpl; [lia|].
  destruct (trimEnd s) as [|c' t]; simpl in *.
  - destruct (isWhite c); simpl; lia.
  - lia.
Qed.

Lemma trim_length s : (String.length (trim s) <= String.length s)%nat.
Proof.
  unfold trim. etransitivity; [apply trimEnd_length|apply trimStart_length].
Qed.

(** Syntax-directed proof that a CLI script only sends what
    [cliMessageOk] allows. *)
Ltac emits_cli :=
  repeat first
    [ emits_step
    | apply emits_setStatus; intros; exact I
    | apply emits_sendMessage; exact I ].

Lemma emits_isConnected ok : emits ok isConnected.
Proof. intros w. destruct (isConnected_pure w) as [-> _]. apply extends_refl. Qed.

Lemma emits_cliClear : emits cliMessageOk cliClear.
Proof. unfold cliClear, querySelector, querySelectorAllNow. emits_cli. Qed.

Lemma emits_cliSend c : emits cliMessageOk (cliSend c).
Proof. unfold cliSend, findCliInput. emits_cli. Qed.

Lemma emits_cliRead : emits cliMessageOk cliRead.
Proof. unfold cliRead. emits_cli. Qed.

Lemma emits_waitLoop fuel start maxMs lastLen stable :
  emits cliMessageOk (waitLoop fuel start maxMs lastLen stable).
Proof.
  revert lastLen stable. induction fuel as [|fuel IH]; intros lastLen stable; simpl.
  - apply emits_outOfFuel.
  - emits_cli; first [apply emits_cliRead | apply IH].
Qed.

Lemma emits_cliWaitForStableOutput maxMs : emits cliMessageOk (cliWaitForStableOutput maxMs).
Proof. unfold cliWaitForStableOutput. emits_cli. apply emits_waitLoop. Qed.

Lemma emits_storeCliOutput c output : emits cliMessageOk (storeCliOutput c output).
Proof.
  unfold storeCliOutput, saveToZip.
  destruct (truthy (Some output) && (10 <? String.length (trim output))%nat) eqn:Hlong.
  - apply andb_true_iff in Hlong as [_ Hlong]. apply Nat.ltb_lt in Hlong.
    pose proof (trim_length output).
    emits_cli. apply emits_sendMessage. simpl. repeat split. lia.
  - emits_cli.
Qed.

Lemma emits_runCliCommand c : emits cliMessageOk (runCliCommand c).
Proof.
  unfold runCliCommand.
  repeat first
    [ emits_step
    | apply emits_setStatus; intros; exact I
    | apply emits_isConnected | apply emits_cliClear | apply emits_cliSend
    | apply emits_cliWaitForStableOutput | apply emits_cliRead
    | apply emits_storeCliOutput ].
Qed.

Lemma emits_forEachCommand commands : emits cliMessageOk (forEachCommand commands).
Proof.
  induction commands as [|c rest IH]; simpl; emits_cli.
  - apply emits_runCliCommand.
  - exact IH.
Qed.

Lemma emits_handleCliTab : emits cliMessageOk handleCliTab.
Proof.
  unfold handleCliTab, cliDiagnostics.
  repeat first
    [ emits_step
    | apply emits_setStatus; intros; exact I
    | apply emits_sendMessage; exact I
    | apply emits_isConnected | apply emits_forEachCommand ].
Qed.

(** C9.  After a CLI command, the extracted text is saved only if it is
    longer than ten characters (the test is made on the text without its
    surrounding white space).  A text of ten characters or fewer is not
    saved: the only message is the warning status, and the step returns
    normally, so the run goes on to the next command.  Through the whole
    CLI unit, every file handed to the archive is a CLI dump of more than
    ten characters. *)
Theorem cli_output_noise_threshold :
  forall (c : CliCommand) (output : string) (w : World),
    (String.length output <= 10)%nat ->
    (exists w',
        storeCliOutput c output w = (Returned tt, w')
        /\ outbox w'
           = SetStatus ("WARNING: No output for '" +:+ cmd c +:+ "'.") (progressState w)
             :: outbox w)
    /\ (forall output' w1,
           exists w1', storeCliOutput c output' w1 = (Returned tt, w1')
                       /\ ((exists status,
                               outbox w1' = status :: SaveFile "CLI" (file c) output' false
                                                   :: outbox w1
                               /\ (10 < String.length output')%nat)
                           \/ outbox w1'
                              = SetStatus ("WARNING: No output for '" +:+ cmd c +:+ "'.")
                                          (progressState w1)
                                :: outbox w1))
    /\ (forall w0, exists new,
           outbox (snd (handleCliTab w0)) = new ++ outbox w0
           /\ Forall cliMessageOk new).
Proof.
  intros c output w Hshort. split; [|split].
  - unfold storeCliOutput.
    assert ((10 <? String.length (trim output))%nat = false) as Hnoise.
    { apply Nat.ltb_ge. pose proof (trim_length output). lia. }
    rewrite Hnoise, andb_false_r, bind_setStatus, sleep_run.
    eexists. split; [reflexivity|]. now rewrite sleep_outbox.
  - intros output' w1. unfold storeCliOutput, saveToZip.
    destruct (truthy (Some output') && (10 <? String.length (trim output'))%nat) eqn:Hlong.
    + apply andb_true_iff in Hlong as [_ Hlong]. apply Nat.ltb_lt in Hlong.
      pose proof (trim_length output').
      unfold bind at 1. rewrite bind_sendMessage. unfold setStatus, sendMessage, modify.
      rewrite sleep_run.
      eexists. split; [reflexivity|]. left. eexists.
      rewrite sleep_outbox. split; [reflexivity|lia].
    + rewrite bind_setStatus, sleep_run.
      eexists. split; [reflexivity|]. right. now rewrite sleep_outbox.
  - intros w0. destruct (emits_handleCliTab w0) as (_ & _ & _ & _ & Hnew). exact Hnew.
Qed.

(** Witness for [cli_output_noise_threshold]: the terminal answered the
    command with a bare prompt. *)
Lemma cli_output_noise_threshold_witness :
  (String.length "# " <= 10)%nat
  /\ exists w',
      storeCliOutput diffAll "# " (freshWorld plainEnv emptyPage) = (Returned tt, w')
      /\ outbox w'
         = [SetStatus "WARNING: No output for 'diff all'." {| current := 0; total := 0 |}].
Proof.
  assert (String.length "# " <= 10)%nat as Hshort by (simpl; lia).
  split; [exact Hshort|].
  destruct (cli_output_noise_threshold diffAll "# " (freshWorld plainEnv emptyPage) Hshort)
    as [(w' & Hrun & Hout) _].
  exists w'. split; [exact Hrun|exact Hout].
Defined.

(* ===================================================================== *)
(** * Part XVIII. Profile cycling and the restore                     *)
(* ===================================================================== *)




(** C1, the code at the failing input.  The PID dropdown offers the
    profiles 0, 1 and 2 and stands on 0.  Left alone, the unit cycles
    through all profiles and puts both dropdowns back on 0.  When the user
    presses Stop seven seconds into the cycling, just after the switch to
    profile 1, that profile is still captured and then the next
    cancellation point throws out of the unit: the restore block is never
    reached, no restore is announced or attempted, and the PID dropdown is
    left on profile 1. *)
Theorem stop_during_cycling_skips_restore :
  selectValue PidAxis (freshWorld (tuningEnv None) tuningPage) = "0"
  /\ (exists w',
         handlePidTuningTab 5 "04_PID_Tuning" "04" (freshWorld (tuningEnv None) tuningPage)
         = (Returned tt, w')
         /\ selectValue PidAxis w' = "0"
         /\ selectValue RateAxis w' = "0")
  /\ (exists w',
         handlePidTuningTab 5 "04_PID_Tuning" "04"
           (freshWorld (tuningEnv (Some 7000)) tuningPage)
         = (Thrown "Backup stopped by user.", w')
         /\ selectValue PidAxis w' = "1"
         /\ forallb restoreNotAnnounced (outbox w') = true
         /\ List.find (fun m => match m with SetSelectValue _ _ => true | _ => false end)
                      (outbox w')
            = Some (SetSelectValue ("#content select[name=" +:+ dq +:+ "profile" +:+ dq +:+ "]")
                                   "1")).
Proof.
  split; [reflexivity|]. split.
  - eexists. split; [vm_compute; reflexivity|]. split; vm_compute; reflexivity.
  - eexists. split; [vm_compute; reflexivity|]. repeat split; vm_compute; reflexivity.
Qed.

(* ===================================================================== *)
(** * Part XIX. The conduct of a run                                  *)
(* ===================================================================== *)

(** [conduct] is proved unit by unit, from the primitives of the monad up to
    [runExtractionTask], for every page and every outcome.  Three properties
    of a whole run follow: it ends with one verdict, it clicks only where
    it is safe to click, and it sends only the commands of the fixed list. *)

Lemma trail_refl okM okC w : trail okM okC w w.
Proof.
  split; [reflexivity|]. split; exists []; (split; [reflexivity|constructor]).
Qed.

Lemma trail_trans okM okC w1 w2 w3 :
  trail okM okC w1 w2 -> trail okM okC w2 w3 -> trail okM okC w1 w3.
Proof.
  intros (He1 & (m1 & Hm1 & Hf1) & (c1 & Hc1 & Hg1))
         (He2 & (m2 & Hm2 & Hf2) & (c2 & Hc2 & Hg2)).
  split; [congruence|]. split.
  - exists (m2 ++ m1). split; [rewrite Hm2, Hm1; apply app_assoc|].
    apply Forall_app; split; assumption.
  - exists (c2 ++ c1). split; [rewrite Hc2, Hc1; apply app_assoc|].
    apply Forall_app; split; assumption.
Qed.

Section Conduct.
Variable okM : Message -> Prop.
Variable okC : string -> Prop.
Variable fuel : nat.

Lemma conduct_ret {A} (a : A) : conduct okM okC fuel (ret a).
Proof. intros w. split; [apply trail_refl|intros _; exact I]. Qed.

Lemma conduct_throw {A} e : conduct okM okC fuel (@throw A e).
Proof. intros w. split; [apply trail_refl|intros _; exact I]. Qed.

Lemma conduct_gets {A} (f : World -> A) : conduct okM okC fuel (gets f).
Proof. intros w. split; [apply trail_refl|intros _; exact I]. Qed.

Lemma conduct_checkAbort : conduct okM okC fuel checkAbort.
Proof.
  intros w. unfold checkAbort. destruct (abortRequested w); simpl;
    (split; [apply trail_refl|intros _; exact I]).
Qed.

Lemma conduct_bind {A B} (m : Js A) (k : A -> Js B) :
  conduct okM okC fuel m -> (forall a, conduct okM okC fuel (k a)) ->
  conduct okM okC fuel (bind m k).
Proof.
  intros Hm Hk w. unfold bind.
  destruct (Hm w) as [Ht Hh]. destruct (m w) as [[a|e|] w1]; simpl in *.
  - destruct (Hk a w1) as [Ht1 Hh1]. split.
    + eapply trail_trans; [exact Ht|exact Ht1].
    + intros Hs. apply Hh1. destruct Ht as [-> _]. exact Hs.
  - split; [exact Ht|intros _; exact I].
  - split; [exact Ht|exact Hh].
Qed.

Lemma conduct_tryFinally {A} (body : Js A) cleanup :
  conduct okM okC fuel body -> conduct okM okC fuel cleanup ->
  conduct okM okC fuel (tryFinally body cleanup).
Proof.
  intros Hb Hc w. unfold tryFinally.
  destruct (Hb w) as [Ht Hh]. destruct (body w) as [[a|e|] w1]; simpl in *.
  - destruct (Hc w1) as [Ht1 Hh1]. destruct (cleanup w1) as [[[]|e'|] w2]; simpl in *;
      (split; [eapply trail_trans; eassumption|]); try (intros _; exact I).
    intros Hs. apply Hh1. destruct Ht as [-> _]. exact Hs.
  - destruct (Hc w1) as [Ht1 Hh1]. destruct (cleanup w1) as [[[]|e'|] w2]; simpl in *;
      (split; [eapply trail_trans; eassumption|]); try (intros _; exact I).
    intros Hs. apply Hh1. destruct Ht as [-> _]. exact Hs.
  - split; [exact Ht|exact Hh].
Qed.

Lemma conduct_tryCatch {A} (body : Js A) handler :
  conduct okM okC fuel body -> (forall e, conduct okM okC fuel (handler e)) ->
  conduct okM okC fuel (tryCatch body handler).
Proof.
  intros Hb Hc w. unfold tryCatch.
  destruct (Hb w) as [Ht Hh]. destruct (body w) as [[a|e|] w1]; simpl in *.
  - split; [exact Ht|intros _; exact I].
  - destruct (Hc e w1) as [Ht1 Hh1]. split.
    + eapply trail_trans; eassumption.
    + intros Hs. apply Hh1. destruct Ht as [-> _]. exact Hs.
  - split; [exact Ht|exact Hh].
Qed.

Lemma conduct_sendMessage m : okM m -> conduct okM okC fuel (sendMessage m).
Proof.
  intros Hm w. split; [|intros _; exact I]. split; [reflexivity|]. split.
  - exists [m]. split; [reflexivity|]. repeat constructor. exact Hm.
  - exists []. split; [reflexivity|constructor].
Qed.

Lemma conduct_setStatus msg :
  (forall p, okM (SetStatus msg p)) -> conduct okM okC fuel (setStatus msg).
Proof. intros Hok w. unfold setStatus. apply conduct_sendMessage, Hok. Qed.

Lemma sleep_trail ms w : trail okM okC w (snd (sleep ms w)).
Proof.
  split; [apply sleep_env|]. split; exists [].
  - rewrite sleep_outbox. split; [reflexivity|constructor].
  - rewrite sleep_page. split; [reflexivity|constructor].
Qed.

Lemma conduct_sleep ms : conduct okM okC fuel (sleep ms).
Proof. intros w. split; [apply sleep_trail|intros _; exact I]. Qed.

(** A write to the page that leaves the list of clicks alone. *)
Lemma conduct_setPage (f : World -> Page) :
  (forall w, clicked (f w) = clicked (page w)) ->
  conduct okM okC fuel (modify (fun w => setPage (f w) w)).
Proof.
  intros Hf w. split; [|intros _; exact I]. split; [reflexivity|]. split; exists [].
  - split; [reflexivity|constructor].
  - simpl. rewrite Hf. split; [reflexivity|constructor].
Qed.

Lemma conduct_setWorld (f : World -> World) :
  (forall w, env (f w) = env w /\ outbox (f w) = outbox w /\ page (f w) = page w) ->
  conduct okM okC fuel (modify f).
Proof.
  intros Hf w. destruct (Hf w) as (He & Ho & Hp).
  split; [|intros _; exact I]. split; [exact He|]. split; exists []; simpl.
  - rewrite Ho. split; [reflexivity|constructor].
  - rewrite Hp. split; [reflexivity|constructor].
Qed.

Lemma conduct_click sel : okC sel -> conduct okM okC fuel (click sel).
Proof.
  intros Hsel w. split; [|intros _; exact I]. split; [reflexivity|]. split.
  - exists []. split; [reflexivity|constructor].
  - exists [sel]. split; [reflexivity|]. repeat constructor. exact Hsel.
Qed.

Lemma conduct_assignScrollTop v : conduct okM okC fuel (assignScrollTop v).
Proof. apply (conduct_setPage (fun w => _)). reflexivity. Qed.

Lemma conduct_isConnected : conduct okM okC fuel isConnected.
Proof.
  intros w. destruct (isConnected_pure w) as [Hw [r Hr]]. rewrite Hw, Hr.
  split; [apply trail_refl|intros _; exact I].
Qed.

End Conduct.

(** Syntax-directed proof that a script behaves: one step on the head of
    the script, without unfolding named scripts. *)
Ltac conduct_step :=
  lazymatch goal with
  | |- conduct _ _ _ (ret _) => apply conduct_ret
  | |- conduct _ _ _ (throw _) => apply conduct_throw
  | |- conduct _ _ _ (gets _) => apply conduct_gets
  | |- conduct _ _ _ checkAbort => apply conduct_checkAbort
  | |- conduct _ _ _ (sleep _) => apply conduct_sleep
  | |- conduct _ _ _ isConnected => apply conduct_isConnected
  | |- conduct _ _ _ (assignScrollTop _) => apply conduct_assignScrollTop
  | |- conduct _ _ _ (querySelector _) => apply conduct_gets
  | |- conduct _ _ _ (querySelectorAllNow _) => apply conduct_gets
  | |- conduct _ _ _ (setStatus _) => apply conduct_setStatus; intros; exact I
  | |- conduct _ _ _ (sendMessage _) => apply conduct_sendMessage; exact I
  | |- conduct _ _ _ (saveToZip _ _ _ _) => apply conduct_sendMessage; exact I
  | |- conduct _ _ _ (modify _) =>
      apply conduct_setWorld; intros; repeat split; reflexivity
  | |- conduct _ _ _ (bind _ _) => apply conduct_bind; [|intros]
  | |- conduct _ _ _ (match ?x with _ => _ end) => destruct x
  end.

Lemma conduct_outOfFuel okM okC {A} : conduct okM okC 0 (@outOfFuel A).
Proof.
  intros w. split; [apply trail_refl|].
  intros (sh & ch & _ & _ & _ & Hfuel). lia.
Qed.

(** A script that satisfies [conduct] without the bound on the scroll loop
    satisfies it for any bound under which it is known to end. *)
Lemma conduct_intro okM okC fuel {A} (m : Js A) :
  conduct okM okC 0 m ->
  (forall w, steady fuel (env w) -> ended (fst (m w))) ->
  conduct okM okC fuel m.
Proof. intros Ht He w. split; [apply Ht|apply He]. Qed.

Lemma conduct_weaken okM okC fuel {A} (m : Js A) :
  conduct okM okC fuel m -> conduct okM okC 0 m.
Proof.
  intros Hm w. split; [apply Hm|].
  intros (sh & ch & _ & _ & _ & Hfuel). lia.
Qed.

Ltac conduct_run := repeat conduct_step.

Section Units.
Variable fuel : nat.


Lemma conduct_captureAttempts g remaining attempt :
  conduct inRunMessage allowedClick g (captureAttempts remaining attempt).
Proof.
  revert attempt. induction remaining as [|remaining IH]; intros attempt; simpl.
  - apply conduct_ret.
  - conduct_run. apply IH.
Qed.

Lemma conduct_requestScreenshot g : conduct inRunMessage allowedClick g requestScreenshot.
Proof. unfold requestScreenshot. conduct_run; apply conduct_captureAttempts. Qed.

Lemma conduct_saveToZip g folderName fileName content isBase64 :
  conduct inRunMessage allowedClick g (saveToZip folderName fileName content isBase64).
Proof. unfold saveToZip. conduct_run. Qed.

Lemma conduct_scrollLoop n baseFileName parts scrollDeltas :
  conduct inRunMessage allowedClick 0 (scrollLoop n baseFileName parts scrollDeltas).
Proof.
  revert parts scrollDeltas. induction n as [|n IH]; intros parts scrollDeltas; simpl.
  - apply conduct_outOfFuel.
  - conduct_run; first [apply conduct_requestScreenshot | apply IH].
Qed.

Lemma conduct_saveParts g folderName baseFileName i parts :
  conduct inRunMessage allowedClick g (saveParts folderName baseFileName i parts).
Proof.
  revert i. induction parts as [|p parts IH]; intros i; simpl.
  - apply conduct_ret.
  - conduct_run; first [apply conduct_saveToZip | apply IH].
Qed.

Lemma conduct_saveCaptured g folderName baseFileName parts scrollDeltas :
  conduct inRunMessage allowedClick g (saveCaptured folderName baseFileName parts scrollDeltas).
Proof.
  unfold saveCaptured, stitch.
  destruct parts as [|p [|q parts]];
    conduct_run; first [apply conduct_saveToZip | apply conduct_saveParts].
Qed.

Lemma conduct_hideStickyBottomElements g : conduct inRunMessage allowedClick g hideStickyBottomElements.
Proof.
  intros w. split; [|intros _; exact I]. split; [reflexivity|].
  split; exists []; (split; [reflexivity|constructor]).
Qed.

Lemma conduct_restoreStickyBottomElements g hidden :
  conduct inRunMessage allowedClick g (restoreStickyBottomElements hidden).
Proof. apply (conduct_setPage _ _ _ (fun w => _)). reflexivity. Qed.

Lemma captureAndSave_trail folderName baseFileName :
  conduct inRunMessage allowedClick 0 (captureAndSave fuel folderName baseFileName).
Proof.
  unfold captureAndSave.
  conduct_run;
    first [ apply conduct_requestScreenshot | apply conduct_saveToZip
          | apply conduct_hideStickyBottomElements | idtac ].
  apply conduct_tryFinally; [|apply conduct_restoreStickyBottomElements].
  conduct_run; first [apply conduct_scrollLoop | apply conduct_saveCaptured].
Qed.

End Units.

(** ** The capture service always answers *)

Lemma captureAttempts_page remaining attempt w :
  exists r w',
    captureAttempts remaining attempt w = (Returned r, w')
    /\ page w' = page w.
Proof.
  revert attempt w. induction remaining as [|remaining IH]; intros attempt w.
  - exists None, w. split; reflexivity.
  - cbn [captureAttempts]. rewrite bind_modify, bind_sendMessage, bind_gets.
    destruct (truthy _).
    + eexists _, _. split; reflexivity.
    + rewrite bind_sleep.
      destruct (IH (S attempt) (snd (sleep (1500 * (Z.of_nat attempt + 1))
                 (pushOutbox CaptureTab (setLastCaptureTime (clock w) w)))))
        as (r & w' & Hrun & Hpage).
      exists r, w'. split; [exact Hrun|]. rewrite Hpage, sleep_page. reflexivity.
Qed.

Lemma requestScreenshot_page w :
  exists r w', requestScreenshot w = (Returned r, w') /\ page w' = page w.
Proof.
  unfold requestScreenshot. rewrite !bind_gets.
  destruct (0 <? _).
  - rewrite bind_sleep.
    destruct (captureAttempts_page 3 0 (snd (sleep (MIN_CAPTURE_INTERVAL
                                                   - (clock w - lastCaptureTime w)) w)))
      as (r & w' & Hrun & Hpage).
    exists r, w'. split; [exact Hrun|]. now rewrite Hpage, sleep_page.
  - rewrite bind_ret. apply captureAttempts_page.
Qed.

(** ** The scroll loop ends on a page that keeps its size *)

Lemma scrollLoop_ends n :
  forall baseFileName parts scrollDeltas w sh ch,
    (forall t, scrollGeometry (env w) t = (sh, ch)) ->
    0 < ch ->
    0 <= scrollTop (page w) ->
    sh - scrollTop (page w) <= ch * Z.of_nat n ->
    (1 <= n)%nat ->
    ended (fst (scrollLoop n baseFileName parts scrollDeltas w)).
Proof.
  induction n as [|n IH]; intros baseFileName parts scrollDeltas w sh ch Hgeo Hch Htop Hfuel Hn;
    [lia|].
  cbn [scrollLoop]. unfold bind at 1. unfold checkAbort at 1.
  destruct (abortRequested w); [exact I|].
  destruct (requestScreenshot_page w) as (r & w1 & Hrun & Hpage).
  pose proof (proj1 (proj1 (conduct_requestScreenshot O w))) as Henv.
  rewrite Hrun in Henv. simpl in Henv.
  rewrite (bind_run _ _ _ _ _ Hrun).
  destruct r as [url|]; [|rewrite bind_setStatus; exact I].
  destruct (truthy (Some url)); [|rewrite bind_setStatus; exact I].
  rewrite !bind_gets. unfold clientHeight, scrollHeight.
  rewrite Henv, Hgeo, Hpage. cbn [fst snd].
  destruct (sh - 5 <=? scrollTop (page w) + ch) eqn:Hbottom; [exact I|].
  apply Z.leb_gt in Hbottom.
  unfold assignScrollTop. rewrite bind_modify, bind_sleep, bind_gets.
  set (w2 := snd (sleep 300 _)).
  assert (env w2 = env w) as He2 by (subst w2; rewrite sleep_env; exact Henv).
  assert (scrollTop (page w2) = Z.min (scrollTop (page w) + ch) (sh - ch)) as Ht2.
  { subst w2. rewrite sleep_page. cbn [page setPage scrollTop setPageScrollTop].
    unfold clientHeight, scrollHeight. rewrite Henv, Hgeo. cbn [fst snd]. lia. }
  rewrite Nat2Z.inj_succ in Hfuel.
  assert (1 <= Z.of_nat n) as Hn1 by nia.
  apply (IH _ _ _ _ sh ch).
  - intros t. rewrite He2. apply Hgeo.
  - exact Hch.
  - rewrite Ht2. lia.
  - rewrite Ht2. destruct (Z.min_spec (scrollTop (page w) + ch) (sh - ch)) as [[_ ->]|[_ ->]]; nia.
  - lia.
Qed.

Lemma captureAndSave_ends fuel folderName baseFileName w :
  steady fuel (env w) -> ended (fst (captureAndSave fuel folderName baseFileName w)).
Proof.
  intros (sh & ch & Hgeo & Hch & Hfuel & Hn).
  unfold captureAndSave, assignScrollTop.
  rewrite bind_modify, bind_sleep, !bind_gets.
  set (w1 := snd (sleep 300 _)).
  assert (env w1 = env w) as He1 by (subst w1; rewrite sleep_env; reflexivity).
  destruct (scrollHeight w1 - clientHeight w1 <=? 100).
  - destruct (requestScreenshot_page w1) as (r & w2 & Hrun & _).
    rewrite (bind_run _ _ _ _ _ Hrun).
    destruct r as [url|]; [destruct (truthy (Some url))|]; exact I.
  - unfold hideStickyBottomElements at 1. unfold bind at 1.
    set (w2 := setPage _ w1).
    unfold tryFinally. rewrite bind_modify, bind_sleep.
    set (w3 := snd (sleep 200 _)).
    assert (env w3 = env w) as He3 by (subst w3; rewrite sleep_env; exact He1).
    assert (scrollTop (page w3) = 0) as Ht3.
    { subst w3. rewrite sleep_page. cbn [page setPage scrollTop setPageScrollTop]. lia. }
    pose proof (scrollLoop_ends fuel baseFileName [] [] w3 sh ch) as Hloop.
    pose proof (conduct_scrollLoop fuel baseFileName [] [] w3) as [[Henv _] _].
    destruct (scrollLoop fuel baseFileName [] [] w3) as [[r|e|] w4] eqn:Hrun.
    + rewrite (bind_run _ _ _ _ _ Hrun).
      pose proof (conduct_saveCaptured fuel folderName baseFileName (fst r) (snd r) w4)
        as [_ Hend].
      simpl in Henv.
      destruct (saveCaptured folderName baseFileName (fst r) (snd r) w4) as [[[]|e|] w5];
        try exact I.
      exfalso. apply Hend. exists sh, ch. rewrite Henv, He3. repeat split; assumption.
    + rewrite (bind_thrown _ _ _ _ _ Hrun). exact I.
    + simpl in Hloop. exfalso. apply Hloop; try assumption; try (rewrite Ht3; lia).
      intros t. rewrite He3. apply Hgeo.
Qed.

Lemma conduct_captureAndSave fuel folderName baseFileName :
  conduct inRunMessage allowedClick fuel (captureAndSave fuel folderName baseFileName).
Proof.
  apply conduct_intro; [apply captureAndSave_trail|].
  intros w. apply captureAndSave_ends.
Qed.

Lemma firstSubTabs_In dom sels sel tabs :
  firstSubTabs dom sels = (sel, tabs) -> tabs <> [] -> In sel sels.
Proof.
  induction sels as [|s rest IH]; simpl.
  - intros [= <- <-] Hne. now contradiction Hne.
  - destruct (1 <? length _)%nat.
    + intros [= <- <-] _. now left.
    + intros Hrec Hne. right. now apply IH.
Qed.

(** Back from a run on a given world to a statement about the script. *)
Ltac conduct_at :=
  lazymatch goal with
  | |- trail ?okM ?okC ?w (snd (?m ?w)) /\ (steady ?g _ -> _) =>
      refine ((_ : conduct okM okC g m) w)
  end.

Section Panels.
Variable fuel : nat.

Lemma conduct_clickSubTab g index :
  conduct inRunMessage allowedClick g (clickSubTab index).
Proof.
  unfold clickSubTab, findVisibleSubTabs. intros w. rewrite bind_gets.
  destruct (firstSubTabs _ SUB_TAB_SELECTORS) as [sel subTabs] eqn:Hfound.
  destruct (index <? length subTabs)%nat eqn:Hidx; conduct_at.
  - apply conduct_bind; [|intros; apply conduct_ret].
    apply conduct_click. right. right. left. exists sel, index. split; [|reflexivity].
    apply (firstSubTabs_In _ _ _ _ Hfound).
    intros ->. simpl in Hidx. apply Nat.ltb_lt in Hidx. lia.
  - apply conduct_ret.
Qed.

Lemma conduct_captureSubTabs folder prefix tabLabel sel subIdx subTabs :
  In sel SUB_TAB_SELECTORS ->
  conduct inRunMessage allowedClick fuel
    (captureSubTabs fuel folder prefix tabLabel sel subIdx subTabs).
Proof.
  intros Hsel. revert subIdx. induction subTabs as [|sub rest IH]; intros subIdx; simpl.
  - apply conduct_ret.
  - conduct_run; first [ apply conduct_captureAndSave | apply IH | idtac ].
    apply conduct_click. right. right. left. eauto.
Qed.

Lemma conduct_captureTabWithSubTabs folder prefix englishName tabLabel :
  conduct inRunMessage allowedClick fuel
    (captureTabWithSubTabs fuel folder prefix englishName tabLabel).
Proof.
  unfold captureTabWithSubTabs, findVisibleSubTabs. intros w. rewrite bind_gets.
  destruct (firstSubTabs _ SUB_TAB_SELECTORS) as [sel subTabs] eqn:Hfound.
  destruct (1 <? length subTabs)%nat eqn:Hlen; conduct_at.
  - apply conduct_captureSubTabs.
    apply (firstSubTabs_In _ _ _ _ Hfound).
    intros ->. simpl in Hlen. discriminate.
  - conduct_run. apply conduct_captureAndSave.
Qed.

Lemma conduct_applySelectValue g ax v :
  conduct inRunMessage allowedClick g (applySelectValue ax v).
Proof.
  intros w. split; [|intros _; exact I]. unfold applySelectValue, modify. simpl.
  destruct (selectOf ax (page w)) as [s|]; [|apply trail_refl].
  destruct (selectAccepts (env w) (clock w)); [|apply trail_refl].
  split; [reflexivity|]. split; exists []; (split; [|constructor]); [reflexivity|].
  destruct ax; reflexivity.
Qed.

Lemma conduct_verifyAttempts g remaining ax selector strValue :
  conduct inRunMessage allowedClick g (verifyAttempts remaining ax selector strValue).
Proof.
  induction remaining as [|remaining IH]; simpl.
  - apply conduct_ret.
  - unfold setSelectViaBridge.
    conduct_run; first [apply conduct_applySelectValue | apply IH].
Qed.

Lemma conduct_setSelectValueVerified g ax value retries :
  conduct inRunMessage allowedClick g (setSelectValueVerified ax value retries).
Proof.
  unfold setSelectValueVerified. conduct_run. apply conduct_verifyAttempts.
Qed.

Lemma conduct_cyclePidProfiles folder prefix remaining p pidCount :
  conduct inRunMessage allowedClick fuel
    (cyclePidProfiles fuel folder prefix remaining p pidCount).
Proof.
  revert p. induction remaining as [|remaining IH]; intros p; simpl.
  - apply conduct_ret.
  - conduct_run;
      first [ apply conduct_setSelectValueVerified | apply conduct_clickSubTab
            | apply conduct_captureAndSave | apply IH ].
Qed.

Lemma conduct_cycleRateProfiles folder prefix remaining r rateCount :
  conduct inRunMessage allowedClick fuel
    (cycleRateProfiles fuel folder prefix remaining r rateCount).
Proof.
  revert r. induction remaining as [|remaining IH]; intros r; simpl.
  - apply conduct_ret.
  - conduct_run;
      first [ apply conduct_setSelectValueVerified | apply conduct_clickSubTab
            | apply conduct_captureAndSave | apply IH ].
Qed.

Lemma conduct_restoreProfiles g originalPid originalRate :
  conduct inRunMessage allowedClick g (restoreProfiles originalPid originalRate).
Proof.
  unfold restoreProfiles. conduct_run; apply conduct_setSelectValueVerified.
Qed.

Lemma conduct_handlePidTuningTab folder prefix :
  conduct inRunMessage allowedClick fuel (handlePidTuningTab fuel folder prefix).
Proof.
  unfold handlePidTuningTab, findVisibleSubTabs.
  conduct_run;
    first [ apply conduct_cyclePidProfiles | apply conduct_cycleRateProfiles
          | apply conduct_clickSubTab | apply conduct_captureAndSave
          | apply conduct_restoreProfiles | apply conduct_captureTabWithSubTabs ].
Qed.

End Panels.

Section Cli.
Variable fuel : nat.

Lemma conduct_cliClear g : conduct inRunMessage allowedClick g cliClear.
Proof.
  unfold cliClear, querySelector, querySelectorAllNow.
  do 3 (apply conduct_bind; [apply conduct_gets|intros ?]).
  destruct a as [?|]; [|destruct a0 as [?|]; [|destruct (List.find _ a1)]];
    conduct_run; apply conduct_click; right; right; right; simpl; tauto.
Qed.

Lemma conduct_cliSend g c :
  In c (map cmd cliCommands) -> conduct inRunMessage allowedClick g (cliSend c).
Proof.
  intros Hc. unfold cliSend, findCliInput.
  apply conduct_bind; [apply conduct_sendMessage; exact Hc|intros _].
  conduct_run.
Qed.

Lemma conduct_cliRead g : conduct inRunMessage allowedClick g cliRead.
Proof. unfold cliRead. conduct_run. Qed.

Lemma conduct_waitLoop n start maxMs lastLen stable :
  conduct inRunMessage allowedClick 0 (waitLoop n start maxMs lastLen stable).
Proof.
  revert lastLen stable. induction n as [|n IH]; intros lastLen stable; simpl.
  - apply conduct_outOfFuel.
  - conduct_run; first [apply conduct_cliRead | apply IH].
Qed.

Lemma cliWaitForStableOutput_ends maxMs w : ended (fst (cliWaitForStableOutput maxMs w)).
Proof.
  rewrite cliWaitForStableOutput_unfold.
  assert (maxMs <= 1000 * (Z.of_nat 0 + Z.of_nat (S (Z.to_nat (maxMs / 1000 + 1))) - 1))
    as Hfuel.
  { pose proof (Z.div_mod maxMs 1000 ltac:(lia)) as Hdm.
    pose proof (Z.mod_pos_bound maxMs 1000 ltac:(lia)) as Hmod.
    destruct (Z_lt_le_dec (maxMs / 1000 + 1) 0) as [Hneg|Hpos].
    - rewrite Z2Nat.nonpos by lia. lia.
    - rewrite Nat2Z.inj_succ, Z2Nat.id by lia. lia. }
  destruct (waitLoop_outcome (clock w) maxMs (S (Z.to_nat (maxMs / 1000 + 1))) O O O w
              ltac:(simpl; lia) ltac:(lia) Hfuel)
    as [[Hr|[Hr|Hr]] _]; rewrite Hr; exact I.
Qed.

Lemma conduct_cliWaitForStableOutput g maxMs :
  conduct inRunMessage allowedClick g (cliWaitForStableOutput maxMs).
Proof.
  apply conduct_intro.
  - unfold cliWaitForStableOutput. conduct_run. apply conduct_waitLoop.
  - intros w _. apply cliWaitForStableOutput_ends.
Qed.

Lemma conduct_storeCliOutput g c output :
  conduct inRunMessage allowedClick g (storeCliOutput c output).
Proof. unfold storeCliOutput, saveToZip. conduct_run. Qed.

Lemma conduct_runCliCommand g c :
  In (cmd c) (map cmd cliCommands) ->
  conduct inRunMessage allowedClick g (runCliCommand c).
Proof.
  intros Hc. unfold runCliCommand.
  conduct_run;
    first [ apply conduct_cliClear | apply conduct_cliSend; exact Hc
          | apply conduct_cliWaitForStableOutput | apply conduct_cliRead
          | apply conduct_storeCliOutput ].
Qed.

Lemma conduct_forEachCommand g commands :
  Forall (fun c => In (cmd c) (map cmd cliCommands)) commands ->
  conduct inRunMessage allowedClick g (forEachCommand commands).
Proof.
  induction 1 as [|c rest Hc Hrest IH]; simpl; conduct_run.
  - apply conduct_runCliCommand. exact Hc.
  - exact IH.
Qed.

Lemma conduct_handleCliTab g : conduct inRunMessage allowedClick g handleCliTab.
Proof.
  unfold handleCliTab, cliDiagnostics. conduct_run; apply conduct_forEachCommand.
  all: repeat constructor; simpl; tauto.
Qed.

(** ** The orchestration loop *)

Lemma conduct_dispatchTab options totalTabs idx tab :
  existsb (fun b => includes (cls tab) b) BLACKLIST = false ->
  conduct inRunMessage allowedClick fuel (dispatchTab fuel options totalTabs idx tab).
Proof.
  intros Hsafe. unfold dispatchTab, setProgress.
  conduct_run;
    first [ apply conduct_handleCliTab | apply conduct_handlePidTuningTab
          | apply conduct_captureTabWithSubTabs | idtac ].
  apply conduct_click. right. left. exists (cls tab). split; [reflexivity|exact Hsafe].
Qed.

Lemma conduct_visitTab options totalTabs idx tab :
  existsb (fun b => includes (cls tab) b) BLACKLIST = false ->
  conduct inRunMessage allowedClick fuel (visitTab fuel options totalTabs idx tab).
Proof.
  intros Hsafe. unfold visitTab. conduct_run; apply conduct_dispatchTab; exact Hsafe.
Qed.

Lemma conduct_visitTabs options totalTabs idx tabs :
  Forall (fun tab => existsb (fun b => includes (cls tab) b) BLACKLIST = false) tabs ->
  conduct inRunMessage allowedClick fuel (visitTabs fuel options totalTabs idx tabs).
Proof.
  intros Hsafe. revert idx. induction Hsafe as [|tab rest Htab Hrest IH]; intros idx; simpl.
  - apply conduct_ret.
  - conduct_run; [apply conduct_visitTab; exact Htab|apply IH].
Qed.

Lemma keepTab_blacklist options tab :
  keepTab options tab = true ->
  existsb (fun b => includes (cls tab) b) BLACKLIST = false.
Proof. unfold keepTab. destruct (existsb _ BLACKLIST); [discriminate|reflexivity]. Qed.

Lemma filterTabs_blacklist options tabs :
  Forall (fun tab => existsb (fun b => includes (cls tab) b) BLACKLIST = false)
         (filterTabs options tabs).
Proof.
  unfold filterTabs. induction tabs as [|t ts IH]; simpl; [constructor|].
  destruct (keepTab options t) eqn:Hk; [|exact IH].
  constructor; [eapply keepTab_blacklist; exact Hk|exact IH].
Qed.

Lemma conduct_discoverTabs g n : conduct inRunMessage allowedClick g (discoverTabs n).
Proof.
  induction n as [|n IH]; simpl.
  - apply conduct_ret.
  - conduct_run. exact IH.
Qed.

Lemma conduct_mono (okM okM' : Message -> Prop) okC g {A} (m : Js A) :
  (forall x, okM x -> okM' x) -> conduct okM okC g m -> conduct okM' okC g m.
Proof.
  intros Himp Hm w. destruct (Hm w) as [(He & (new & Hnew & Hall) & Hc) Hend].
  split; [|exact Hend]. split; [exact He|]. split; [|exact Hc].
  exists new. split; [exact Hnew|]. eapply Forall_impl; [exact Hall|exact Himp].
Qed.

Lemma inRunMessage_runMessage m : inRunMessage m -> runMessage m.
Proof. destruct m as [| | | | |[]| |]; simpl; tauto. Qed.

(** The whole process: it sends whatever it sends, clicks only what it
    may, and ends on a page that keeps its size. *)
Lemma conduct_startBackupProcess options :
  conduct runMessage allowedClick fuel (startBackupProcess fuel options).
Proof.
  unfold startBackupProcess, startKeepalive, stopKeepalive, setProgress.
  assert (forall {A} (m : Js A),
             conduct inRunMessage allowedClick fuel m ->
             conduct runMessage allowedClick fuel m) as Hany
    by (intros A m; apply conduct_mono, inRunMessage_runMessage).
  apply conduct_bind; [apply conduct_setStatus; intros; exact I|intros _].
  apply conduct_bind; [apply conduct_setWorld; intros; repeat split; reflexivity|intros _].
  apply conduct_tryFinally; [|apply conduct_setWorld; intros; repeat split; reflexivity].
  apply conduct_bind; [apply conduct_gets|intros expertCb].
  apply conduct_bind.
  { destruct expertCb as [[|]|]; try apply conduct_ret.
    apply conduct_bind; [apply conduct_setStatus; intros; exact I|intros _].
    apply conduct_bind; [apply conduct_gets|intros wrapper].
    apply conduct_bind; [|intros _; apply conduct_sleep].
    apply conduct_click. left. exists wrapper. reflexivity. }
  intros _. apply conduct_bind; [apply Hany, conduct_discoverTabs|intros tabEls].
  destruct tabEls as [|el els]; [apply conduct_throw|].
  apply conduct_bind; [apply conduct_setWorld; intros; repeat split; reflexivity|intros _].
  apply conduct_bind; [apply Hany, conduct_visitTabs, filterTabs_blacklist|intros _].
  apply conduct_bind; [apply conduct_setWorld; intros; repeat split; reflexivity|intros _].
  apply conduct_bind; [apply conduct_setStatus; intros; exact I|intros _].
  apply conduct_sendMessage. exact I.
Qed.

End Cli.

Lemma chars_append s t :
  list_ascii_of_string (s +:+ t) = list_ascii_of_string s ++ list_ascii_of_string t.
Proof. induction s as [|c s IH]; simpl; [reflexivity|]. now rewrite IH. Qed.

Lemma chars_inj s t : list_ascii_of_string s = list_ascii_of_string t -> s = t.
Proof.
  intros H. rewrite <- (string_of_list_ascii_of_string s), H.
  apply string_of_list_ascii_of_string.
Qed.

Lemma append_inv_tail s1 s2 t : s1 +:+ t = s2 +:+ t -> s1 = s2.
Proof.
  intros H. apply chars_inj. apply (f_equal list_ascii_of_string) in H.
  rewrite !chars_append in H. eapply app_inv_tail. exact H.
Qed.

Lemma reports_bind {A} (m : Js A) (k : A -> Js unit) :
  conduct inRunMessage allowedClick 0 m -> (forall a, reports (k a)) ->
  reports (bind m k).
Proof.
  intros Hm Hk w. unfold bind.
  destruct (Hm w) as [(_ & (new & Hnew & Hall) & _) _].
  destruct (m w) as [[a|e|] w1]; simpl in *.
  - specialize (Hk a w1). destruct (k a w1) as [[[]|e|] w2].
    + destruct Hk as (earlier & Hout & Hearlier).
      exists (earlier ++ new). split.
      * rewrite Hout, Hnew. simpl. now rewrite app_assoc.
      * apply Forall_app. split; assumption.
    + destruct Hk as (new' & Hout & Hall').
      exists (new' ++ new). split.
      * rewrite Hout, Hnew. now rewrite app_assoc.
      * apply Forall_app. split; assumption.
    + exact I.
  - exists new. split; assumption.
  - exact I.
Qed.

Lemma reports_startBackupProcess fuel options : reports (startBackupProcess fuel options).
Proof.
  unfold startBackupProcess, startKeepalive, stopKeepalive, setProgress.
  apply reports_bind; [apply conduct_setStatus; intros; exact I|intros _].
  apply reports_bind; [apply conduct_setWorld; intros; repeat split; reflexivity|intros _].
  assert (reports
            (expertCb <- gets (fun w => expertCheckbox (env w) (clock w)) ;;
             match expertCb with
             | Some false =>
                 setStatus "Enabling Expert Mode..." ;;
                 wrapper <- gets (fun w => expertWrapper (env w) (clock w)) ;;
                 click (expertClickTarget wrapper) ;;
                 sleep 1500
             | _ => ret tt
             end ;;
             tabEls <- discoverTabs 10 ;;
             match tabEls with
             | [] => throw "Navigation not found – is the drone connected?"
             | _ =>
                 let tabs := map tabOfElement tabEls in
                 let filteredTabs := filterTabs options tabs in
                 let totalTabs := length filteredTabs in
                 modify (setProgressState {| current := 0; total := totalTabs |}) ;;
                 visitTabs fuel options totalTabs 1 filteredTabs ;;
                 modify (setProgressState {| current := totalTabs; total := totalTabs |}) ;;
                 setStatus "Building ZIP..." ;;
                 sendMessage ExtractionComplete
             end)) as Hbody.
  { apply reports_bind; [apply conduct_gets|intros expertCb].
    apply reports_bind.
    { destruct expertCb as [[|]|]; try apply conduct_ret.
      conduct_run. apply conduct_click. left. eexists. reflexivity. }
    intros _. apply reports_bind; [apply conduct_discoverTabs|intros tabEls].
    destruct tabEls as [|el els].
    - intros w. exists []. split; [reflexivity|constructor].
    - cbv zeta.
      apply reports_bind; [apply conduct_setWorld; intros; repeat split; reflexivity|intros _].
      apply reports_bind;
        [apply conduct_weaken with (fuel := fuel), conduct_visitTabs, filterTabs_blacklist
        |intros _].
      apply reports_bind; [apply conduct_setWorld; intros; repeat split; reflexivity|intros _].
      apply reports_bind; [apply conduct_setStatus; intros; exact I|intros _].
      intros w. exists []. split; [reflexivity|constructor]. }
  intros w. unfold tryFinally. specialize (Hbody w).
  lazymatch type of Hbody with
  | match ?run with _ => _ end => destruct run as [[[]|e|] w1]
  end; simpl; exact Hbody.
Qed.

(** Whatever way the process ends, the keepalive timer is stopped. *)
Lemma startBackupProcess_stops_keepalive fuel options w r w' :
  startBackupProcess fuel options w = (r, w') -> ended r -> keepaliveInterval w' = false.
Proof.
  unfold startBackupProcess. rewrite bind_setStatus.
  unfold startKeepalive, stopKeepalive. rewrite bind_modify. unfold tryFinally.
  lazymatch goal with
  | |- (let (r0, w0) := ?run in _) = _ -> _ => destruct run as [[[]|e|] w1]
  end; simpl.
  - intros [= <- <-] _. reflexivity.
  - intros [= <- <-] _. reflexivity.
  - intros [= <- <-] [].
Qed.

(** The messages of a run that returned: one verdict, sent last, after
    messages of the run itself. *)
Lemma runExtractionTask_returned fuel options w w' :
  runExtractionTask fuel options w = (Returned tt, w') ->
  backupRunning w' = false
  /\ abortRequested w' = false
  /\ keepaliveInterval w' = false
  /\ exists verdict earlier,
      outbox w' = verdict :: earlier ++ outbox w
      /\ Forall inRunMessage earlier
      /\ (verdict = ExtractionComplete
          \/ exists text, verdict = ExtractionError text).
Proof.
  pose proof (reports_startBackupProcess fuel options w) as Hrep.
  pose proof (startBackupProcess_stops_keepalive fuel options w) as Hkeep.
  unfold runExtractionTask, tryFinally, tryCatch.
  destruct (startBackupProcess fuel options w) as [[[]|e|] w1]; simpl in *.
  - intros [= <-]. simpl. repeat split.
    + apply (Hkeep _ _ eq_refl I).
    + destruct Hrep as (earlier & Hout & Hall).
      exists ExtractionComplete, earlier. repeat split; try assumption. now left.
  - intros [= <-]. simpl. repeat split.
    + apply (Hkeep _ _ eq_refl I).
    + destruct Hrep as (new & Hout & Hall).
      exists (ExtractionError ("Error: " +:+ e)), new. rewrite Hout.
      repeat split; try assumption. right. eauto.
  - discriminate.
Qed.


Lemma conduct_runExtractionTask fuel options :
  conduct runMessage allowedClick fuel (runExtractionTask fuel options).
Proof.
  unfold runExtractionTask.
  apply conduct_tryFinally; [|apply conduct_setWorld; intros; repeat split; reflexivity].
  apply conduct_tryCatch; [apply conduct_startBackupProcess|].
  intros e. apply conduct_sendMessage. exact I.
Qed.

(** A navigation link that may be clicked belongs to a panel whose class
    contains no blacklisted name. *)
Lemma allowedClick_link c :
  allowedClick ("li." +:+ c +:+ " > a.tabicon") ->
  existsb (fun b => includes c b) BLACKLIST = false.
Proof.
  intros [([| |] & Hexpert)|[(c' & Heq & Hsafe)|[(sel & i & Hin & Heq)|Hin]]].
  - discriminate.
  - discriminate.
  - discriminate.
  - injection Heq as Heq.
    change (c +:+ " > a.tabicon" = c' +:+ " > a.tabicon") in Heq.
    apply append_inv_tail in Heq. now subst.
  - unfold subTabTarget in Heq. simpl in Hin.
    repeat (destruct Hin as [<-|Hin]; [discriminate|]). destruct Hin.
  - simpl in Hin. repeat (destruct Hin as [Hin|Hin]; [discriminate|]). destruct Hin.
Qed.

(** X2.  Whatever the page shows and however the run ends, every click made
    during a run goes to what [expertCb.closest('label') ||
    expertCb.parentElement] finds around the expert-mode checkbox (the
    checkbox itself only when there is neither), to the navigation link of
    a panel whose class contains no blacklisted name, to a sub-tab found
    by one of the known sub-tab selectors, or to a clear button of the CLI
    panel.  In particular the navigation link of a panel whose class
    contains a blacklisted name is never clicked. *)
Theorem clicks_stay_on_safe_targets :
  forall fuel options w,
    exists new,
      clicked (page (snd (runExtractionTask fuel options w))) = new ++ clicked (page w)
      /\ Forall allowedClick new
      /\ (forall c,
             existsb (fun b => includes c b) BLACKLIST = true ->
             ~ In ("li." +:+ c +:+ " > a.tabicon") new).
Proof.
  intros fuel options w.
  destruct (conduct_runExtractionTask fuel options w) as [(_ & _ & new & Hnew & Hall) _].
  exists new. split; [exact Hnew|]. split; [exact Hall|].
  intros c Hblack Hin.
  rewrite Forall_forall in Hall. apply list_elem_of_In, Hall, allowedClick_link in Hin.
  congruence.
Qed.

Lemma clicks_stay_on_safe_targets_witness :
  existsb (fun b => includes "tab_presets" b) BLACKLIST = true
  /\ clicked (page (snd (runExtractionTask 5 defaultOptions (freshWorld noviceEnv emptyPage))))
     = ["li.tab_setup > a.tabicon"; expertClickTarget ClosestLabel]
  /\ ~ In "li.tab_presets > a.tabicon"
          (clicked (page (snd (runExtractionTask 5 defaultOptions
                                 (freshWorld noviceEnv emptyPage))))).
Proof.
  assert (existsb (fun b => includes "tab_presets" b) BLACKLIST = true) as Hblack
    by reflexivity.
  assert (clicked (page (snd (runExtractionTask 5 defaultOptions
                                (freshWorld noviceEnv emptyPage))))
          = ["li.tab_setup > a.tabicon"; expertClickTarget ClosestLabel]) as Hrun
    by (vm_compute; reflexivity).
  split; [exact Hblack|]. split; [exact Hrun|].
  destruct (clicks_stay_on_safe_targets 5 defaultOptions (freshWorld noviceEnv emptyPage))
    as (new & Hnew & _ & Hnever).
  rewrite Hnew. cbn [clicked page freshWorld emptyPage]. rewrite app_nil_r.
  apply (Hnever "tab_presets" Hblack).
Defined.


(** X3.  Whatever the page shows, whatever the options are and however the run
    ends, the only commands a run sends to the flight controller's
    terminal are "diff all" and "dump all". *)
Theorem only_the_listed_commands_are_sent :
  forall fuel options w,
    exists new,
      outbox (snd (runExtractionTask fuel options w)) = new ++ outbox w
      /\ (forall command,
             In (CliExecute (OpSend command)) new ->
             command = "diff all" \/ command = "dump all").
Proof.
  intros fuel options w.
  destruct (conduct_runExtractionTask fuel options w) as [(_ & (new & Hnew & Hall) & _) _].
  exists new. split; [exact Hnew|].
  intros command Hin. rewrite Forall_forall in Hall.
  apply list_elem_of_In, Hall in Hin. simpl in Hin.
  destruct Hin as [<-|[<-|[]]]; [now left|now right].
Qed.

Lemma only_the_listed_commands_are_sent_witness :
  commandsSent (outbox (snd (runExtractionTask 5 defaultOptions
                               (freshWorld cliPanelEnv emptyPage))))
  = ["dump all"; "diff all"]
  /\ exists new,
      outbox (snd (runExtractionTask 5 defaultOptions (freshWorld cliPanelEnv emptyPage)))
      = new ++ []
      /\ (forall command,
             In (CliExecute (OpSend command)) new ->
             command = "diff all" \/ command = "dump all").
Proof.
  split; [vm_compute; reflexivity|].
  exact (only_the_listed_commands_are_sent 5 defaultOptions (freshWorld cliPanelEnv emptyPage)).
Defined.

(* ===================================================================== *)
(** * Part XX. The work list and the progress total                   *)
(* ===================================================================== *)

(** [tallies] is proved unit by unit, like [conduct]: below the
    orchestration loop nothing writes the progress state, and every status
    report carries the state as it is. *)



Section Tallies.
Variable n : nat.















End Tallies.



Section TalliesUnits.
Variable n : nat.
Variable fuel : nat.









End TalliesUnits.

Section TalliesPanels.
Variable n : nat.
Variable fuel : nat.























End TalliesPanels.






(* ===================================================================== *)
(** * Part XXI. Captures, from the request to the saved file          *)
(* ===================================================================== *)

(** The minimum distance between capture requests, the scroll loop on a
    page that can be captured in full, the failure condition of the
    stitcher and what it means for a capture that was interrupted, what a
    capture leaves of the page, and the order in which sub-tabs are
    opened. *)

Lemma captureAttempts_first_try remaining attempt w :
  captureWorks (env w) (clock w) ->
  captureAttempts (S remaining) attempt w
  = (Returned (captureResult (captureReply (env w) (clock w))),
     pushOutbox CaptureTab (setLastCaptureTime (clock w) w)).
Proof.
  unfold captureWorks. intros Hok. cbn [captureAttempts].
  rewrite bind_modify, bind_sendMessage, bind_gets. cbn [env clock pushOutbox setLastCaptureTime].
  now rewrite Hok.
Qed.

(** The state in which the first attempt is made. *)
Lemma requestScreenshot_unfold w :
  exists w0,
    requestScreenshot w = captureAttempts 3 0 w0
    /\ clock w0 = firstAttemptAt w
    /\ env w0 = env w /\ page w0 = page w /\ outbox w0 = outbox w
    /\ lastCaptureTime w0 = lastCaptureTime w
    /\ progressState w0 = progressState w
    /\ (quiet w -> quiet w0).
Proof.
  unfold requestScreenshot, firstAttemptAt. rewrite !bind_gets.
  destruct (0 <? MIN_CAPTURE_INTERVAL - (clock w - lastCaptureTime w)) eqn:Hwait.
  - apply Z.ltb_lt in Hwait. rewrite bind_sleep. eexists. split; [reflexivity|].
    rewrite sleep_clock, sleep_env, sleep_page, sleep_outbox, sleep_lastCaptureTime,
      sleep_progressState.
    do 6 (split; [reflexivity|]). apply sleep_quiet.
  - apply Z.ltb_ge in Hwait. rewrite bind_ret. exists w.
    split; [reflexivity|]. split; [lia|]. do 5 (split; [reflexivity|]). tauto.
Qed.

Lemma requestScreenshot_works w :
  captureWorks (env w) (firstAttemptAt w) ->
  exists url w',
    requestScreenshot w = (Returned (Some url), w')
    /\ truthy (Some url) = true
    /\ clock w' = firstAttemptAt w
    /\ lastCaptureTime w' = firstAttemptAt w
    /\ env w' = env w /\ page w' = page w
    /\ outbox w' = CaptureTab :: outbox w
    /\ (quiet w -> quiet w').
Proof.
  intros Hok.
  destruct (requestScreenshot_unfold w) as (w0 & Hrun & Hc & He & Hp & Ho & _ & _ & Hq).
  rewrite Hrun, captureAttempts_first_try by (rewrite He, Hc; exact Hok).
  rewrite He, Hc. unfold captureWorks in Hok.
  destruct (captureResult (captureReply (env w) (firstAttemptAt w))) as [url|] eqn:Hres;
    [|discriminate].
  exists url, (pushOutbox CaptureTab (setLastCaptureTime (firstAttemptAt w) w0)).
  cbn [clock lastCaptureTime env page outbox pushOutbox setLastCaptureTime].
  rewrite Ho. do 7 (split; [first [assumption|reflexivity]|]).
  intros Hquiet. apply Hq in Hquiet. exact Hquiet.
Qed.

(** Every attempt is stamped; the stamp never runs ahead of the clock and
    never goes back. *)
Lemma captureAttempts_stamps remaining attempt w :
  exists r w',
    captureAttempts (S remaining) attempt w = (Returned r, w')
    /\ clock w <= lastCaptureTime w' <= clock w'
    /\ (truthy r = true -> lastCaptureTime w' = clock w').
Proof.
  revert attempt w. induction remaining as [|remaining IH]; intros attempt w.
  - cbn [captureAttempts]. rewrite bind_modify, bind_sendMessage, bind_gets.
    cbn [env clock pushOutbox setLastCaptureTime].
    destruct (truthy (captureResult (captureReply (env w) (clock w)))) eqn:Hres.
    + eexists _, _. split; [reflexivity|]. simpl. split; [lia|reflexivity].
    + rewrite bind_sleep. cbn [ret]. eexists _, _. split; [reflexivity|].
      rewrite sleep_lastCaptureTime, sleep_clock. simpl. split; [lia|discriminate].
  - destruct (truthy (captureResult (captureReply (env w) (clock w)))) eqn:Hres.
    + rewrite captureAttempts_first_try by exact Hres.
      eexists _, _. split; [reflexivity|]. simpl. split; [lia|reflexivity].
    + rewrite captureAttempts_failed by exact Hres.
      set (w1 := snd (sleep _ _)).
      destruct (IH (S attempt) w1) as (r & w' & Hrun & Hstamp & Hlast).
      exists r, w'. split; [exact Hrun|]. split; [|exact Hlast].
      assert (clock w <= clock w1) by (subst w1; rewrite sleep_clock; simpl; lia).
      lia.
Qed.

(** X4.  A capture request is never attempted before [MIN_CAPTURE_INTERVAL]
    has passed since the last one: the first attempt is made now or when
    the interval is over, whichever is later.  The request always returns;
    the recorded time of the last capture then lies between the first
    attempt and the present, and equals the present when a frame was
    obtained.  When the capture service works at the first attempt, the
    request returns its frame at that instant after a single [captureTab]
    message. *)
Theorem capture_requests_keep_their_distance :
  forall w : World,
    lastCaptureTime w + MIN_CAPTURE_INTERVAL <= firstAttemptAt w
    /\ (exists r w',
           requestScreenshot w = (Returned r, w')
           /\ firstAttemptAt w <= lastCaptureTime w' <= clock w'
           /\ (truthy r = true -> lastCaptureTime w' = clock w'))
    /\ (captureWorks (env w) (firstAttemptAt w) ->
        exists url w',
          requestScreenshot w = (Returned (Some url), w')
          /\ clock w' = firstAttemptAt w
          /\ lastCaptureTime w' = firstAttemptAt w
          /\ outbox w' = CaptureTab :: outbox w).
Proof.
  intros w. split; [unfold firstAttemptAt; lia|]. split.
  - destruct (requestScreenshot_unfold w) as (w0 & Hrun & Hc & _).
    destruct (captureAttempts_stamps 2 0 w0) as (r & w' & Hattempts & Hstamp & Hlast).
    exists r, w'. rewrite Hrun, <- Hc. repeat split; try assumption; lia.
  - intros Hok.
    destruct (requestScreenshot_works w Hok) as (url & w' & Hrun & _ & Hc & Hl & _ & _ & Ho & _).
    exists url, w'. repeat split; assumption.
Qed.

Lemma capture_requests_keep_their_distance_witness :
  captureWorks (env (freshWorld plainEnv emptyPage))
               (firstAttemptAt (freshWorld plainEnv emptyPage))
  /\ exists url w',
      requestScreenshot (freshWorld plainEnv emptyPage) = (Returned (Some url), w')
      /\ clock w' = 1100
      /\ lastCaptureTime w' = 1100.
Proof.
  assert (captureWorks (env (freshWorld plainEnv emptyPage))
                       (firstAttemptAt (freshWorld plainEnv emptyPage))) as Hok
    by reflexivity.
  split; [exact Hok|].
  destruct (capture_requests_keep_their_distance (freshWorld plainEnv emptyPage))
    as (_ & _ & Hfirst).
  destruct (Hfirst Hok) as (url & w' & Hrun & Hc & Hl & _).
  exists url, w'. repeat split; assumption.
Defined.

Lemma sumZ_app a b : sumZ (a ++ b) = sumZ a + sumZ b.
Proof. unfold sumZ. induction a as [|x a IH]; simpl; [reflexivity|]. rewrite IH. lia. Qed.




Section StitcherTotality.
Context {num : Type} `{JsNumber num}.

Lemma drawParts_None images width imgHeight scale deltas :
  forall i y c,
    drawParts images width imgHeight scale deltas i y c = None
    <-> (deltas <> [] /\ length images <= i + length deltas)%nat.
Proof.
  induction deltas as [|d ds IH]; intros i y c; simpl.
  - split; [discriminate|]. intros [Hne _]. now contradiction Hne.
  - destruct (images !! S i) as [img|] eqn:Himg.
    + apply lookup_lt_Some in Himg. rewrite IH. split.
      * intros [_ Hlen]. split; [discriminate|lia].
      * intros [_ Hlen]. split; [|lia]. intros ->. simpl in Hlen. lia.
    + apply lookup_ge_None in Himg. split; [|reflexivity].
      intros _. split; [discriminate|lia].
Qed.

Lemma stitchCanvas_None innerWidth images deltas :
  stitchCanvas innerWidth images deltas = None
  <-> (length images <= length deltas)%nat.
Proof.
  unfold stitchCanvas. destruct images as [|img0 rest]; cbn [lookup list_lookup].
  - split; [simpl; lia|reflexivity].
  - rewrite drawParts_None. simpl. split.
    + intros [_ Hlen]. lia.
    + intros Hlen. split; [|lia]. intros ->. simpl in Hlen. lia.
Qed.

End StitcherTotality.

(** X7.  The stitcher returns [null] exactly when one of the frames cannot
    be decoded or there are at least as many scroll deltas as frames (so
    also when there is no frame at all).  In every other case it returns
    [canvas.toDataURL] of the composite canvas, which is as wide as the
    first frame and as high as the first frame plus the scaled deltas. *)
Theorem stitcher_fails_exactly_when :
  forall {num : Type} `{JsNumber num} (innerWidth : num)
         (decodeImage : string -> option Image) (toDataURL : Canvas -> string)
         (dataUrls : list string) (scrollDeltas : list num),
    (stitchScreenshots innerWidth decodeImage toDataURL dataUrls scrollDeltas = None
     <-> (Exists (fun url => decodeImage url = None) dataUrls
          \/ (length dataUrls <= length scrollDeltas)%nat))
    /\ ((exists img0 rest c,
            mapM decodeImage dataUrls = Some (img0 :: rest)
            /\ stitchCanvas innerWidth (img0 :: rest) scrollDeltas = Some c
            /\ stitchScreenshots innerWidth decodeImage toDataURL dataUrls scrollDeltas
               = Some (toDataURL c)
            /\ canvas_width c = img_width img0
            /\ canvas_height c
               = img_height img0
                 + sumZ (map (newPixels (num_div (num_of_Z (img_width img0)) innerWidth))
                             scrollDeltas))
        <-> (Forall (fun url => is_Some (decodeImage url)) dataUrls
             /\ (length scrollDeltas < length dataUrls)%nat)).
Proof.
  intros num HN innerWidth decode toURL dataUrls deltas.
  assert (stitchScreenshots innerWidth decode toURL dataUrls deltas = None
          <-> (Exists (fun url => decode url = None) dataUrls
               \/ (length dataUrls <= length deltas)%nat)) as Hnull.
  { unfold stitchScreenshots.
    destruct (mapM decode dataUrls) as [images|] eqn:Hdec.
    - pose proof (length_mapM _ _ _ Hdec) as Hlen.
      destruct (stitchCanvas innerWidth images deltas) as [c|] eqn:Hst; simpl.
      + split; [discriminate|]. intros [Hex|Hshort].
        * apply mapM_None in Hex. congruence.
        * assert (stitchCanvas innerWidth images deltas = None) as Hnone
            by (apply stitchCanvas_None; lia).
          congruence.
      + split; [|reflexivity]. intros _. right.
        apply stitchCanvas_None in Hst. lia.
    - split; [|reflexivity]. intros _. left. now apply mapM_None. }
  split; [exact Hnull|]. split.
  - intros (img0 & rest & c & Hdec & _ & Hresult & _).
    assert (~ (Exists (fun url => decode url = None) dataUrls
               \/ (length dataUrls <= length deltas)%nat)) as Hnot.
    { intros Hcond. apply Hnull in Hcond. congruence. }
    split; [|lia].
    apply Forall_forall. intros url Hin.
    destruct (decode url) as [img|] eqn:Hurl; [eauto|].
    exfalso. apply Hnot. left. apply Exists_exists. exists url. split; assumption.
  - intros [Hall Hlen].
    destruct (stitchScreenshots innerWidth decode toURL dataUrls deltas) as [result|] eqn:Hrun.
    2:{ exfalso. destruct (proj1 Hnull (@Logic.eq_refl _ _)) as [Hex|Hshort]; [|lia].
        apply Exists_exists in Hex as (url & Hin & Hnone).
        rewrite Forall_forall in Hall. destruct (Hall url Hin) as [img Himg]. congruence. }
    unfold stitchScreenshots in Hrun.
    destruct (mapM decode dataUrls) as [[|img0 rest]|] eqn:Hdec; [| |discriminate].
    { discriminate. }
    destruct (stitchCanvas innerWidth (img0 :: rest) deltas) as [c|] eqn:Hst; [|discriminate].
    simpl in Hrun. injection Hrun as <-.
    exists img0, rest, c. split; [reflexivity|]. split; [exact Hst|].
    split; [reflexivity|].
    unfold stitchCanvas in Hst. cbn [lookup list_lookup] in Hst.
    pose proof (drawParts_dims _ _ _ _ _ _ _ _ _ Hst) as [Hcw Hch].
    cbn [canvas_width canvas_height drawImage3 drawImage9 createCanvas] in Hcw, Hch.
    split; [exact Hcw|]. rewrite Hch. apply totalHeightOf_sum.
Qed.

Lemma stitcher_fails_exactly_when_witness :
  stitchScreenshots (inject_Z 2) frameDecoder frameEncoder
    ["data:image/jpeg;base64,AAAA"; "data:image/jpeg;base64,BBBB"] [1%Q; 1%Q]
  = None
  /\ exists c,
      stitchScreenshots (inject_Z 2) frameDecoder frameEncoder
        ["data:image/jpeg;base64,AAAA"; "data:image/jpeg;base64,BBBB"] [1%Q]
      = Some (frameEncoder c)
      /\ canvas_width c = 2
      /\ canvas_height c = 3.
Proof.
  split.
  - apply (proj1 (stitcher_fails_exactly_when (inject_Z 2) frameDecoder frameEncoder
                    ["data:image/jpeg;base64,AAAA"; "data:image/jpeg;base64,BBBB"]
                    [1%Q; 1%Q])).
    right. simpl. lia.
  - destruct (proj2 (proj2 (stitcher_fails_exactly_when (inject_Z 2) frameDecoder
                              frameEncoder
                              ["data:image/jpeg;base64,AAAA";
                               "data:image/jpeg;base64,BBBB"] [1%Q])))
      as (img0 & rest & c & Hdec & _ & Hrun & Hw & Hh).
    { split; [repeat constructor; eexists; reflexivity|simpl; lia]. }
    injection Hdec as <- <-.
    exists c. split; [exact Hrun|]. split; [exact Hw|]. rewrite Hh. reflexivity.
Defined.

Lemma saveParts_run folderName baseFileName parts :
  forall i w,
    saveParts folderName baseFileName i parts w
    = (Returned tt,
       fold_left (fun w m => pushOutbox m w) (partFiles folderName baseFileName i parts) w).
Proof.
  induction parts as [|p rest IH]; intros i w; simpl; [reflexivity|].
  unfold saveToZip. rewrite bind_sendMessage. apply IH.
Qed.

Lemma pushOutbox_all ms w :
  outbox (fold_left (fun w m => pushOutbox m w) ms w) = rev ms ++ outbox w.
Proof.
  revert w. induction ms as [|m ms IH]; intros w; simpl; [reflexivity|].
  rewrite IH. simpl. now rewrite <- app_assoc.
Qed.

(** How the scroll loop can return: with one part more than deltas when
    the bottom was reached, with as many parts as deltas when a capture
    failed. *)
Lemma scrollLoop_shape n :
  forall baseFileName parts scrollDeltas w ps ds w',
    length parts = length scrollDeltas ->
    scrollLoop n baseFileName parts scrollDeltas w = (Returned (ps, ds), w') ->
    (length ps = S (length ds)
     /\ scrollHeight w' - 5 <= scrollTop (page w') + clientHeight w')
    \/ (length ps = length ds
        /\ head (outbox w') = Some (captureWarning baseFileName w')).
Proof.
  induction n as [|n IH]; intros baseFileName parts scrollDeltas w ps ds w' Hlen Hrun;
    [discriminate|].
  cbn [scrollLoop] in Hrun.
  apply bind_Returned in Hrun as ([] & w0 & _ & Hrun).
  apply bind_Returned in Hrun as (dataUrl & w1 & _ & Hrun).
  assert (forall w2, (setStatus ("WARNING: Screenshot failed for " +:+ baseFileName) ;;
                      ret (parts, scrollDeltas)) w1 = (Returned (ps, ds), w2) ->
                     length ps = length ds
                     /\ head (outbox w2) = Some (captureWarning baseFileName w2)) as Hfail.
  { intros w2. rewrite bind_setStatus. intros [= <- <- <-]. split; [exact Hlen|reflexivity]. }
  destruct dataUrl as [url|]; [|right; apply Hfail; exact Hrun].
  destruct (truthy (Some url)); [|right; apply Hfail; exact Hrun].
  rewrite !bind_gets in Hrun.
  destruct (scrollHeight w1 - 5 <=? scrollTop (page w1) + clientHeight w1) eqn:Hbottom.
  - injection Hrun as <- <- <-. left. apply Z.leb_le in Hbottom.
    split; [|exact Hbottom]. rewrite !length_app. simpl. lia.
  - unfold assignScrollTop in Hrun. rewrite bind_modify, bind_sleep, bind_gets in Hrun.
    apply IH in Hrun; [exact Hrun|]. rewrite !length_app. simpl. lia.
Qed.

(** X6.  When the scroll loop returns, either it reached the bottom of the
    page, and there is one frame more than there are scroll deltas; or a
    capture failed on the way: then a warning was the last message sent,
    there are as many deltas as frames, the stitcher refuses them, and (if
    at least two frames were taken) the frames are saved one by one as
    [<base>_part1.jpg], [<base>_part2.jpg], ... in the order in which they
    were taken. *)
Theorem interrupted_capture_is_saved_in_parts :
  forall fuel folderName baseFileName w parts deltas w',
    scrollLoop fuel baseFileName [] [] w = (Returned (parts, deltas), w') ->
    (length parts = S (length deltas)
     /\ scrollHeight w' - 5 <= scrollTop (page w') + clientHeight w')
    \/ (length parts = length deltas
        /\ head (outbox w') = Some (captureWarning baseFileName w')
        /\ stitch parts deltas w' = (Returned None, w')
        /\ ((2 <= length parts)%nat ->
            exists w'',
              saveCaptured folderName baseFileName parts deltas w' = (Returned tt, w'')
              /\ outbox w''
                 = rev (partFiles folderName baseFileName 0 parts) ++ outbox w')).
Proof.
  intros fuel folderName baseFileName w parts deltas w' Hrun.
  apply scrollLoop_shape in Hrun; [|reflexivity].
  destruct Hrun as [Hbottom|[Hlen Hwarn]]; [now left|].
  right. split; [exact Hlen|]. split; [exact Hwarn|].
  assert (stitch parts deltas w' = (Returned None, w')) as Hstitch.
  { unfold stitch, gets, stitchScreenshots. f_equal. f_equal.
    destruct (mapM _ parts) as [images|] eqn:Hdec; [|reflexivity].
    apply length_mapM in Hdec.
    assert (stitchCanvas (inject_Z (windowInnerWidth (env w'))) images (map inject_Z deltas)
            = None) as ->; [|reflexivity].
    apply stitchCanvas_None. rewrite length_map. lia. }
  split; [exact Hstitch|]. intros Htwo.
  destruct parts as [|p [|q rest]]; try (simpl in Htwo; lia).
  cbn [saveCaptured]. rewrite (bind_run _ _ _ _ _ Hstitch), saveParts_run.
  eexists. split; [reflexivity|]. apply pushOutbox_all.
Qed.

Lemma interrupted_capture_is_saved_in_parts_witness :
  exists parts deltas w' w'',
    scrollLoop 6 "01_01_Setup" [] [] (freshWorld flakyEnv emptyPage)
    = (Returned (parts, deltas), w')
    /\ length parts = 2%nat
    /\ length deltas = 2%nat
    /\ saveCaptured "01_Setup" "01_01_Setup" parts deltas w' = (Returned tt, w'')
    /\ outbox w'' = rev (partFiles "01_Setup" "01_01_Setup" 0 parts) ++ outbox w'.
Proof.
  assert (exists parts deltas w',
             scrollLoop 6 "01_01_Setup" [] [] (freshWorld flakyEnv emptyPage)
             = (Returned (parts, deltas), w')
             /\ length parts = 2%nat /\ length deltas = 2%nat)
    as (parts & deltas & w' & Hrun & Hparts & Hdeltas)
    by (do 3 eexists; vm_compute; repeat split; reflexivity).
  destruct (interrupted_capture_is_saved_in_parts 6 "01_Setup" "01_01_Setup" _ _ _ _ Hrun)
    as [[Hlen _]|(_ & _ & _ & Hsaved)].
  - exfalso. rewrite Hparts, Hdeltas in Hlen. discriminate.
  - destruct Hsaved as (w'' & Hsave & Hout); [rewrite Hparts; lia|].
    exists parts, deltas, w', w''. repeat split; assumption.
Defined.

Lemma discoverTabs_gives_up n :
  forall w,
    (forall k, (k < n)%nat -> visibleTabsAt (env w) (clock w + 500 * Z.of_nat k) = []) ->
    exists w',
      discoverTabs n w = (Returned [], w')
      /\ clock w' = clock w + 500 * Z.of_nat n
      /\ env w' = env w
      /\ outbox w'
         = repeat (SetStatus "Waiting for Betaflight UI..." (progressState w)) n ++ outbox w
      /\ keepaliveInterval w' = keepaliveInterval w.
Proof.
  induction n as [|n IH]; intros w Hnone.
  - exists w. repeat split; try reflexivity. simpl. lia.
  - cbn [discoverTabs]. unfold querySelectorAllNow. rewrite bind_gets.
    pose proof (Hnone O ltac:(lia)) as H0. simpl in H0. rewrite Z.add_0_r in H0.
    unfold visibleTabsAt in H0. rewrite H0. cbn [length Nat.ltb Nat.leb].
    rewrite bind_setStatus, bind_sleep.
    set (w1 := snd (sleep 500 _)).
    assert (env w1 = env w) as He1 by (subst w1; now rewrite sleep_env).
    assert (clock w1 = clock w + 500) as Hc1 by (subst w1; now rewrite sleep_clock).
    destruct (IH w1) as (w' & Hrun & Hc & He & Ho & Hk).
    { intros k Hk. rewrite He1, Hc1.
      replace (clock w + 500 + 500 * Z.of_nat k) with (clock w + 500 * Z.of_nat (S k)) by lia.
      apply Hnone. lia. }
    exists w'. split; [exact Hrun|]. split; [lia|]. split; [congruence|]. split.
    + rewrite Ho. subst w1. rewrite sleep_outbox, sleep_progressState. simpl.
      apply repeat_shift.
    + rewrite Hk. subst w1. unfold sleep, modify. simpl.
      destruct (abortAt (env w)) as [a|]; [destruct (_ && _)|]; reflexivity.
Qed.

Lemma discoverTabs_finds n :
  forall w j,
    (j < n)%nat ->
    (forall k, (k < j)%nat -> visibleTabsAt (env w) (clock w + 500 * Z.of_nat k) = []) ->
    visibleTabsAt (env w) (clock w + 500 * Z.of_nat j) <> [] ->
    exists w',
      discoverTabs n w
      = (Returned (visibleTabsAt (env w) (clock w + 500 * Z.of_nat j)), w')
      /\ clock w' = clock w + 500 * Z.of_nat j.
Proof.
  induction n as [|n IH]; intros w j Hj Hnone Hsome; [lia|].
  cbn [discoverTabs]. unfold querySelectorAllNow. rewrite bind_gets.
  fold (visibleTabsAt (env w) (clock w)).
  destruct j as [|j].
  - simpl in Hsome. rewrite Z.add_0_r in Hsome.
    destruct (visibleTabsAt (env w) (clock w)) as [|el els] eqn:Hvis; [congruence|].
    exists w. simpl. rewrite Z.add_0_r, Hvis. split; [reflexivity|lia].
  - pose proof (Hnone O ltac:(lia)) as H0. simpl in H0. rewrite Z.add_0_r in H0.
    rewrite H0. cbn [length Nat.ltb Nat.leb].
    rewrite bind_setStatus, bind_sleep.
    set (w1 := snd (sleep 500 _)).
    assert (env w1 = env w) as He1 by (subst w1; now rewrite sleep_env).
    assert (clock w1 = clock w + 500) as Hc1 by (subst w1; now rewrite sleep_clock).
    assert (forall k, clock w1 + 500 * Z.of_nat k = clock w + 500 * Z.of_nat (S k)) as Hshift
      by (intros k; lia).
    destruct (IH w1 j) as (w' & Hrun & Hc); [lia| | |].
    + intros k Hk. rewrite He1, Hshift. apply Hnone. lia.
    + rewrite He1, Hshift. exact Hsome.
    + exists w'. rewrite Hrun, He1, Hshift. split; [reflexivity|]. lia.
Qed.

(** X9.  The panel discovery polls the navigation every 500 ms, at most ten
    times.  If the navigation first shows visible entries at the [j]-th
    poll ([j < 10]), the discovery returns these entries after [500 * j]
    ms.  If it shows none at any of the ten polls, the backup process ends
    after 5000 ms with "Navigation not found – is the drone connected?",
    having sent the start status and ten waiting statuses, and with the
    keepalive timer stopped. *)
Theorem discovery_waits_for_the_navigation :
  forall (w : World),
    (forall j,
        (j < 10)%nat ->
        (forall k, (k < j)%nat -> visibleTabsAt (env w) (clock w + 500 * Z.of_nat k) = []) ->
        visibleTabsAt (env w) (clock w + 500 * Z.of_nat j) <> [] ->
        exists w',
          discoverTabs 10 w
          = (Returned (visibleTabsAt (env w) (clock w + 500 * Z.of_nat j)), w')
          /\ clock w' = clock w + 500 * Z.of_nat j)
    /\ ((forall k, (k < 10)%nat -> visibleTabsAt (env w) (clock w + 500 * Z.of_nat k) = []) ->
        forall fuel options,
          expertCheckbox (env w) (clock w) <> Some false ->
          exists w',
            startBackupProcess fuel options w
            = (Thrown "Navigation not found – is the drone connected?", w')
            /\ clock w' = clock w + 5000
            /\ keepaliveInterval w' = false
            /\ outbox w'
               = repeat (SetStatus "Waiting for Betaflight UI..." (progressState w)) 10
                 ++ SetStatus "Starting backup..." (progressState w) :: outbox w).
Proof.
  intros w. split; [intros j; apply discoverTabs_finds|].
  intros Hnone fuel options Hexpert.
  unfold startBackupProcess. rewrite bind_setStatus.
  unfold startKeepalive, stopKeepalive. rewrite bind_modify.
  set (w1 := setKeepalive true _).
  destruct (discoverTabs_gives_up 10 w1) as (w2 & Hrun & Hc & He & Ho & Hk).
  { intros k Hk. apply Hnone. exact Hk. }
  unfold tryFinally. rewrite bind_gets.
  assert (forall (k : unit -> Js unit),
             bind (match expertCheckbox (env w1) (clock w1) with
                   | Some false =>
                       setStatus "Enabling Expert Mode..." ;;
                       wrapper <- gets (fun w => expertWrapper (env w) (clock w)) ;;
                 click (expertClickTarget wrapper) ;;
                       sleep 1500
                   | _ => ret tt
                   end) k w1 = k tt w1) as Hskip.
  { intros k. change (expertCheckbox (env w1) (clock w1))
      with (expertCheckbox (env w) (clock w)).
    destruct (expertCheckbox (env w) (clock w)) as [[|]|]; try reflexivity.
    now contradiction Hexpert. }
  rewrite Hskip, (bind_run _ _ _ _ _ Hrun). cbn [throw modify].
  eexists. split; [reflexivity|]. cbn [clock keepaliveInterval outbox setKeepalive].
  split; [rewrite Hc; simpl; lia|]. split; [reflexivity|]. exact Ho.
Qed.

Lemma discovery_waits_for_the_navigation_witness :
  exists w',
    startBackupProcess 5 defaultOptions (freshWorld plainEnv emptyPage)
    = (Thrown "Navigation not found – is the drone connected?", w')
    /\ clock w' = 5000
    /\ keepaliveInterval w' = false.
Proof.
  destruct (discovery_waits_for_the_navigation (freshWorld plainEnv emptyPage)) as [_ Hnone].
  destruct (Hnone (fun k _ => Logic.eq_refl) 5%nat defaultOptions) as (w' & Hrun & Hclock & Hkeep & _).
  - discriminate.
  - exists w'. repeat split; assumption.
Defined.

Section Keeps.
Variable R : Page -> Page -> Prop.
Hypothesis R_refl : forall p, R p p.
Hypothesis R_trans : forall p1 p2 p3, R p1 p2 -> R p2 p3 -> R p1 p3.
Hypothesis R_scroll : forall v p, R p (setPageScrollTop v p).

Lemma keeps_ret {A} (a : A) : keeps R (ret a).
Proof. intros w. apply R_refl. Qed.

Lemma keeps_throw {A} e : keeps R (@throw A e).
Proof. intros w. apply R_refl. Qed.

Lemma keeps_gets {A} (f : World -> A) : keeps R (gets f).
Proof. intros w. apply R_refl. Qed.

Lemma keeps_outOfFuel {A} : keeps R (@outOfFuel A).
Proof. intros w. apply R_refl. Qed.

Lemma keeps_checkAbort : keeps R checkAbort.
Proof. intros w. unfold checkAbort. destruct (abortRequested w); apply R_refl. Qed.

Lemma keeps_bind {A B} (m : Js A) (k : A -> Js B) :
  keeps R m -> (forall a, keeps R (k a)) -> keeps R (bind m k).
Proof.
  intros Hm Hk w. unfold bind. specialize (Hm w).
  destruct (m w) as [[a|e|] w1]; simpl in *; try exact Hm.
  eapply R_trans; [exact Hm|apply Hk].
Qed.

Lemma keeps_sleep ms : keeps R (sleep ms).
Proof. intros w. rewrite sleep_page. apply R_refl. Qed.

Lemma keeps_sendMessage m : keeps R (sendMessage m).
Proof. intros w. apply R_refl. Qed.

Lemma keeps_setStatus msg : keeps R (setStatus msg).
Proof. intros w. apply R_refl. Qed.

(** A change of the script's own variables. *)
Lemma keeps_modify (f : World -> World) :
  (forall w, page (f w) = page w) -> keeps R (modify f).
Proof. intros Hf w. simpl. rewrite Hf. apply R_refl. Qed.

Lemma keeps_assignScrollTop v : keeps R (assignScrollTop v).
Proof. intros w. apply R_scroll. Qed.

Lemma keeps_isConnected : keeps R isConnected.
Proof. intros w. destruct (isConnected_pure w) as [-> _]. apply R_refl. Qed.

End Keeps.

Ltac keeps_step :=
  lazymatch goal with
  | |- keeps _ (ret _) => apply keeps_ret
  | |- keeps _ (throw _) => apply keeps_throw
  | |- keeps _ (gets _) => apply keeps_gets
  | |- keeps _ outOfFuel => apply keeps_outOfFuel
  | |- keeps _ checkAbort => apply keeps_checkAbort
  | |- keeps _ (sleep _) => apply keeps_sleep
  | |- keeps _ (sendMessage _) => apply keeps_sendMessage
  | |- keeps _ (setStatus _) => apply keeps_setStatus
  | |- keeps _ (saveToZip _ _ _ _) => apply keeps_sendMessage
  | |- keeps _ (assignScrollTop _) => apply keeps_assignScrollTop
  | |- keeps _ (modify _) => apply keeps_modify; [|reflexivity]
  | |- keeps _ (bind _ _) => apply keeps_bind; [| |intros]
  | |- keeps _ (match ?x with _ => _ end) => destruct x
  end; try assumption.

Section KeepsCapture.
Variable R : Page -> Page -> Prop.
Hypothesis R_refl : forall p, R p p.
Hypothesis R_trans : forall p1 p2 p3, R p1 p2 -> R p2 p3 -> R p1 p3.
Hypothesis R_scroll : forall v p, R p (setPageScrollTop v p).

Lemma keeps_captureAttempts remaining attempt :
  keeps R (captureAttempts remaining attempt).
Proof.
  revert attempt. induction remaining as [|remaining IH]; intros attempt; simpl.
  - now apply keeps_ret.
  - repeat keeps_step. apply IH.
Qed.

Lemma keeps_requestScreenshot : keeps R requestScreenshot.
Proof. unfold requestScreenshot. repeat keeps_step. apply keeps_captureAttempts. Qed.

Lemma keeps_scrollLoop n baseFileName parts scrollDeltas :
  keeps R (scrollLoop n baseFileName parts scrollDeltas).
Proof.
  revert parts scrollDeltas. induction n as [|n IH]; intros parts scrollDeltas; simpl.
  - now apply keeps_outOfFuel.
  - repeat keeps_step; first [apply keeps_requestScreenshot | apply IH].
Qed.

Lemma keeps_saveParts folderName baseFileName i parts :
  keeps R (saveParts folderName baseFileName i parts).
Proof.
  revert i. induction parts as [|p parts IH]; intros i; simpl.
  - now apply keeps_ret.
  - repeat keeps_step. apply IH.
Qed.

Lemma keeps_saveCaptured folderName baseFileName parts scrollDeltas :
  keeps R (saveCaptured folderName baseFileName parts scrollDeltas).
Proof.
  unfold saveCaptured, stitch.
  destruct parts as [|p [|q parts]]; repeat keeps_step; apply keeps_saveParts.
Qed.

End KeepsCapture.

Lemma samePage_refl p : samePage p p.
Proof. reflexivity. Qed.

Lemma samePage_trans p1 p2 p3 : samePage p1 p2 -> samePage p2 p3 -> samePage p1 p3.
Proof. unfold samePage. congruence. Qed.

Lemma samePage_scroll v p : samePage p (setPageScrollTop v p).
Proof. reflexivity. Qed.

Ltac samePage_side :=
  first [exact samePage_refl | exact samePage_trans | exact samePage_scroll].

Lemma captureAndSave_page fuel folderName baseFileName w r w' :
  captureAndSave fuel folderName baseFileName w = (r, w') ->
  ended r ->
  samePage (page w) (page w').
Proof.
  unfold captureAndSave, assignScrollTop.
  rewrite bind_modify, bind_sleep, !bind_gets.
  set (w1 := snd (sleep 300 _)).
  assert (samePage (page w) (page w1)) as Hb1
    by (subst w1; rewrite sleep_page; reflexivity).
  destruct (scrollHeight w1 - clientHeight w1 <=? 100).
  - intros Hrun _. eapply samePage_trans; [exact Hb1|].
    assert (keeps samePage
              (dataUrl <- requestScreenshot ;;
               match dataUrl with
               | Some url =>
                   if truthy dataUrl
                   then saveToZip folderName (baseFileName +:+ ".jpg") url true
                   else setStatus ("WARNING: Screenshot failed for " +:+ baseFileName)
               | None => setStatus ("WARNING: Screenshot failed for " +:+ baseFileName)
               end)) as Hkeep.
    { apply keeps_bind; [exact samePage_trans| |intros dataUrl].
      - apply keeps_requestScreenshot; samePage_side.
      - destruct dataUrl as [url|]; [destruct (truthy _)|]; intros w0; apply samePage_refl. }
    specialize (Hkeep w1). rewrite Hrun in Hkeep. exact Hkeep.
  - unfold hideStickyBottomElements at 1. unfold bind at 1.
    set (k := stickyBars (env w1) (clock w1)).
    set (w2 := setPage _ w1).
    assert (keeps samePage
              (modify (fun w =>
                 setPage (setPageScrollTop
                            (Z.max 0 (Z.min 0 (Z.max 0 (scrollHeight w - clientHeight w))))
                            (page w)) w) ;;
               sleep 200 ;;
               r <- scrollLoop fuel baseFileName [] [] ;;
               saveCaptured folderName baseFileName (fst r) (snd r))) as Hbody.
    { apply keeps_bind; [exact samePage_trans|apply (keeps_assignScrollTop _ samePage_scroll 0)|].
      intros _. apply keeps_bind; [exact samePage_trans|apply keeps_sleep, samePage_refl|].
      intros _. apply keeps_bind; [exact samePage_trans| |intros r0].
      - apply keeps_scrollLoop; samePage_side.
      - apply keeps_saveCaptured; samePage_side. }
    specialize (Hbody w2). unfold tryFinally.
    assert (forall w3,
               samePage (page w2) (page w3) ->
               samePage (page w)
                 (page (setPage (setPageHiddenBars (hiddenBars (page w3) - k) (page w3)) w3)))
      as Hrestore.
    { intros w3 H3. eapply samePage_trans; [exact Hb1|]. unfold samePage in *.
      pose proof (f_equal hiddenBars H3) as Hbars.
      pose proof (f_equal pidSelect H3) as Hpid.
      pose proof (f_equal rateSelect H3) as Hrate.
      pose proof (f_equal clicked H3) as Hclicked.
      subst w2. simpl in *. unfold setPageScrollTop. simpl.
      rewrite Hbars, Hpid, Hrate, Hclicked. f_equal. lia. }
    lazymatch type of Hbody with
    | samePage _ (page (snd ?run)) => destruct run as [[r0|e|] w3]
    end; simpl in Hbody.
    + intros [= <- <-] _. apply Hrestore, Hbody.
    + intros [= <- <-] _. apply Hrestore, Hbody.
    + intros [= <- <-] [].
Qed.

(** X10.  However the capture of a panel ends (saved, failed, stopped by the
    user), it leaves the page as it found it but for the scroll offset:
    the bars it hid are shown again, it clicked nothing and it did not
    touch the profile dropdowns. *)
Theorem panel_capture_restores_the_page :
  forall fuel folderName baseFileName w r w',
    captureAndSave fuel folderName baseFileName w = (r, w') ->
    ended r ->
    hiddenBars (page w') = hiddenBars (page w)
    /\ clicked (page w') = clicked (page w)
    /\ pidSelect (page w') = pidSelect (page w)
    /\ rateSelect (page w') = rateSelect (page w).
Proof.
  intros fuel folderName baseFileName w r w' Hrun Hended.
  pose proof (captureAndSave_page _ _ _ _ _ _ Hrun Hended) as Hpage.
  unfold samePage in Hpage.
  split; [exact (f_equal hiddenBars Hpage)|].
  split; [exact (f_equal clicked Hpage)|].
  split; [exact (f_equal pidSelect Hpage)|exact (f_equal rateSelect Hpage)].
Qed.

Lemma panel_capture_restores_the_page_witness :
  hiddenBars (page (snd (captureAndSave 3 "01_Setup" "01_01_Setup"
                           (freshWorld longPanelEnv tuningPage))))
  = hiddenBars tuningPage
  /\ clicked (page (snd (captureAndSave 3 "01_Setup" "01_01_Setup"
                           (freshWorld longPanelEnv tuningPage))))
     = clicked tuningPage
  /\ pidSelect (page (snd (captureAndSave 3 "01_Setup" "01_01_Setup"
                             (freshWorld longPanelEnv tuningPage))))
     = pidSelect tuningPage
  /\ rateSelect (page (snd (captureAndSave 3 "01_Setup" "01_01_Setup"
                              (freshWorld longPanelEnv tuningPage))))
     = rateSelect tuningPage.
Proof.
  assert (ended (fst (captureAndSave 3 "01_Setup" "01_01_Setup"
                        (freshWorld longPanelEnv tuningPage)))) as Hended
    by (vm_compute; exact I).
  exact (panel_capture_restores_the_page 3 "01_Setup" "01_01_Setup"
           (freshWorld longPanelEnv tuningPage) _ _ (surjective_pairing _) Hended).
Defined.

Lemma samePage_clicked p p' : samePage p p' -> clicked p' = clicked p.
Proof. unfold samePage. intros H. apply (f_equal clicked) in H. exact H. Qed.

Lemma captureSubTabs_clicks fuel folder prefix tabLabel sel subTabs :
  forall subIdx w w',
    captureSubTabs fuel folder prefix tabLabel sel subIdx subTabs w = (Returned tt, w') ->
    clicked (page w')
    = rev (map (fun i => subTabTarget sel (i - 1)) (seq subIdx (length subTabs)))
      ++ clicked (page w).
Proof.
  induction subTabs as [|sub rest IH]; intros subIdx w w' Hrun.
  - injection Hrun as <-. reflexivity.
  - cbn [captureSubTabs] in Hrun.
    rewrite bind_setStatus in Hrun. unfold click at 1 in Hrun.
    rewrite bind_modify, bind_sleep in Hrun.
    apply bind_Returned in Hrun as ([] & w1 & Hshot & Hrest).
    apply IH in Hrest. rewrite Hrest.
    apply captureAndSave_page in Hshot; [|exact I].
    apply samePage_clicked in Hshot. rewrite Hshot, sleep_page.
    cbn [length seq map rev]. rewrite <- app_assoc. reflexivity.
Qed.

(** X12.  A capture of a panel that returns has clicked exactly the visible
    sub-tabs found by the first successful sub-tab selector, each once and
    in page order, when there is more than one of them; otherwise it has
    clicked nothing. *)
Theorem sub_tabs_are_opened_in_page_order :
  forall fuel folder prefix englishName tabLabel w w',
    captureTabWithSubTabs fuel folder prefix englishName tabLabel w = (Returned tt, w') ->
    let found := firstSubTabs (querySelectorAll (env w) (clock w)) SUB_TAB_SELECTORS in
    clicked (page w')
    = (if (1 <? length (snd found))%nat
       then rev (map (subTabTarget (fst found)) (seq 0 (length (snd found))))
       else [])
      ++ clicked (page w).
Proof.
  intros fuel folder prefix englishName tabLabel w w' Hrun found.
  unfold captureTabWithSubTabs, findVisibleSubTabs in Hrun. rewrite bind_gets in Hrun.
  fold found in Hrun. destruct found as [sel subTabs]. cbn [fst snd].
  destruct (1 <? length subTabs)%nat.
  - apply captureSubTabs_clicks in Hrun. rewrite Hrun. f_equal. f_equal.
    rewrite <- seq_shift, map_map. apply map_ext. intros i. f_equal. lia.
  - rewrite bind_setStatus in Hrun.
    apply captureAndSave_page in Hrun; [|exact I].
    apply samePage_clicked in Hrun. exact Hrun.
Qed.

Lemma sub_tabs_are_opened_in_page_order_witness :
  exists w',
    captureTabWithSubTabs 5 "06_PID_Tuning" "06" "PID_Tuning" "PID Tuning"
      (freshWorld (tuningEnv None) tuningPage) = (Returned tt, w')
    /\ clicked (page w')
       = ["#content .tab-container .tab[2]";
          "#content .tab-container .tab[1]";
          "#content .tab-container .tab[0]"].
Proof.
  assert (exists w',
             captureTabWithSubTabs 5 "06_PID_Tuning" "06" "PID_Tuning" "PID Tuning"
               (freshWorld (tuningEnv None) tuningPage) = (Returned tt, w'))
    as (w' & Hrun) by (eexists; vm_compute; reflexivity).
  exists w'. split; [exact Hrun|].
  exact (sub_tabs_are_opened_in_page_order 5 "06_PID_Tuning" "06" "PID_Tuning" "PID Tuning"
           _ _ Hrun).
Defined.

(* ===================================================================== *)
(** * Part XXII. Profile dropdowns                                    *)
(* ===================================================================== *)

(** The switch of one dropdown with its verification, and the restore at the
    end of a profile cycling that nobody interrupts. *)

Lemma applySelectValue_run ax v w :
  exists w',
    applySelectValue ax v w = (Returned tt, w')
    /\ clock w' = clock w /\ outbox w' = outbox w /\ env w' = env w.
Proof.
  unfold applySelectValue, modify. eexists. split; [reflexivity|].
  destruct (selectOf ax (page w)); [destruct (selectAccepts _ _)|]; repeat split.
Qed.

Lemma bridgeRequests_shift selector value n l :
  bridgeRequests selector value n ++ bridgeRequests selector value 1 ++ l
  = bridgeRequests selector value (S n) ++ l.
Proof.
  unfold bridgeRequests. destruct selector as [sel|]; [|reflexivity].
  simpl. apply repeat_shift.
Qed.

Lemma verifyAttempts_outcome remaining ax selector value :
  forall w,
  exists r w' n,
    verifyAttempts remaining ax selector value w = (Returned r, w')
    /\ (n <= remaining)%nat
    /\ outbox w' = bridgeRequests selector value n ++ outbox w
    /\ (r = true ->
        selectValue ax w' = value /\ (1 <= n)%nat
        /\ clock w' = clock w + 1000 * Z.of_nat n - 500)
    /\ (r = false ->
        n = remaining /\ clock w' = clock w + 1000 * Z.of_nat n
        /\ ((1 <= remaining)%nat -> selectValue ax w' <> value)).
Proof.
  induction remaining as [|remaining IH]; intros w.
  - exists false, w, O. split; [reflexivity|]. split; [lia|].
    split; [unfold bridgeRequests; destruct selector; reflexivity|].
    split; [discriminate|]. intros _. repeat split; try lia.
  - cbn [verifyAttempts].
    assert (exists w1,
               (match selector with
                | Some sel => setSelectViaBridge ax sel value
                | None => applySelectValue ax value
                end) w = (Returned tt, w1)
               /\ clock w1 = clock w
               /\ outbox w1 = bridgeRequests selector value 1 ++ outbox w) as (w1 & Hset & Hc1 & Ho1).
    { destruct selector as [sel|].
      - unfold setSelectViaBridge. rewrite bind_sendMessage.
        destruct (applySelectValue_run ax value (pushOutbox (SetSelectValue sel value) w))
          as (w1 & Hrun & Hc & Ho & _).
        exists w1. repeat split; assumption.
      - destruct (applySelectValue_run ax value w) as (w1 & Hrun & Hc & Ho & _).
        exists w1. repeat split; assumption. }
    rewrite (bind_run _ _ _ _ _ Hset), bind_sleep, bind_gets.
    set (w2 := snd (sleep 500 w1)).
    assert (clock w2 = clock w + 500) as Hc2
      by (subst w2; rewrite sleep_clock, Hc1; simpl; lia).
    assert (outbox w2 = bridgeRequests selector value 1 ++ outbox w) as Ho2
      by (subst w2; rewrite sleep_outbox; exact Ho1).
    destruct (String.eqb_spec (selectValue ax w2) value) as [Heq|Hne].
    + exists true, w2, 1%nat. split; [reflexivity|]. split; [lia|]. split; [exact Ho2|].
      split; [|discriminate]. intros _. repeat split; try assumption; lia.
    + rewrite bind_sleep. set (w3 := snd (sleep 500 w2)).
      assert (selectValue ax w3 = selectValue ax w2) as Hv3
        by (subst w3; unfold selectValue; now rewrite sleep_page).
      destruct (IH w3) as (r & w' & n & Hrun & Hn & Hout & Htrue & Hfalse).
      exists r, w', (S n). split; [exact Hrun|]. split; [lia|].
      assert (clock w3 = clock w + 1000) as Hc3
        by (subst w3; rewrite sleep_clock, Hc2; simpl; lia).
      split.
      { rewrite Hout. subst w3. rewrite sleep_outbox, Ho2.
        apply bridgeRequests_shift. }
      split.
      * intros Hr. destruct (Htrue Hr) as (Hv & Hn1 & Hc). repeat split; try assumption; lia.
      * intros Hr. destruct (Hfalse Hr) as (-> & Hc & Hlast).
        split; [reflexivity|]. split; [lia|]. intros _.
        destruct remaining as [|remaining].
        -- cbn [verifyAttempts ret] in Hrun. injection Hrun as _ <-. congruence.
        -- apply Hlast. lia.
Qed.

(** X8.  Switching a profile dropdown always returns, after between one and
    [retries + 1] attempts.  It answers [true] exactly when the dropdown
    shows the requested value afterwards; a successful switch ends 500 ms
    after its last attempt began (1000 ms per earlier attempt), a failed
    one has used all attempts of 1000 ms each; and one bridge request was
    sent per attempt when the dropdown can be addressed by a selector,
    none otherwise. *)
Theorem dropdown_switch_is_verified :
  forall ax value retries w,
    exists r w' n,
      setSelectValueVerified ax value retries w = (Returned r, w')
      /\ (1 <= n <= S retries)%nat
      /\ (r = true <-> selectValue ax w' = value)
      /\ (r = true -> clock w' = clock w + 1000 * Z.of_nat n - 500)
      /\ (r = false -> n = S retries /\ clock w' = clock w + 1000 * Z.of_nat n)
      /\ outbox w' = bridgeRequests (selectorOf ax w) value n ++ outbox w.
Proof.
  intros ax value retries w.
  unfold setSelectValueVerified. rewrite bind_gets. fold (selectorOf ax w).
  destruct (verifyAttempts_outcome (S retries) ax (selectorOf ax w) value w)
    as (r & w' & n & Hrun & Hn & Hout & Htrue & Hfalse).
  exists r, w', n. split; [exact Hrun|].
  destruct r.
  - destruct (Htrue eq_refl) as (Hv & Hn1 & Hc).
    split; [lia|]. split; [tauto|]. split; [intros _; exact Hc|].
    split; [discriminate|exact Hout].
  - destruct (Hfalse eq_refl) as (-> & Hc & Hlast).
    split; [lia|]. split.
    { split; [discriminate|]. intros Hv. exfalso. apply Hlast; [lia|exact Hv]. }
    split; [discriminate|]. split; [intros _; split; [reflexivity|exact Hc]|exact Hout].
Qed.

Lemma dropdown_switch_is_verified_witness :
  exists r w' n,
    setSelectValueVerified PidAxis "1" 3 (freshWorld plainEnv tuningPage) = (Returned r, w')
    /\ (1 <= n <= 4)%nat
    /\ (r = true <-> selectValue PidAxis w' = "1")
    /\ (r = true -> clock w' = 0 + 1000 * Z.of_nat n - 500)
    /\ (r = false -> n = 4%nat /\ clock w' = 0 + 1000 * Z.of_nat n)
    /\ outbox w'
       = bridgeRequests (selectorOf PidAxis (freshWorld plainEnv tuningPage)) "1" n ++ [].
Proof.
  exact (dropdown_switch_is_verified PidAxis "1" 3 (freshWorld plainEnv tuningPage)).
Defined.

(** ** The dropdowns stay what they are *)


















(** ** Without a stop request nothing throws *)

Lemma calm_ret {A} (a : A) : calm (ret a).
Proof. intros w Hq. split; [exact Hq|discriminate]. Qed.

Lemma calm_gets {A} (f : World -> A) : calm (gets f).
Proof. intros w Hq. split; [exact Hq|discriminate]. Qed.

Lemma calm_outOfFuel {A} : calm (@outOfFuel A).
Proof. intros w Hq. split; [exact Hq|discriminate]. Qed.

Lemma calm_checkAbort : calm checkAbort.
Proof.
  intros w Hq. unfold checkAbort. rewrite (proj1 Hq). split; [exact Hq|discriminate].
Qed.

Lemma calm_bind {A B} (m : Js A) (k : A -> Js B) :
  calm m -> (forall a, calm (k a)) -> calm (bind m k).
Proof.
  intros Hm Hk w Hq. unfold bind. destruct (Hm w Hq) as [Hq1 Hno].
  destruct (m w) as [[a|e|] w1]; simpl in *.
  - apply Hk, Hq1.
  - now contradiction (Hno e).
  - split; [exact Hq1|discriminate].
Qed.

Lemma calm_tryFinally {A} (body : Js A) cleanup :
  calm body -> calm cleanup -> calm (tryFinally body cleanup).
Proof.
  intros Hb Hc w Hq. unfold tryFinally. destruct (Hb w Hq) as [Hq1 Hno].
  destruct (body w) as [[a|e|] w1]; simpl in *.
  - destruct (Hc w1 Hq1) as [Hq2 Hno2].
    destruct (cleanup w1) as [[[]|e'|] w2]; simpl in *.
    + split; [exact Hq2|discriminate].
    + now contradiction (Hno2 e').
    + split; [exact Hq2|discriminate].
  - now contradiction (Hno e).
  - split; [exact Hq1|discriminate].
Qed.

Lemma calm_sleep ms : calm (sleep ms).
Proof. intros w Hq. split; [apply sleep_quiet, Hq|discriminate]. Qed.

(** A step that touches neither the stop flag nor the environment. *)
Lemma calm_modify (f : World -> World) :
  (forall w, abortRequested (f w) = abortRequested w /\ env (f w) = env w) ->
  calm (modify f).
Proof.
  intros Hf w [Ha He]. destruct (Hf w) as [Ha' He']. split; [|discriminate].
  split; simpl; congruence.
Qed.

Lemma calm_sendMessage m : calm (sendMessage m).
Proof. apply calm_modify. intros w. split; reflexivity. Qed.

Lemma calm_setStatus msg : calm (setStatus msg).
Proof. intros w. apply calm_sendMessage. Qed.

Lemma calm_click sel : calm (click sel).
Proof. apply calm_modify. intros w. split; reflexivity. Qed.

Lemma calm_assignScrollTop v : calm (assignScrollTop v).
Proof. apply calm_modify. intros w. split; reflexivity. Qed.

Lemma calm_applySelectValue ax v : calm (applySelectValue ax v).
Proof.
  apply calm_modify. intros w.
  destruct (selectOf ax (page w)); [destruct (selectAccepts _ _)|]; split; reflexivity.
Qed.

Lemma calm_hideStickyBottomElements : calm hideStickyBottomElements.
Proof. intros w Hq. split; [exact Hq|discriminate]. Qed.

Ltac calm_step :=
  lazymatch goal with
  | |- calm (ret _) => apply calm_ret
  | |- calm (gets _) => apply calm_gets
  | |- calm outOfFuel => apply calm_outOfFuel
  | |- calm checkAbort => apply calm_checkAbort
  | |- calm (sleep _) => apply calm_sleep
  | |- calm (sendMessage _) => apply calm_sendMessage
  | |- calm (setStatus _) => apply calm_setStatus
  | |- calm (saveToZip _ _ _ _) => apply calm_sendMessage
  | |- calm (click _) => apply calm_click
  | |- calm (assignScrollTop _) => apply calm_assignScrollTop
  | |- calm (applySelectValue _ _) => apply calm_applySelectValue
  | |- calm hideStickyBottomElements => apply calm_hideStickyBottomElements
  | |- calm (restoreStickyBottomElements _) =>
      apply calm_modify; intros; split; reflexivity
  | |- calm (modify _) => apply calm_modify; intros; split; reflexivity
  | |- calm (tryFinally _ _) => apply calm_tryFinally
  | |- calm (bind _ _) => apply calm_bind; [|intros]
  | |- calm (match ?x with _ => _ end) => destruct x
  end.




















(* ===================================================================== *)
(** * Part XXIII. The service worker as a reactive system             *)
(* ===================================================================== *)

(** Invariants of the worker over every sequence of shortcut presses and
    messages, the archive at the end of a run, what a stop leaves behind,
    and the two bridges that answer the content script. *)









Section Delivery.
Variable b : Background.Browser.

(** One message of a run, delivered to a worker that holds an archive. *)
Lemma deliver_inRun s m zip :
  Background.backupZip s = Some zip ->
  inRunMessage m ->
  exists zip',
    Background.backupZip (Background.deliver b s m) = Some zip'
    /\ Background.rootFolderName (Background.deliver b s m) = Background.rootFolderName s
    /\ (forall p, is_Some (zip !! p) -> is_Some (zip' !! p))
    /\ match m with
       | SaveFile folderName fileName content isBase64 =>
           zip' !! Background.filePath (Background.rootFolderName s) folderName fileName
           = Some (Background.entryOf content isBase64)
       | _ => zip' = zip
       end.
Proof.
  intros Hzip Hm. unfold Background.deliver.
  destruct m as [|message progress| |folderName fileName content isBase64|sel v|op| |e];
    simpl in *; try contradiction; try (exists zip; repeat split; auto; fail).
  unfold Background.saveFile. rewrite Hzip. simpl.
  eexists. split; [reflexivity|]. split; [reflexivity|]. split.
  - intros p Hp.
    rewrite !lookup_insert_is_Some'. auto.
  - unfold Background.filePath, Background.folderPath, Background.entryOf.
    rewrite lookup_insert_eq. destruct isBase64; reflexivity.
Qed.

Lemma deliverAll_inRun ms :
  forall s zip,
    Background.backupZip s = Some zip ->
    Forall inRunMessage ms ->
    exists zip',
      Background.backupZip (Background.deliverAll b ms s) = Some zip'
      /\ Background.rootFolderName (Background.deliverAll b ms s)
         = Background.rootFolderName s
      /\ (forall p, is_Some (zip !! p) -> is_Some (zip' !! p))
      /\ (forall folderName fileName content isBase64,
             In (SaveFile folderName fileName content isBase64) ms ->
             is_Some (zip' !! Background.filePath (Background.rootFolderName s)
                                    folderName fileName))
      /\ (forall earlier folderName fileName content isBase64,
             ms = earlier ++ [SaveFile folderName fileName content isBase64] ->
             zip' !! Background.filePath (Background.rootFolderName s) folderName fileName
             = Some (Background.entryOf content isBase64)).
Proof.
  induction ms as [|m ms IH]; intros s zip Hzip Hall.
  - exists zip. split; [exact Hzip|]. split; [reflexivity|]. split; [auto|].
    split; [intros ? ? ? ? []|]. intros [|? ?] ? ? ? ?; discriminate.
  - apply Forall_cons_iff in Hall as [Hm Hall].
    destruct (deliver_inRun s m zip Hzip Hm) as (zip1 & Hzip1 & Hroot1 & Hkeep1 & Hm1).
    destruct (IH (Background.deliver b s m) zip1 Hzip1 Hall)
      as (zip' & Hzip' & Hroot' & Hkeep' & Hall' & Hlast').
    exists zip'. cbn [Background.deliverAll fold_left].
    split; [exact Hzip'|]. split; [unfold Background.deliverAll in Hroot'; congruence|].
    split; [auto|]. split.
    + intros folderName fileName content isBase64 [->|Hin].
      * apply Hkeep'. rewrite Hm1. eauto.
      * rewrite <- Hroot1. eapply Hall'. exact Hin.
    + intros earlier folderName fileName content isBase64 Heq.
      rewrite <- Hroot1.
      destruct earlier as [|m0 earlier].
      * destruct ms as [|? ?]; [|discriminate]. injection Heq as ->.
        simpl in Hzip'. rewrite Hzip1 in Hzip'. injection Hzip' as <-.
        rewrite Hroot1. exact Hm1.
      * injection Heq as -> ->. eapply Hlast'. reflexivity.
Qed.

End Delivery.

Lemma deliver_inRun_packagings b s m :
  inRunMessage m ->
  Background.packagings (Background.deliver b s m) = Background.packagings s.
Proof.
  intros Hm. unfold Background.deliver.
  destruct m as [|message progress| |folderName fileName content isBase64|sel v|op| |e];
    simpl in *; try contradiction; try reflexivity.
  unfold Background.saveFile. destruct (Background.backupZip s); reflexivity.
Qed.

Lemma deliverAll_inRun_packagings b ms :
  forall s,
    Forall inRunMessage ms ->
    Background.packagings (Background.deliverAll b ms s) = Background.packagings s.
Proof.
  induction ms as [|m ms IH]; intros s Hall; [reflexivity|].
  apply Forall_cons_iff in Hall as [Hm Hall].
  cbn [Background.deliverAll fold_left].
  change (Background.packagings (Background.deliverAll b ms (Background.deliver b s m))
          = Background.packagings s).
  rewrite (IH _ Hall). apply deliver_inRun_packagings, Hm.
Qed.

(** X15.  When a run of the content script returns and the service worker,
    holding an archive and with no packaging of an earlier backup under
    way, has received the messages sent before the verdict in the order in
    which they were sent, the worker still holds an archive and every file
    the run sent is in it, at [<root>/<folder>/<file>].  At no point of
    that delivery is a callback of a packaging left to run: one that
    arrived would find nothing to do, so none discards the archive in
    between. *)
Theorem completed_run_has_its_files_in_the_archive :
  forall fuel options (w w' : World) (b : Background.Browser) (s : Background.State) zip,
    runExtractionTask fuel options w = (Returned tt, w') ->
    outbox w = [] ->
    Background.backupZip s = Some zip ->
    Background.packagings s = O ->
    exists verdict earlier zip',
      outbox w' = verdict :: earlier
      /\ (verdict = ExtractionComplete
          \/ exists text, verdict = ExtractionError text)
      /\ Background.backupZip (Background.deliverAll b (rev earlier) s) = Some zip'
      /\ (forall folderName fileName content isBase64,
             In (SaveFile folderName fileName content isBase64) (outbox w') ->
             is_Some (zip' !! Background.filePath (Background.rootFolderName s)
                                    folderName fileName))
      /\ (forall received pending outcome,
             rev earlier = received ++ pending ->
             Background.packagings (Background.deliverAll b received s) = O
             /\ Background.packagingEnds outcome (Background.deliverAll b received s)
                = Background.deliverAll b received s).
Proof.
  intros fuel options w w' b s zip Hrun Hempty Hzip Hnone.
  destruct (runExtractionTask_returned _ _ _ _ Hrun)
    as (_ & _ & _ & verdict & earlier & Hout & Hall & Hverdict).
  rewrite Hempty, app_nil_r in Hout.
  destruct (deliverAll_inRun b (rev earlier) s zip Hzip) as (zip' & Hzip' & _ & _ & Hin & _).
  { apply Forall_rev. exact Hall. }
  exists verdict, earlier, zip'. split; [exact Hout|]. split; [exact Hverdict|].
  split; [exact Hzip'|]. split.
  - intros folderName fileName content isBase64 Hsaved. rewrite Hout in Hsaved.
    destruct Hsaved as [Heq|Hsaved].
    + destruct Hverdict as [->|[e ->]]; discriminate.
    + eapply Hin. apply in_rev in Hsaved. exact Hsaved.
  - intros received pending outcome Hsplit.
    assert (Forall inRunMessage received) as Hreceived.
    { apply Forall_rev in Hall. rewrite Hsplit in Hall.
      apply Forall_app in Hall. exact (proj1 Hall). }
    assert (Background.packagings (Background.deliverAll b received s) = O) as Hidle.
    { rewrite (deliverAll_inRun_packagings b received s Hreceived). exact Hnone. }
    split; [exact Hidle|]. unfold Background.packagingEnds. rewrite Hidle. reflexivity.
Qed.

Lemma completed_run_has_its_files_in_the_archive_witness :
  exists w' verdict earlier zip',
    runExtractionTask 5 defaultOptions (freshWorld twoPanelEnv emptyPage) = (Returned tt, w')
    /\ outbox w' = verdict :: earlier
    /\ Background.backupZip
         (Background.deliverAll (browserAt "2026-02-23_14-30") (rev earlier) busyWorker)
       = Some zip'
    /\ (forall folderName fileName content isBase64,
           In (SaveFile folderName fileName content isBase64) (outbox w') ->
           is_Some (zip' !! Background.filePath (Background.rootFolderName busyWorker)
                                  folderName fileName)).
Proof.
  assert (exists w',
             runExtractionTask 5 defaultOptions (freshWorld twoPanelEnv emptyPage)
             = (Returned tt, w'))
    as (w' & Hrun) by (eexists; vm_compute; reflexivity).
  assert (exists zip, Background.backupZip busyWorker = Some zip) as (zip & Hzip)
    by (eexists; reflexivity).
  assert (Background.packagings busyWorker = O) as Hnone by reflexivity.
  destruct (completed_run_has_its_files_in_the_archive 5 defaultOptions _ _
              (browserAt "2026-02-23_14-30") busyWorker zip Hrun (@Logic.eq_refl _ _) Hzip
              Hnone)
    as (verdict & earlier & zip' & Hout & _ & Hzip' & Hfiles & _).
  exists w', verdict, earlier, zip'. repeat split; assumption.
Defined.





Lemma captureTabRun_settled evs c :
  Background.responded c = true ->
  Background.responses (Background.captureTabRun evs c) = Background.responses c
  /\ Background.responded (Background.captureTabRun evs c) = true.
Proof.
  unfold Background.captureTabRun. revert c.
  induction evs as [|ev evs IH]; intros c Hdone; simpl; [split; [reflexivity|exact Hdone]|].
  destruct ev as [|lastError dataUrl]; simpl.
  - destruct (Background.timerPending c) eqn:Hp.
    + rewrite Hdone. destruct (IH {| Background.responded := true;
                                     Background.timerPending := false;
                                     Background.responses := Background.responses c |}
                                  eq_refl) as [H1 H2].
      split; assumption.
    + apply IH, Hdone.
  - rewrite Hdone. apply IH, Hdone.
Qed.

(** X17.  The capture bridge answers each request exactly once, whatever the
    timer and the capture callback do afterwards: with the outcome of the
    first of the two to occur.  The content script obtains a frame only
    when the capture callback came first and without an error. *)
Theorem capture_bridge_answers_once :
  forall (ev : Background.CaptureEvent) (evs : list Background.CaptureEvent),
    Background.responses
      (Background.captureTabRun (ev :: evs) Background.captureTabStart)
    = [Background.firstAnswer ev]
    /\ captureResult (Background.replyOf (Background.firstAnswer ev))
       = match ev with
         | Background.CaptureReturns None dataUrl => dataUrl
         | _ => None
         end.
Proof.
  intros ev evs. split.
  - unfold Background.captureTabRun. cbn [fold_left].
    fold (Background.captureTabRun evs
            (Background.captureTabStep ev Background.captureTabStart)).
    destruct ev as [|[message|] dataUrl]; simpl;
      match goal with
      | |- Background.responses (Background.captureTabRun evs ?c) = _ =>
          now rewrite (proj1 (captureTabRun_settled evs c eq_refl))
      end.
  - destruct ev as [|[message|] dataUrl]; simpl; try reflexivity.
    destruct message; reflexivity.
Qed.

(** ** Reading the terminal *)

Lemma popWhileBlank_spec reversed :
  exists blanks,
    reversed = blanks ++ Background.popWhileBlank reversed
    /\ Forall (fun line => Background.isBlank line = true) blanks
    /\ (forall last before,
           Background.popWhileBlank reversed = last :: before ->
           Background.isBlank last = false).
Proof.
  induction reversed as [|l rest (blanks & Heq & Hblank & Hlast)]; simpl.
  - exists []. split; [reflexivity|]. split; [constructor|]. discriminate.
  - destruct (Background.isBlank l) eqn:Hl.
    + exists (l :: blanks). split; [simpl; now rewrite <- Heq|].
      split; [constructor; assumption|exact Hlast].
    + exists []. split; [reflexivity|]. split; [constructor|].
      intros last before [= <- _]. exact Hl.
Qed.

Lemma popBlankLines_spec lines :
  exists blanks,
    lines = Background.popBlankLines lines ++ blanks
    /\ Forall (fun line => Background.isBlank line = true) blanks
    /\ (forall kept line,
           Background.popBlankLines lines = kept ++ [line] ->
           Background.isBlank line = false).
Proof.
  destruct (popWhileBlank_spec (rev lines)) as (blanks & Heq & Hblank & Hlast).
  unfold Background.popBlankLines. exists (rev blanks).
  split; [|split].
  - rewrite <- rev_app_distr, <- Heq. now rewrite rev_involutive.
  - now apply List.Forall_rev.
  - intros kept line Hk. apply (f_equal (@rev string)) in Hk.
    rewrite rev_involutive, rev_app_distr in Hk. simpl in Hk.
    eapply Hlast. exact Hk.
Qed.

(** X18.  The terminal read returns the lines of the buffer (those the buffer
    yields) joined by line feeds, without the blank lines at the end: what
    is dropped is blank, the last line kept is not, and a buffer of blank
    lines only reads as the empty string. *)
Theorem terminal_read_drops_trailing_blank_lines :
  forall rows : list (option string),
    exists kept blanks,
      omap id rows = kept ++ blanks
      /\ Forall (fun line => Background.isBlank line = true) blanks
      /\ (forall earlier line, kept = earlier ++ [line] -> Background.isBlank line = false)
      /\ Background.readTerminal (Some rows) = String.concat Background.lineFeed kept
      /\ (Forall (fun line => Background.isBlank line = true) (omap id rows) ->
          Background.readTerminal (Some rows) = EmptyString).
Proof.
  intros rows.
  destruct (popBlankLines_spec (omap id rows)) as (blanks & Heq & Hblank & Hlast).
  exists (Background.popBlankLines (omap id rows)), blanks.
  split; [exact Heq|]. split; [exact Hblank|]. split; [exact Hlast|].
  split; [reflexivity|].
  intros Hall. unfold Background.readTerminal.
  destruct (Background.popBlankLines (omap id rows)) as [|k kept] eqn:Hpop; [reflexivity|].
  exfalso.
  destruct (@exists_last _ (k :: kept) ltac:(discriminate)) as (earlier & line & Hsplit).
  pose proof (Hlast _ _ Hsplit) as Hline.
  rewrite Heq, Hsplit in Hall. apply Forall_app in Hall as [Hall _].
  apply Forall_app in Hall as [_ Hall]. apply Forall_cons_iff in Hall as [Hx _]. congruence.
Qed.

Lemma splitOn_lacks sep s : lacks sep s -> splitOn sep s = [s].
Proof.
  unfold lacks. induction s as [|c s IH]; simpl; [reflexivity|].
  intros Hnot. destruct (Ascii.eqb_spec c sep) as [->|Hne]; [tauto|].
  rewrite IH by tauto. reflexivity.
Qed.

Lemma splitOn_cons sep s : exists first rest, splitOn sep s = first :: rest.
Proof.
  induction s as [|c s (first & rest & IH)]; simpl; [eauto|].
  destruct (Ascii.eqb c sep); [eauto|]. rewrite IH. eauto.
Qed.

Lemma splitOn_at sep a b :
  lacks sep a -> splitOn sep (a +:+ String sep b) = a :: splitOn sep b.
Proof.
  unfold lacks. induction a as [|c a IH]; simpl.
  - intros _. now rewrite Ascii.eqb_refl.
  - intros Hnot. destruct (Ascii.eqb_spec c sep) as [->|Hne]; [tauto|].
    rewrite IH by tauto. reflexivity.
Qed.

(** X19.  Of a data URL with a single comma the archive keeps what follows the
    comma, as a base64 entry at [<root>/<folder>/<file>]; a content without
    a comma has no payload. *)
Theorem archive_keeps_the_base64_payload :
  forall (header payload : string),
    lacks "," header ->
    lacks "," payload ->
    Background.base64Payload (header +:+ "," +:+ payload) = Some payload
    /\ Background.base64Payload header = None
    /\ (forall (b : Background.Browser) (s : Background.State) zip folderName fileName,
           Background.backupZip s = Some zip ->
           exists zip',
             Background.backupZip
               (fst (Background.onMessage b
                       (Background.BgSaveFile folderName fileName
                          (header +:+ "," +:+ payload) true) s))
             = Some zip'
             /\ zip' !! Background.filePath (Background.rootFolderName s) folderName fileName
                = Some (Background.File (Some payload) true)).
Proof.
  intros header payload Hheader Hpayload.
  assert (Background.base64Payload (header +:+ "," +:+ payload) = Some payload) as Hsplit.
  { unfold Background.base64Payload.
    change (header +:+ "," +:+ payload) with (header +:+ String "," payload).
    rewrite splitOn_at, splitOn_lacks by assumption. reflexivity. }
  split; [exact Hsplit|]. split.
  - unfold Background.base64Payload. rewrite splitOn_lacks by assumption. reflexivity.
  - intros b s zip folderName fileName Hzip.
    cbn [Background.onMessage]. unfold Background.saveFile. rewrite Hzip. cbn [fst].
    eexists. split; [reflexivity|].
    unfold Background.filePath, Background.folderPath.
    rewrite lookup_insert_eq, Hsplit. reflexivity.
Qed.

Lemma archive_keeps_the_base64_payload_witness :
  lacks "," "data:image/jpeg;base64"
  /\ lacks "," "AAAA"
  /\ Background.base64Payload "data:image/jpeg;base64,AAAA" = Some "AAAA".
Proof.
  assert (lacks "," "data:image/jpeg;base64") as H1.
  { unfold lacks. simpl. intros H. repeat (destruct H as [H|H]; [discriminate|]). exact H. }
  assert (lacks "," "AAAA") as H2.
  { unfold lacks. simpl. intros H. repeat (destruct H as [H|H]; [discriminate|]). exact H. }
  split; [exact H1|]. split; [exact H2|].
  exact (proj1 (archive_keeps_the_base64_payload _ _ H1 H2)).
Defined.

(* ===================================================================== *)
(** * Part XXIV. The popup and the keyboard shortcut                  *)
(* ===================================================================== *)

(** What the popup stores and restores, what its start button lets through,
    and how the keyboard shortcut compares. *)

Lemma member_assign_same k v obj : Popup.member k (Popup.assign k v obj) = Some v.
Proof.
  unfold Popup.member. induction obj as [|[k' v'] rest IH]; simpl.
  - now rewrite String.eqb_refl.
  - destruct (String.eqb k' k) eqn:Hk; simpl; rewrite Hk; [reflexivity|exact IH].
Qed.

(** Storing distinct keys into an object appends them. *)
Lemma assign_fresh k v obj :
  ~ In k (map fst obj) -> Popup.assign k v obj = obj ++ [(k, v)].
Proof.
  induction obj as [|[k' v'] rest IH]; simpl; [reflexivity|].
  intros Hnot. destruct (String.eqb_spec k' k) as [->|Hne]; [tauto|].
  rewrite IH by tauto. reflexivity.
Qed.

Lemma saveTabSelections_distinct grid :
  List.NoDup (map fst grid) -> Popup.saveTabSelections grid = grid.
Proof.
  unfold Popup.saveTabSelections.
  assert (forall acc, List.NoDup (map fst (acc ++ grid)) ->
                      fold_left (fun s c => Popup.assign (fst c) (snd c) s) grid acc
                      = acc ++ grid) as Hgen.
  { induction grid as [|[k v] rest IH]; intros acc Hnd; simpl.
    - now rewrite app_nil_r.
    - rewrite assign_fresh.
      + rewrite IH; rewrite <- app_assoc; [reflexivity|exact Hnd].
      + rewrite map_app in Hnd. simpl in Hnd. apply NoDup_remove_2 in Hnd.
        intros Hin. apply Hnd. apply in_or_app. now left. }
  intros Hnd. apply (Hgen [] Hnd).
Qed.

Lemma member_distinct k v grid :
  List.NoDup (map fst grid) -> In (k, v) grid -> Popup.member k grid = Some v.
Proof.
  unfold Popup.member. induction grid as [|[k' v'] rest IH]; simpl; [tauto|].
  intros Hnd [Heq|Hin].
  - injection Heq as -> ->. now rewrite String.eqb_refl.
  - inversion Hnd as [|? ? Hnot Hnd']; subst.
    destruct (String.eqb_spec k' k) as [->|Hne].
    + exfalso. apply Hnot. apply in_map_iff. exists (k, v). split; [reflexivity|exact Hin].
    + apply IH; assumption.
Qed.

Lemma KNOWN_TABS_distinct : List.NoDup (map Popup.kt_cls Popup.KNOWN_TABS).
Proof.
  unfold Popup.KNOWN_TABS. cbn [map Popup.kt_cls].
  repeat (constructor;
          [simpl; intros H; repeat (destruct H as [H|H]; [discriminate|]); exact H|]).
  constructor.
Qed.

Lemma buildTabGrid_keys saved :
  map fst (Popup.buildTabGrid saved) = map Popup.kt_cls Popup.KNOWN_TABS.
Proof. unfold Popup.buildTabGrid. rewrite map_map. reflexivity. Qed.

Lemma buildTabGrid_of_grid grid :
  map fst grid = map Popup.kt_cls Popup.KNOWN_TABS ->
  Popup.buildTabGrid (Some grid) = grid.
Proof.
  intros Hkeys.
  assert (List.NoDup (map fst grid)) as Hnd by (rewrite Hkeys; apply KNOWN_TABS_distinct).
  unfold Popup.buildTabGrid.
  assert (forall tabs g,
             map fst g = map Popup.kt_cls tabs ->
             (forall kv, In kv g -> In kv grid) ->
             map (fun tab =>
                    (Popup.kt_cls tab,
                     match Popup.member (Popup.kt_cls tab) grid with
                     | Some v => v
                     | None => Popup.kt_on tab
                     end)) tabs = g) as Hgen.
  { induction tabs as [|tab tabs IH]; intros [|[k v] g] Hk Hsub; try discriminate;
      [reflexivity|].
    simpl in Hk. injection Hk as -> Hk. simpl.
    rewrite (member_distinct _ v grid Hnd) by (apply Hsub; now left).
    f_equal. apply IH; [exact Hk|]. intros kv Hin. apply Hsub. now right. }
  apply Hgen; [exact Hkeys|auto].
Qed.

(** X20.  The popup's grid always holds one checkbox per known panel, in the
    order of the list.  For such a grid, what [saveTabSelections] stores is
    the grid itself, and a popup opened on what [saveOptions] and
    [saveTabSelections] stored shows exactly the boxes that were stored,
    whatever the page declares as defaults. *)
Theorem popup_restores_what_it_stored :
  forall (p declared : Popup.State) (saved : option Popup.Selections),
    map fst (Popup.buildTabGrid saved) = map Popup.kt_cls Popup.KNOWN_TABS
    /\ (map fst (Popup.tabGrid p) = map Popup.kt_cls Popup.KNOWN_TABS ->
        Popup.saveTabSelections (Popup.tabGrid p) = Popup.tabGrid p
        /\ Popup.openPopup declared (Some (Popup.saveOptions p))
             (Some (Popup.saveTabSelections (Popup.tabGrid p)))
           = p).
Proof.
  intros p declared saved. split; [apply buildTabGrid_keys|].
  intros Hkeys.
  assert (Popup.saveTabSelections (Popup.tabGrid p) = Popup.tabGrid p) as Hsave.
  { apply saveTabSelections_distinct. rewrite Hkeys. apply KNOWN_TABS_distinct. }
  split; [exact Hsave|].
  unfold Popup.openPopup. rewrite Hsave, buildTabGrid_of_grid by exact Hkeys.
  destruct p; reflexivity.
Qed.

Lemma popup_restores_what_it_stored_witness :
  Popup.openPopup firstPopup (Some (Popup.saveOptions firstPopup))
    (Some (Popup.saveTabSelections (Popup.tabGrid firstPopup)))
  = firstPopup.
Proof.
  destruct (popup_restores_what_it_stored firstPopup firstPopup None) as [Hkeys Hround].
  apply Hround. exact Hkeys.
Defined.

(** X21.  A click on the start button sends [startBackup] exactly when the
    URL of the front tab contains [app.betaflight.com] (anywhere in it: the
    test is for a substring), screenshots or the CLI dump is selected, and,
    if screenshots are selected, at least one panel is checked; the message
    then carries the id of that tab and the options as the popup shows
    them. *)
Theorem popup_starts_only_valid_backups :
  forall (activeTab : option (Z * string)) (p : Popup.State) tabId options,
    Popup.startClick activeTab p = Popup.StartBackup tabId options
    <-> (options = Popup.getOptions p
         /\ (exists url, activeTab = Some (tabId, url)
                         /\ includes url "app.betaflight.com" = true)
         /\ (screenshots options = true \/ cli options = true)
         /\ (screenshots options = true ->
             exists c rest, selectedTabs options = Some (c :: rest)
                            /\ In (c, true) (Popup.tabGrid p))).
Proof.
  intros activeTab p tabId options. split.
  - unfold Popup.startClick.
    destruct activeTab as [[tab url]|]; [|discriminate].
    destruct (includes url "app.betaflight.com") eqn:Hurl; [|discriminate]. simpl.
    destruct (Popup.optScreenshots p) eqn:Hshots; simpl.
    + destruct (Popup.getSelectedTabClasses (Popup.tabGrid p)) as [|c rest] eqn:Hsel;
        [discriminate|]. simpl.
      intros [= <- <-]. split; [reflexivity|]. split; [eauto|]. split; [now left|].
      intros _. exists c, rest. simpl. rewrite Hsel. split; [reflexivity|].
      assert (In c (Popup.getSelectedTabClasses (Popup.tabGrid p))) as Hin
        by (rewrite Hsel; now left).
      unfold Popup.getSelectedTabClasses in Hin.
      apply in_map_iff in Hin as ([k v] & <- & Hin). apply filter_In in Hin as [Hin Hv].
      simpl in Hv. subst v. exact Hin.
    + destruct (Popup.optCli p) eqn:Hcli; [|discriminate]. simpl.
      intros [= <- <-]. split; [reflexivity|]. split; [eauto|]. split; [now right|].
      simpl. rewrite Hshots. discriminate.
  - intros (-> & (url & -> & Hurl) & Hsome & Hsel).
    unfold Popup.startClick. rewrite Hurl. simpl in *.
    destruct (Popup.optScreenshots p) eqn:Hshots; simpl.
    + destruct (Hsel (@Logic.eq_refl _ _)) as (c & rest & Heq & _).
      injection Heq as ->. reflexivity.
    + destruct Hsome as [Hs|Hc]; [discriminate|]. rewrite Hc. reflexivity.
Qed.

Lemma popup_starts_only_valid_backups_witness :
  (exists c rest,
      selectedTabs (Popup.getOptions firstPopup) = Some (c :: rest)
      /\ In (c, true) (Popup.tabGrid firstPopup))
  /\ Popup.startClick (Some (7, "https://example.org/?from=app.betaflight.com")) firstPopup
     = Popup.StartBackup 7 (Popup.getOptions firstPopup)
  /\ Popup.startClick (Some (7, "https://betaflight.com/")) firstPopup
     = Popup.ShowError "Open the Betaflight Configurator first!".
Proof.
  assert (Popup.startClick (Some (7, "https://app.betaflight.com/")) firstPopup
          = Popup.StartBackup 7 (Popup.getOptions firstPopup)) as Hclick
    by (vm_compute; reflexivity).
  destruct (proj1 (popup_starts_only_valid_backups _ _ _ _) Hclick)
    as (_ & _ & Hsome & Hsel).
  assert (screenshots (Popup.getOptions firstPopup) = true) as Hshots by reflexivity.
  split; [apply Hsel; exact Hshots|]. split.
  - apply (proj2 (popup_starts_only_valid_backups _ _ _ _)).
    split; [reflexivity|]. split; [|split; [exact Hsome|exact Hsel]].
    exists "https://example.org/?from=app.betaflight.com".
    split; [reflexivity|vm_compute; reflexivity].
  - vm_compute. reflexivity.
Defined.

(** X22.  With an idle worker, a configurator tab in front and a storage that
    holds the option boxes and the panel grid as the popup stored them,
    the keyboard shortcut starts the backup that the popup's start button
    would start: same tab, same options, same selection of panels. *)
Theorem shortcut_starts_what_the_popup_would :
  forall reach stamp tabId url (p : Popup.State) (s : Background.State),
    map fst (Popup.tabGrid p) = map Popup.kt_cls Popup.KNOWN_TABS ->
    includes url "app.betaflight.com" = true ->
    Background.isRunning s = false ->
    let b := browserWithStorage reach stamp tabId url p in
    Background.onCommand b "start-backup" s
    = Background.handleStartBackup b tabId (Popup.getOptions p) s
    /\ Background.onMessage b
         (Background.BgStartBackup tabId (Some (Popup.getOptions p))) s
       = (Background.handleStartBackup b tabId (Popup.getOptions p) s,
          Background.NoResponse).
Proof.
  intros reach stamp tabId url p s Hkeys Hurl Hidle b. split; [|reflexivity].
  unfold Background.onCommand. rewrite Hidle. cbn [negb String.eqb].
  subst b. cbn [Background.activeTab Background.storedOptions Background.tabSelections
                browserWithStorage negb].
  simpl (negb _). cbv iota. rewrite Hurl.
  rewrite saveTabSelections_distinct by (rewrite Hkeys; apply KNOWN_TABS_distinct).
  reflexivity.
Qed.

Lemma shortcut_starts_what_the_popup_would_witness :
  Background.onCommand
    (browserWithStorage Background.Responds "2026-02-23_14-30" 7
       "https://app.betaflight.com/" firstPopup)
    "start-backup" idleWorker
  = Background.handleStartBackup
      (browserWithStorage Background.Responds "2026-02-23_14-30" 7
         "https://app.betaflight.com/" firstPopup)
      7 (Popup.getOptions firstPopup) idleWorker.
Proof.
  apply (shortcut_starts_what_the_popup_would Background.Responds "2026-02-23_14-30" 7
           "https://app.betaflight.com/" firstPopup idleWorker).
  - reflexivity.
  - vm_compute; reflexivity.
  - reflexivity.
Defined.



(* ===================================================================== *)
(** * Part XXV. The scroll container and the folder names             *)
(* ===================================================================== *)

(** The choice of the element that is scrolled, and the numbering of the
    folders of the archive. *)

Lemma insertByHeight_head x sorted :
  exists first rest,
    insertByHeight x sorted = first :: rest
    /\ (first = x \/ head sorted = Some first)
    /\ box_scrollHeight x <= box_scrollHeight first
    /\ (forall y, head sorted = Some y -> box_scrollHeight y <= box_scrollHeight first).
Proof.
  destruct sorted as [|y rest]; simpl.
  - exists x, []. repeat split; try lia; [now left|discriminate].
  - destruct (box_scrollHeight y <=? box_scrollHeight x) eqn:Hle.
    + apply Z.leb_le in Hle. exists x, (y :: rest).
      repeat split; try lia; [now left|]. intros y' [= <-]. exact Hle.
    + apply Z.leb_gt in Hle. exists y, (insertByHeight x rest).
      repeat split; try lia; [now right|]. intros y' [= <-]. lia.
Qed.

(** The first element of the sorted list is one of the elements, and none
    is taller. *)
Lemma sortByHeight_head els :
  match sortByHeight els with
  | [] => els = []
  | first :: _ =>
      In first els /\ forall el, In el els -> box_scrollHeight el <= box_scrollHeight first
  end.
Proof.
  induction els as [|x els IH]; simpl; [reflexivity|].
  destruct (insertByHeight_head x (sortByHeight els)) as (first & rest & -> & Horigin & Hx & Hhead).
  destruct (sortByHeight els) as [|y sorted].
  - subst els. destruct Horigin as [->|Hh]; [|discriminate].
    split; [now left|]. intros el [<-|[]]. lia.
  - destruct IH as [Hin Hmax]. specialize (Hhead y eq_refl). split.
    + destruct Horigin as [->|[= ->]]; [now left|now right].
    + intros el [<-|Hel]; [exact Hx|]. specialize (Hmax el Hel). lia.
Qed.

(** X24.  The scroll container is [#content] when that element overflows its
    window by more than 10 pixels.  Otherwise it is one of the [div],
    [main] or [section] elements that scroll, and none of those is taller;
    or the document element when none of them scrolls. *)
Theorem scroll_container_is_the_tallest_scroller :
  forall (content : option ScrollBox) (boxes : list ScrollBox) (documentElement : ScrollBox),
    let chosen := getScrollableContainer content boxes documentElement in
    (exists c, content = Some c
               /\ box_clientHeight c + 10 < box_scrollHeight c
               /\ chosen = c)
    \/ ((forall c, content = Some c -> box_scrollHeight c <= box_clientHeight c + 10)
        /\ ((In chosen boxes
             /\ scrolls chosen = true
             /\ forall el, In el boxes -> scrolls el = true ->
                           box_scrollHeight el <= box_scrollHeight chosen)
            \/ (chosen = documentElement
                /\ forall el, In el boxes -> scrolls el = false))).
Proof.
  intros content boxes documentElement chosen.
  assert (let fallback :=
            match sortByHeight (List.filter scrolls boxes) with
            | first :: _ => first
            | [] => documentElement
            end in
          (In fallback boxes
           /\ scrolls fallback = true
           /\ forall el, In el boxes -> scrolls el = true ->
                         box_scrollHeight el <= box_scrollHeight fallback)
          \/ (fallback = documentElement
              /\ forall el, In el boxes -> scrolls el = false)) as Hfallback.
  { pose proof (sortByHeight_head (List.filter scrolls boxes)) as Hhead.
    destruct (sortByHeight (List.filter scrolls boxes)) as [|first rest]; simpl.
    - right. split; [reflexivity|]. intros el Hel.
      destruct (scrolls el) eqn:Hs; [|reflexivity].
      assert (In el (List.filter scrolls boxes)) as Hin by (apply filter_In; tauto).
      rewrite Hhead in Hin. destruct Hin.
    - left. destruct Hhead as [Hin Hmax]. apply filter_In in Hin as [Hin Hs].
      split; [exact Hin|]. split; [exact Hs|].
      intros el Hel Hscrolls. apply Hmax. apply filter_In. tauto. }
  subst chosen. unfold getScrollableContainer.
  destruct content as [c|].
  - destruct (box_clientHeight c + 10 <? box_scrollHeight c) eqn:Hc.
    + apply Z.ltb_lt in Hc. left. exists c. repeat split; assumption.
    + apply Z.ltb_ge in Hc. right. split; [|exact Hfallback].
      intros c' [= <-]. exact Hc.
  - right. split; [discriminate|exact Hfallback].
Qed.

Lemma to_uint_nonnil n : Nat.to_uint n <> Decimal.Nil.
Proof.
  pose proof (DecimalNat.Unsigned.to_of (Nat.to_uint n)) as Hnorm.
  rewrite DecimalNat.Unsigned.of_to in Hnorm. rewrite Hnorm. apply DecimalFacts.unorm_nonnil.
Qed.

Lemma showNat_inj i j : showNat i = showNat j -> i = j.
Proof.
  unfold showNat. intros H.
  apply (f_equal NilZero.uint_of_string) in H.
  rewrite !NilZero.usu in H by apply to_uint_nonnil.
  injection H as H. now apply DecimalNat.Unsigned.to_uint_inj.
Qed.

Lemma append_inv_head a : forall b c, a +:+ b = a +:+ c -> b = c.
Proof.
  induction a as [|x a IH]; simpl; intros b c H; [exact H|].
  injection H as H. now apply IH.
Qed.

Lemma digits_lack_underscore d : lacks "_" (NilEmpty.string_of_uint d).
Proof.
  unfold lacks. induction d; simpl; intros H;
    try (destruct H as [H|H]; [discriminate|]); tauto.
Qed.

Lemma showNat_lacks_underscore n : lacks "_" (showNat n).
Proof.
  unfold showNat, NilZero.string_of_uint.
  destruct (Nat.to_uint n) eqn:E; try (rewrite <- E; apply digits_lack_underscore).
  unfold lacks. simpl. intros [H|[]]. discriminate.
Qed.

Lemma pad2_lacks_underscore n : lacks "_" (pad2 n).
Proof.
  unfold pad2. destruct (_ <? _)%nat; [|apply showNat_lacks_underscore].
  pose proof (showNat_lacks_underscore n) as H. unfold lacks in *. simpl.
  intros [Heq|Hin]; [discriminate|tauto].
Qed.

Lemma to_uint_no_leading_zero n d : Nat.to_uint n = Decimal.D0 d -> d = Decimal.Nil.
Proof.
  intros H. pose proof (DecimalNat.Unsigned.to_of (Nat.to_uint n)) as Hnorm.
  rewrite DecimalNat.Unsigned.of_to, H in Hnorm. unfold Decimal.unorm in Hnorm.
  simpl Decimal.nzhead in Hnorm.
  destruct (Decimal.nzhead d) eqn:E; try (symmetry in Hnorm; rewrite <- E in Hnorm;
                                 now apply DecimalFacts.nzhead_nonzero in Hnorm).
  now injection Hnorm.
Qed.

Lemma showNat_leading_zero n s : showNat n = String "0" s -> s = EmptyString.
Proof.
  unfold showNat, NilZero.string_of_uint.
  destruct (Nat.to_uint n) eqn:E; simpl; intros H; try discriminate.
  - now injection H.
  - apply to_uint_no_leading_zero in E. subst. simpl in H. now injection H.
Qed.

Lemma pad2_inj i j : pad2 i = pad2 j -> i = j.
Proof.
  unfold pad2.
  destruct (String.length (showNat i) <? 2)%nat eqn:Ei;
    destruct (String.length (showNat j) <? 2)%nat eqn:Ej; intros H.
  - apply showNat_inj. now injection H.
  - symmetry in H. pose proof (showNat_leading_zero _ _ H) as Hs.
    simpl in H. rewrite Hs in H. rewrite H in Ej. discriminate.
  - pose proof (showNat_leading_zero _ _ H) as Hs.
    simpl in H. rewrite Hs in H. rewrite H in Ei. discriminate.
  - now apply showNat_inj.
Qed.

(** X25.  The folder name of a panel, [<two-digit index>_<name>], determines
    both the index and the name: panels visited under different indices
    never share a folder, whatever they are called and however many there
    are. *)
Theorem panels_never_share_a_folder :
  forall i j name name',
    pad2 i +:+ "_" +:+ name = pad2 j +:+ "_" +:+ name' -> i = j /\ name = name'.
Proof.
  intros i j name name' Hfull.
  pose proof (f_equal (splitOn "_") Hfull) as H.
  change (pad2 i +:+ "_" +:+ name) with (pad2 i +:+ String "_" name) in H.
  change (pad2 j +:+ "_" +:+ name') with (pad2 j +:+ String "_" name') in H.
  rewrite !splitOn_at in H by apply pad2_lacks_underscore.
  injection H as Hpad _. apply pad2_inj in Hpad. subst j. split; [reflexivity|].
  apply append_inv_head in Hfull. now injection Hfull.
Qed.

Lemma panels_never_share_a_folder_witness :
  pad2 3 +:+ "_" +:+ "Power" = "03_Power" /\ 3%nat = 3%nat /\ "Power" = "Power".
Proof.
  split; [reflexivity|].
  apply (panels_never_share_a_folder 3 3 "Power" "Power"). reflexivity.
Defined.

(* ===================================================================== *)
(** * Part XXVI. What makes a run give up                             *)
(* ===================================================================== *)

(** The exceptions with which the units of a run can end, the conditions
    under which they return, and the run that nothing disturbs. *)

Section Raises.
Variable S : string -> Prop.

Lemma raises_ret {A} (a : A) : raises S (ret a).
Proof. intros w e w' H. discriminate. Qed.

Lemma raises_throw {A} e : S e -> raises S (@throw A e).
Proof. intros HS w e' w' [= <- _]. exact HS. Qed.

Lemma raises_gets {A} (f : World -> A) : raises S (gets f).
Proof. intros w e w' H. discriminate. Qed.

Lemma raises_modify (f : World -> World) : raises S (modify f).
Proof. intros w e w' H. discriminate. Qed.

Lemma raises_outOfFuel {A} : raises S (@outOfFuel A).
Proof. intros w e w' H. discriminate. Qed.

Lemma raises_checkAbort : S "Backup stopped by user." -> raises S checkAbort.
Proof.
  intros HS w e w'. unfold checkAbort. destruct (abortRequested w); [|discriminate].
  intros [= <- _]. exact HS.
Qed.

Lemma raises_bind {A B} (m : Js A) (k : A -> Js B) :
  raises S m -> (forall a, raises S (k a)) -> raises S (bind m k).
Proof.
  intros Hm Hk w e w'. unfold bind.
  destruct (m w) as [[a|e1|] w1] eqn:Hrun.
  - apply Hk.
  - intros [= <- _]. eapply Hm. exact Hrun.
  - discriminate.
Qed.


End Raises.

Lemma raises_weaken (S S' : string -> Prop) {A} (m : Js A) :
  (forall e, S e -> S' e) -> raises S m -> raises S' m.
Proof. intros Himp Hm w e w' Hrun. eapply Himp, Hm, Hrun. Qed.

(** One step on the head of the script, without unfolding named scripts. *)
Ltac raises_step :=
  lazymatch goal with
  | |- raises _ (ret _) => apply raises_ret
  | |- raises _ (gets _) => apply raises_gets
  | |- raises _ (sleep _) => apply raises_modify
  | |- raises _ isConnected => apply raises_gets
  | |- raises _ (assignScrollTop _) => apply raises_modify
  | |- raises _ (querySelector _) => apply raises_gets
  | |- raises _ (querySelectorAllNow _) => apply raises_gets
  | |- raises _ (setStatus _) => intros ? ? ? ?; discriminate
  | |- raises _ (sendMessage _) => apply raises_modify
  | |- raises _ (saveToZip _ _ _ _) => apply raises_modify
  | |- raises _ (click _) => apply raises_modify
  | |- raises _ (modify _) => apply raises_modify
  | |- raises _ (bind _ _) => apply raises_bind; [|intros]
  | |- raises _ (match ?x with _ => _ end) => destruct x
  end.

Ltac raises_run := repeat raises_step.

Section RaisesUnits.
Variable S : string -> Prop.
Hypothesis S_stop : S "Backup stopped by user.".

Lemma raises_isConnected : raises S isConnected.
Proof.
  intros w e w' Hrun. destruct (isConnected_pure w) as [_ [r Hr]].
  rewrite Hrun in Hr. discriminate.
Qed.


















Lemma raises_cliClear : raises S cliClear.
Proof. unfold cliClear. raises_run. Qed.

Lemma raises_cliSend c : raises S (cliSend c).
Proof. unfold cliSend, findCliInput. raises_run. Qed.

Lemma raises_cliRead : raises S cliRead.
Proof. unfold cliRead. raises_run. Qed.

Lemma raises_waitLoop fuel start maxMs lastLen stable :
  raises S (waitLoop fuel start maxMs lastLen stable).
Proof.
  revert lastLen stable. induction fuel as [|fuel IH]; intros lastLen stable; simpl.
  - apply raises_outOfFuel.
  - raises_run;
      first [apply raises_checkAbort, S_stop | apply raises_cliRead | apply IH].
Qed.

Lemma raises_cliWaitForStableOutput maxMs : raises S (cliWaitForStableOutput maxMs).
Proof. unfold cliWaitForStableOutput. raises_run. apply raises_waitLoop. Qed.

Lemma raises_storeCliOutput c output : raises S (storeCliOutput c output).
Proof. unfold storeCliOutput. raises_run. Qed.

Hypothesis S_before : S "Connection lost before CLI extraction – backup aborted.".
Hypothesis S_during : S "Connection lost during CLI extraction – backup aborted.".

Lemma raises_runCliCommand c : raises S (runCliCommand c).
Proof.
  unfold runCliCommand.
  raises_run;
    first [ apply raises_checkAbort, S_stop | apply raises_isConnected
          | apply raises_throw, S_during | apply raises_cliClear | apply raises_cliSend
          | apply raises_cliWaitForStableOutput | apply raises_cliRead
          | apply raises_storeCliOutput ].
Qed.

Lemma raises_forEachCommand commands : raises S (forEachCommand commands).
Proof.
  induction commands as [|c rest IH]; simpl.
  - apply raises_ret.
  - raises_run; first [apply raises_runCliCommand | apply IH].
Qed.

Lemma raises_handleCliTab : raises S handleCliTab.
Proof.
  unfold handleCliTab, cliDiagnostics.
  raises_run;
    first [ apply raises_isConnected | apply raises_throw, S_before
          | apply raises_forEachCommand ].
Qed.

End RaisesUnits.

Section Steadfast.
Variable e0 : Env.

Lemma steadfast_ret {A} (a : A) : steadfast e0 (ret a).
Proof. intros w He Hq. exists a, w. split; [reflexivity|split; assumption]. Qed.

Lemma steadfast_gets {A} (f : World -> A) : steadfast e0 (gets f).
Proof. intros w He Hq. exists (f w), w. split; [reflexivity|split; assumption]. Qed.

Lemma steadfast_checkAbort : steadfast e0 checkAbort.
Proof.
  intros w He Hq. exists tt, w. unfold checkAbort. rewrite (proj1 Hq).
  split; [reflexivity|split; assumption].
Qed.

Lemma steadfast_sleep ms : steadfast e0 (sleep ms).
Proof.
  intros w He Hq. exists tt, (snd (sleep ms w)).
  split; [apply sleep_run|]. split; [now rewrite sleep_env|now apply sleep_quiet].
Qed.

Lemma steadfast_modify (f : World -> World) :
  (forall w, env (f w) = env w /\ abortRequested (f w) = abortRequested w) ->
  steadfast e0 (modify f).
Proof.
  intros Hf w He Hq. exists tt, (f w). destruct (Hf w) as [Hfe Hfa].
  split; [reflexivity|]. split; [congruence|].
  destruct Hq as [Ha Hn]. split; congruence.
Qed.

Lemma steadfast_bind {A B} (m : Js A) (k : A -> Js B) :
  steadfast e0 m -> (forall a, steadfast e0 (k a)) -> steadfast e0 (bind m k).
Proof.
  intros Hm Hk w He Hq. destruct (Hm w He Hq) as (a & w1 & Hrun & He1 & Hq1).
  rewrite (bind_run _ _ _ _ _ Hrun). apply Hk; assumption.
Qed.

(** The connection check, when the probe never answers "disconnected". *)
Lemma steadfast_probe {B} (k : option bool -> Js B) :
  neverDisconnected e0 ->
  (forall r, r <> Some false -> steadfast e0 (k r)) ->
  steadfast e0 (bind isConnected k).
Proof.
  intros Hconn Hk w He Hq.
  destruct (isConnected_pure w) as [_ [r Hr]].
  rewrite (bind_run _ _ _ _ _ (isConnected_run w r Hr)).
  apply Hk; try assumption. intros ->. apply (Hconn w He). exact Hr.
Qed.

End Steadfast.

Ltac steadfast_step :=
  lazymatch goal with
  | |- steadfast _ (ret _) => apply steadfast_ret
  | |- steadfast _ (gets _) => apply steadfast_gets
  | |- steadfast _ checkAbort => apply steadfast_checkAbort
  | |- steadfast _ (sleep _) => apply steadfast_sleep
  | |- steadfast _ (querySelector _) => apply steadfast_gets
  | |- steadfast _ (querySelectorAllNow _) => apply steadfast_gets
  | |- steadfast _ (setStatus _) =>
      apply (steadfast_modify _ (fun w => pushOutbox _ w)); intros; split; reflexivity
  | |- steadfast _ (sendMessage _) => apply steadfast_modify; intros; split; reflexivity
  | |- steadfast _ (saveToZip _ _ _ _) => apply steadfast_modify; intros; split; reflexivity
  | |- steadfast _ (click _) => apply steadfast_modify; intros; split; reflexivity
  | |- steadfast _ (bind isConnected _) =>
      apply steadfast_probe; [assumption|intros [[|]|] ?; try congruence]
  | |- steadfast _ (bind _ _) => apply steadfast_bind; [|intros]
  | |- steadfast _ (match ?x with _ => _ end) => destruct x
  end.

Section SteadfastCli.
Variable e0 : Env.

Lemma steadfast_cliClear : steadfast e0 cliClear.
Proof. unfold cliClear. repeat steadfast_step. Qed.

Lemma steadfast_cliSend c : steadfast e0 (cliSend c).
Proof. unfold cliSend, findCliInput. repeat steadfast_step. Qed.

Lemma steadfast_cliRead : steadfast e0 cliRead.
Proof. unfold cliRead. repeat steadfast_step. Qed.

Lemma steadfast_storeCliOutput c output : steadfast e0 (storeCliOutput c output).
Proof. unfold storeCliOutput. repeat steadfast_step. Qed.

Lemma calm_cliRead : calm cliRead.
Proof. unfold cliRead. repeat calm_step. Qed.

Lemma calm_waitLoop fuel start maxMs lastLen stable :
  calm (waitLoop fuel start maxMs lastLen stable).
Proof.
  revert lastLen stable. induction fuel as [|fuel IH]; intros lastLen stable; simpl.
  - apply calm_outOfFuel.
  - repeat calm_step; first [apply calm_cliRead | apply IH].
Qed.

Lemma steadfast_cliWaitForStableOutput maxMs : steadfast e0 (cliWaitForStableOutput maxMs).
Proof.
  intros w He Hq.
  assert (exists x, fst (cliWaitForStableOutput maxMs w) = Returned x) as [x Hx].
  { rewrite cliWaitForStableOutput_unfold.
    assert (maxMs <= 1000 * (Z.of_nat 0 + Z.of_nat (S (Z.to_nat (maxMs / 1000 + 1))) - 1))
      as Hfuel.
    { pose proof (Z.div_mod maxMs 1000 ltac:(lia)) as Hdm.
      pose proof (Z.mod_pos_bound maxMs 1000 ltac:(lia)) as Hmod.
      destruct (Z_lt_le_dec (maxMs / 1000 + 1) 0) as [Hneg|Hpos].
      - rewrite Z2Nat.nonpos by lia. lia.
      - rewrite Nat2Z.inj_succ, Z2Nat.id by lia. lia. }
    destruct (waitLoop_outcome (clock w) maxMs (S (Z.to_nat (maxMs / 1000 + 1))) O O O w
                ltac:(simpl; lia) ltac:(lia) Hfuel)
      as [_ Hquiet].
    destruct (Hquiet Hq) as [Hr|Hr]; rewrite Hr; eauto. }
  exists x, (snd (cliWaitForStableOutput maxMs w)).
  split; [rewrite <- Hx; apply surjective_pairing|]. split.
  - rewrite <- He. apply (proj1 (conduct_cliWaitForStableOutput 0%nat maxMs w)).
  - unfold cliWaitForStableOutput. rewrite bind_gets. apply calm_waitLoop, Hq.
Qed.

Hypothesis connected : neverDisconnected e0.

Lemma steadfast_runCliCommand c : steadfast e0 (runCliCommand c).
Proof.
  unfold runCliCommand.
  repeat steadfast_step;
    first [ apply steadfast_cliClear | apply steadfast_cliSend
          | apply steadfast_cliWaitForStableOutput | apply steadfast_cliRead
          | apply steadfast_storeCliOutput ].
Qed.

Lemma steadfast_forEachCommand commands : steadfast e0 (forEachCommand commands).
Proof.
  induction commands as [|c rest IH]; simpl.
  - apply steadfast_ret.
  - repeat steadfast_step; first [apply steadfast_runCliCommand | apply IH].
Qed.

Lemma steadfast_handleCliTab : steadfast e0 handleCliTab.
Proof.
  unfold handleCliTab, cliDiagnostics.
  repeat steadfast_step; apply steadfast_forEachCommand.
Qed.

End SteadfastCli.



(** X27.  The CLI extraction ends with an exception only when the user has
    stopped the backup or the connection probe has answered
    "disconnected".  Without a stop request and with a probe that never
    answers "disconnected" it returns, whatever the terminal does: a clear
    button that is missing, a command that cannot be sent and an output
    that never comes are not fatal. *)
Theorem cli_extraction_gives_up_only_on_stop_or_disconnect :
  forall w,
    (forall e w', handleCliTab w = (Thrown e, w') -> cliGivesUp e)
    /\ (quiet w ->
        neverDisconnected (env w) ->
        exists w', handleCliTab w = (Returned tt, w') /\ quiet w').
Proof.
  intros w. split.
  - intros e w'. apply (raises_handleCliTab cliGivesUp); unfold cliGivesUp; tauto.
  - intros Hq Hconn.
    destruct (steadfast_handleCliTab (env w) Hconn w eq_refl Hq) as ([] & w' & Hrun & _ & Hq').
    eauto.
Qed.

Lemma cli_extraction_gives_up_only_on_stop_or_disconnect_witness :
  (exists w',
      handleCliTab (freshWorld disconnectedEnv emptyPage)
      = (Thrown "Connection lost before CLI extraction – backup aborted.", w'))
  /\ exists w', handleCliTab (freshWorld plainEnv emptyPage) = (Returned tt, w') /\ quiet w'.
Proof.
  split.
  - eexists. vm_compute. reflexivity.
  - destruct (cli_extraction_gives_up_only_on_stop_or_disconnect (freshWorld plainEnv emptyPage))
      as [_ Hreturns].
    apply Hreturns; [split; reflexivity|].
    intros w He.
    destruct w as [e ? ? ? ? ? ? ? ?]. simpl in He. subst e.
    intros Hprobe. vm_compute in Hprobe. discriminate.
Defined.

Section SteadfastRun.
Variable e0 : Env.
Variable fuel : nat.
Hypothesis e0_steady : steady fuel e0.
Hypothesis e0_connected : neverDisconnected e0.
Hypothesis e0_navigation : forall t, visibleTabsAt e0 t <> [].








End SteadfastRun.


